(** * scoreCT: bin-weighted marker scoring, permutation p-values and
      cell-type assignment (src/src/scorect.py)

    A shallow embedding of the scoring core of [scorect.py] and the
    properties its specification states about it.

    Modelling conventions.
    - A Python [int] is a [Z]; a length is a [nat].
    - A Python [float] that is only compared (p-values, the threshold,
      z-scores) is the rational it denotes, a [Q]; [float(count) / K] is
      the exact quotient (the double nearest to it in the source).
    - A Python [dict] is an association list in insertion order, because
      [min] and [max] over a dict return the first extremal key in that
      order.  Keys are unique: [dict_set] updates in place.
    - A pandas DataFrame of ranked genes is the list of its rows, in the
      frame's positional order; the reference frame is the list of its
      named columns, a padded cell (NaN) being [None].
    - A Python exception is a [Raise] in the error monad [res].
    - [np.random.choice] reads an explicit source of draws. *)

From Stdlib Require Import ZArith QArith Lia Ascii.
From stdpp Require Import base list gmap strings pretty.

Close Scope Q_scope.
Open Scope Z_scope.

(** ** Python runtime: exceptions, dicts, slices, ranges *)

Module Py.

Inductive exn : Type :=
| ZeroDivisionError
| ValueError
| KeyError
| IndexError.

Inductive res (A : Type) : Type :=
| Ok (a : A)
| Raise (e : exn).
Arguments Ok {A} a.
Arguments Raise {A} e.

#[export] Instance res_ret : MRet res := fun A a => Ok a.
#[export] Instance res_bind : MBind res := fun A B f m =>
  match m with
  | Ok a => f a
  | Raise e => Raise e
  end.

(** A loop [for x in l: s = body(x, s)] whose body may raise. *)
Fixpoint for_each {A S : Type} (l : list A) (body : A → S → res S) (s : S)
    : res S :=
  match l with
  | [] => Ok s
  | x :: l' => s' ← body x s; for_each l' body s'
  end.

(** A comprehension [[f(x) for x in l]] whose element may raise. *)
Fixpoint comprehension {A B : Type} (f : A → res B) (l : list A)
    : res (list B) :=
  match l with
  | [] => Ok []
  | x :: l' => y ← f x; ys ← comprehension f l'; Ok (y :: ys)
  end.

Definition dict (K V : Type) : Type := list (K * V).

Section Dict.
Context {K V : Type} `{EqDecision K}.

Definition keys (d : dict K V) : list K := d.*1.
Definition values (d : dict K V) : list V := d.*2.

(** [d.get(k)] *)
Fixpoint dict_get (k : K) (d : dict K V) : option V :=
  match d with
  | [] => None
  | (k', v) :: d' => if decide (k' = k) then Some v else dict_get k d'
  end.

(** [k in d] *)
Definition dict_mem (k : K) (d : dict K V) : bool :=
  bool_decide (is_Some (dict_get k d)).

(** [d[k]] *)
Definition dict_item (d : dict K V) (k : K) : res V :=
  match dict_get k d with
  | Some v => Ok v
  | None => Raise KeyError
  end.

(** [d[k] = v]: in place for a key that is present, at the end for a
    new key. *)
Fixpoint dict_set (k : K) (v : V) (d : dict K V) : dict K V :=
  match d with
  | [] => [(k, v)]
  | (k', v') :: d' =>
      if decide (k' = k) then (k', v) :: d' else (k', v') :: dict_set k v d'
  end.
End Dict.

(** [l[a:b]] for a sequence of length [n]: a negative bound counts from
    the end, and both bounds are clamped to [0..n]. *)
Definition slice_bound (n x : Z) : Z :=
  if x <? 0 then Z.max 0 (x + n) else Z.min x n.

Definition slice {A : Type} (l : list A) (a b : Z) : list A :=
  let n := Z.of_nat (length l) in
  let a' := slice_bound n a in
  let b' := slice_bound n b in
  take (Z.to_nat (b' - a')) (drop (Z.to_nat a') l).

(** [range(lo, hi)] as an object: its length and its indexing
    [range(lo, hi)[i]], a negative index counting from the end. *)
Definition range_len (lo hi : Z) : Z := Z.max 0 (hi - lo).

Definition range_item (lo hi i : Z) : res Z :=
  let n := range_len lo hi in
  let i' := if i <? 0 then i + n else i in
  if (0 <=? i') && (i' <? n) then Ok (lo + i') else Raise IndexError.

(** [range(n)] as the list a [for] loop walks. *)
Definition range (n : Z) : list Z := Z.of_nat <$> seq 0 (Z.to_nat n).

(** [int(a / b)] on integers: true division, then truncation towards
    zero (exact while the operands stay below 2^53 in magnitude). *)
Definition int_div (a b : Z) : res Z :=
  if b =? 0 then Raise ZeroDivisionError else Ok (Z.quot a b).

(** [max(d, key=d.get)] and [min(d, key=d.get)]: the first key, in
    iteration order, whose value is extremal; [ValueError] on an empty
    dict. *)
Section Extremal.
Context {K V : Type} (better : V → V → bool).

Fixpoint first_best (best : K * V) (d : dict K V) : K * V :=
  match d with
  | [] => best
  | (k, v) :: d' =>
      first_best (if better v best.2 then (k, v) else best) d'
  end.

Definition extremal_key (d : dict K V) : res K :=
  match d with
  | [] => Raise ValueError
  | kv :: d' => Ok (first_best kv d').1
  end.
End Extremal.

Definition Qltb (x y : Q) : bool := negb (Qle_bool y x).

(** [min(values)] on floats. *)
Definition min_float (l : list Q) : res Q :=
  match l with
  | [] => Raise ValueError
  | x :: l' => Ok (foldl (fun m y => if Qltb y m then y else m) x l')
  end.

End Py.
Import Py.

(** ** Data model *)

(** One row of [marker_df], the table built by [wrangle_ranked_genes]:
    [rank] is the row's index label. *)
Record ranked_row : Type := RankedRow {
  rank : nat;
  z_score : Q;
  adj_pvals : Q;
  gene : string;
  cluster_number : Z
}.

Abbreviation marker_frame := (list ranked_row).

(** The reference frame: a column of markers per cell type; a column
    shorter than the frame is padded with NaN ([None]). *)
Definition ref_frame : Type := dict string (list (option string)).

Definition score_dict : Type := dict Z (dict string Z).
Definition pval_dict : Type := dict Z (dict string Q).

(** ** SCORING: [_score_iter] *)

(** [len(set(ref_df[cell_type]).intersection(set(bin_df['gene'])))] *)
Definition overlap (markers : list (option string)) (bin_df : marker_frame)
    : Z :=
  Z.of_nat (size ((list_to_set markers : gset (option string))
                    ∩ list_to_set (Some <$> (gene <$> bin_df)))).

(** Lines 419-427: the loop over the cell types for bin [k];
    [score_list] is [range(1, n + 1)]. *)
Definition score_bin (ref_df : ref_frame) (n k : Z) (bin_df : marker_frame)
    (scores : dict string Z) : res (dict string Z) :=
  for_each (keys ref_df) (fun cell_type scores =>
    weight ← range_item 1 (n + 1) (- (1 + k));
    markers ← dict_item ref_df cell_type;
    let score_i := weight * overlap markers bin_df in
    match dict_get cell_type scores with
    | Some s => Ok (dict_set cell_type (s + score_i) scores)
    | None => Ok (dict_set cell_type score_i scores)
    end) scores.

(** Lines 412-427: the body of the loop over the clusters, which fills
    the dict of the cluster. *)
Definition score_cluster (ranked_marker : marker_frame) (nb_marker : Z)
    (ref_df : ref_frame) (bin_size : Z) (n : Z) (clust : Z)
    : res (dict string Z) :=
  let sub_df := filter (fun r => cluster_number r = clust) ranked_marker in
  nb_bins ← int_div nb_marker bin_size;
  for_each (range nb_bins) (fun k scores =>
    let bin_df := slice sub_df (k * bin_size) (bin_size + k * bin_size) in
    score_bin ref_df n k bin_df scores) [].

(** [set(ranked_marker['cluster_number'])]: every cluster number once
    (for the tables of [wrangle_ranked_genes], whose clusters come in
    the blocks 0, 1, 2, ..., in that order, the order of a CPython set
    of small integers; no property below depends on the order). *)
Definition clusters (ranked_marker : marker_frame) : list Z :=
  remove_dups (cluster_number <$> ranked_marker).

(** Lines 405-429.  The dict of a cluster is stored once filled (the
    source stores it empty and fills it in place; nothing reads it in
    between). *)
Definition _score_iter (ranked_marker : marker_frame) (nb_marker : Z)
    (ref_df : ref_frame) (bin_size : Z) : res score_dict :=
  n ← int_div nb_marker bin_size;
  for_each (clusters ranked_marker) (fun clust dict_scores =>
    scores ← score_cluster ranked_marker nb_marker ref_df bin_size n clust;
    Ok (dict_set clust scores dict_scores)) [].

(** ** WRANGLE: [wrangle_ranked_genes] *)

(** [anndata.uns['rank_genes_groups']]: three record arrays of the
    same shape, as scanpy writes them, with one record per rank and, in
    each record, one field per group, the field of group [i] being
    named [str(i)]; and the [groupby] parameter. *)
Record rank_genes_groups : Type := RankGenesGroups {
  names : list (list string);
  scores : list (list Q);
  pvals_adj : list (list Q);
  groupby : string
}.

(** Column [str(i)] of a frame built from a record array. *)
Definition column {A : Type} (frame : list (list A)) (i : nat)
    : res (list A) :=
  comprehension (fun record =>
    match record !! i with
    | Some x => Ok x
    | None => Raise KeyError
    end) frame.

(** [len(top_score.columns)]: the number of fields of the records (an
    array without a record is taken to have none). *)
Definition nb_columns {A : Type} (frame : list (list A)) : nat :=
  match frame with
  | [] => 0
  | record :: _ => length record
  end.

(** Lines 152-170.  The slices [.loc[:nb_marker]] keep every record;
    row [r] of the frame of a group keeps its index label [r]. *)
Definition wrangle_ranked_genes (rgg : rank_genes_groups) : res marker_frame :=
  for_each (seq 0 (nb_columns (scores rgg))) (fun i marker_df =>
    zs ← column (scores rgg) i;
    ps ← column (pvals_adj rgg) i;
    gs ← column (names rgg) i;
    let concat :=
      imap (fun r '(z, p, g) => RankedRow r z p g (Z.of_nat i))
           (zip (zip zs ps) gs) in
    Ok (marker_df ++ concat)) [].

(** ** STATS: [randomize_genes] *)

(** [np.random.choice(gene_list, n)]: [n] draws with replacement, draw
    number [j] taking the gene at index [draw j] modulo the size of the
    pool; an empty pool raises when a draw is asked for. *)
Definition draw_genes (gene_list : list string) (n : nat)
    (draw : nat → nat) : list string :=
  (fun j =>
     default ""%string (gene_list !! (draw j `mod` length gene_list)%nat))
    <$> seq 0 n.

Definition random_choice (gene_list : list string) (n : nat)
    (draw : nat → nat) : res (list string) :=
  if decide (gene_list = [] ∧ n ≠ 0%nat) then Raise ValueError
  else Ok (draw_genes gene_list n draw).

Definition set_gene (r : ranked_row) (g : string) : ranked_row :=
  {| rank := rank r; z_score := z_score r; adj_pvals := adj_pvals r;
     gene := g; cluster_number := cluster_number r |}.

(** [df['gene'] = col] on the rows of a frame; [col] has one entry per
    row. *)
Definition assign_gene_column (df : marker_frame) (col : list string)
    : res marker_frame :=
  if decide (length col = length df) then Ok (zip_with set_gene df col)
  else Raise ValueError.

(** The function on frame values: the frame it returns. *)
Definition randomize_genes (marker_df : marker_frame)
    (gene_list : list string) (draw : nat → nat) : res marker_frame :=
  let copy_df := marker_df in
  rd_pick ← random_choice gene_list (length copy_df) draw;
  assign_gene_column copy_df rd_pick.

(** The same function on a store of frame objects, where [copy()]
    allocates and the column assignment mutates in place. *)
Module Store.

Abbreviation ref := nat.
Abbreviation store := (gmap nat marker_frame).

Definition deref (h : store) (l : ref) : res marker_frame :=
  match h !! l with
  | Some df => Ok df
  | None => Raise KeyError
  end.

(** [df.copy()] *)
Definition copy (l : ref) (h : store) : res (ref * store) :=
  df ← deref h l;
  let l' := fresh (dom h) in
  Ok (l', <[l' := df]> h).

(** [df['gene'] = col] *)
Definition set_gene_column (l : ref) (col : list string) (h : store)
    : res store :=
  df ← deref h l;
  df' ← assign_gene_column df col;
  Ok (<[l := df']> h).

Definition randomize_genes (marker_df : ref) (gene_list : list string)
    (draw : nat → nat) (h : store) : res (ref * store) :=
  '(copy_df, h) ← copy marker_df h;
  genes ← deref h copy_df;
  rd_pick ← random_choice gene_list (length genes) draw;
  h ← set_gene_column copy_df rd_pick h;
  Ok (copy_df, h).

End Store.

(** ** SCORING: [score_clusters] *)

Record scoreCT_slot : Type := ScoreCT {
  slot_pval_dict : pval_dict;
  slot_score_dict : score_dict;
  slot_clustering : string;
  slot_pval_thrsh : option Q
}.

(** The parts of the AnnData object the functions touch: the columns of
    [obs] (one value per cell) and the two slots of [uns]. *)
Record AnnData : Type := mkAnnData {
  n_obs : nat;
  obs : dict string (list string);
  uns_rank_genes_groups : option rank_genes_groups;
  uns_scoreCT : option scoreCT_slot
}.

(** The message [score_clusters] returns when a prerequisite is
    missing (lines 331-332). *)
Definition error_message : string :=
  "Error: No clustering solution OR gene ranking found. Please perform scanpy.tl.louvain orscanpy.tl.leiden for clustering, and sc.tl.rank_genes_groups for differential gene expression.".

(** Line 330, as written. *)
Definition prerequisites_missing (anndata : AnnData) : bool :=
  negb (negb (negb (dict_mem "louvain" (obs anndata)))
        || negb (negb (dict_mem "leiden" (obs anndata))))
  || negb (bool_decide (is_Some (uns_rank_genes_groups anndata))).

(** Lines 369-372: one pass of the comparison with the observed
    scores. *)
Definition count_better (ref_score i_dict : score_dict)
    (count_dict : dict Z (dict string Z)) : res (dict Z (dict string Z)) :=
  for_each (keys ref_score) (fun clust count_dict =>
    ref_clust ← dict_item ref_score clust;
    for_each (keys ref_clust) (fun ct count_dict =>
      i_clust ← dict_item i_dict clust;
      i_score ← dict_item i_clust ct;
      ref_clust ← dict_item ref_score clust;
      ref_ct ← dict_item ref_clust ct;
      if ref_ct <=? i_score then
        counts ← dict_item count_dict clust;
        count ← dict_item counts ct;
        Ok (dict_set clust (dict_set ct (count + 1) counts) count_dict)
      else Ok count_dict) count_dict) count_dict.

(** [float(count) / random_sampling], as the exact quotient. *)
Definition float_div (count random_sampling : Z) : res Q :=
  if random_sampling =? 0 then Raise ZeroDivisionError
  else Ok (inject_Z count / inject_Z random_sampling)%Q.

(** Lines 359-376 on the wrangled table: the observed scores are
    [ref_score]; iteration [i] draws its genes from [draw i]. *)
Definition permutation_test (ranked_marker : marker_frame) (nb_marker : Z)
    (ref_marker : ref_frame) (bin_size : Z) (gene_list : list string)
    (random_sampling : Z) (draw : nat → nat → nat) (ref_score : score_dict)
    : res pval_dict :=
  let count_dict : dict Z (dict string Z) :=
    (fun '(clust, d) => (clust, (fun ct => (ct, 0)) <$> keys d))
      <$> ref_score in
  count_dict ← for_each (seq 0 (Z.to_nat random_sampling))
    (fun i count_dict =>
       random_df ← randomize_genes ranked_marker gene_list (draw i);
       i_dict ← _score_iter random_df nb_marker ref_marker bin_size;
       count_better ref_score i_dict count_dict) count_dict;
  comprehension (fun '(clust, counts) =>
    stats ← comprehension (fun '(ct, count) =>
      p ← float_div count random_sampling; Ok (ct, p)) counts;
    Ok (clust, stats)) count_dict.

(** Lines 329-384.  The collaborators are parameters: the reference
    given by the caller, if any, and the outcomes of reading the
    reference file ([_parse_ref]) and of fetching the gene list
    ([_get_genelist]). *)
Section ScoreClusters.
Variable user_ref : option ref_frame.
Variable parse_ref : res ref_frame.
Variable get_genelist : res (list string).

Definition score_clusters (anndata : AnnData) (bin_size : Z)
    (random_sampling : Z) (draw : nat → nat → nat)
    : res (string * AnnData) :=
  if prerequisites_missing anndata then Ok (error_message, anndata)
  else
    match uns_rank_genes_groups anndata with
    | None => Raise KeyError
    | Some rgg =>
        let nb_marker := Z.of_nat (length (names rgg)) in
        ranked_marker ← wrangle_ranked_genes rgg;
        ref_marker ← match user_ref with
                     | Some r => Ok r
                     | None => parse_ref
                     end;
        ref_score ← _score_iter ranked_marker nb_marker ref_marker bin_size;
        gene_list ← get_genelist;
        stat_dict ← permutation_test ranked_marker nb_marker ref_marker
                      bin_size gene_list random_sampling draw ref_score;
        Ok ("DONE"%string,
            {| n_obs := n_obs anndata;
               obs := obs anndata;
               uns_rank_genes_groups := uns_rank_genes_groups anndata;
               uns_scoreCT :=
                 Some (ScoreCT stat_dict ref_score (groupby rgg) None) |})
    end.
End ScoreClusters.

(** ** ASSIGN: [assign_celltypes] *)

Definition Qeqb (x y : Q) : bool := Qeq_bool x y.

(** Lines 542-547: the label of a cluster that passes the threshold. *)
Definition best_type (cluster_pvals : dict string Q) (score : score_dict)
    (cluster : Z) (min_value : Q) : res string :=
  if bool_decide
       (1 < size (list_to_set
                    (keys (filter (fun kv => Qeqb kv.2 min_value = true)
                                  cluster_pvals)) : gset string))%nat
  then
    cluster_scores ← dict_item score cluster;
    extremal_key (fun v best => best <? v) cluster_scores
  else
    extremal_key (fun v best => Qltb v best) cluster_pvals.

(** Lines 539-547: the label of one cluster. *)
Definition assign_type (pvals : pval_dict) (score : score_dict)
    (cluster : Z) (pval_thrsh : Q) : res string :=
  cluster_pvals ← dict_item pvals cluster;
  min_value ← min_float (values cluster_pvals);
  if Qltb pval_thrsh min_value then Ok "NA"%string
  else best_type cluster_pvals score cluster min_value.

(** [anndata.obs.loc[anndata.obs[clust_method] == str(cluster), 'scorect']
    = assign_type] *)
Definition broadcast (labels : list string) (cluster : Z) (assign : string)
    (scorect : list string) : list string :=
  zip_with (fun label old =>
    if decide (label = pretty cluster) then assign else old) labels scorect.

(** Lines 531-552. *)
Definition assign_celltypes (anndata : AnnData) (pval_thrsh : Q)
    : res (string * AnnData) :=
  match uns_scoreCT anndata with
  | None => Raise KeyError
  | Some slot =>
      let clust_method := slot_clustering slot in
      let obs0 := dict_set "scorect"%string
                    (replicate (n_obs anndata) ""%string) (obs anndata) in
      '(obs', thrsh) ← for_each (keys (slot_pval_dict slot))
        (fun cluster '(obs', thrsh) =>
           assign ← assign_type (slot_pval_dict slot) (slot_score_dict slot)
                      cluster pval_thrsh;
           labels ← dict_item obs' clust_method;
           scorect ← dict_item obs' "scorect"%string;
           Ok (dict_set "scorect"%string
                 (broadcast labels cluster assign scorect) obs',
               Some pval_thrsh))
        (obs0, slot_pval_thrsh slot);
      Ok ("Cell types assigned in Anndata.obs['scorect']"%string,
          {| n_obs := n_obs anndata;
             obs := obs';
             uns_rank_genes_groups := uns_rank_genes_groups anndata;
             uns_scoreCT :=
               Some (ScoreCT (slot_pval_dict slot) (slot_score_dict slot)
                       (slot_clustering slot) thrsh) |})
  end.

(** ** WRANGLE & PARSE REF: [_parse_ref] *)

(** [Series.unique()]: the distinct values, in order of first
    appearance. *)
Fixpoint unique {A : Type} `{EqDecision A} (l : list A) : list A :=
  match l with
  | [] => []
  | x :: l' => x :: filter (fun y => y ≠ x) (unique l')
  end.

(** [sep in s] and [s.split(sep)] for a separator of one character:
    every occurrence splits, and empty pieces are kept. *)
Fixpoint contains_char (sep : Ascii.ascii) (s : string) : bool :=
  match s with
  | EmptyString => false
  | String c s' => bool_decide (c = sep) || contains_char sep s'
  end.

Fixpoint split_on (sep : Ascii.ascii) (s : string) : list string :=
  match s with
  | EmptyString => [EmptyString]
  | String c s' =>
      if decide (c = sep) then EmptyString :: split_on sep s'
      else match split_on sep s' with
           | [] => [String c EmptyString]
           | piece :: pieces => String c piece :: pieces
           end
  end.

(** One row of the reference file of a species, with the columns
    [_parse_ref] reads, each cell a string. *)
Record ref_row : Type := RefRow {
  row_organ : string;
  row_context : string;
  row_cell_type : string;
  row_gene_names : string;
  row_comment : string
}.

(** Lines 207-216: the gene names of one cell type, those that hold
    commas split; [temp_list] holds strings and lists of strings, and
    the chain keeps a string whole and unpacks a list. *)
Definition split_genes (genes : list string) : list string :=
  let temp_list : list (string + list string) :=
    (fun gene =>
       if contains_char ","%char gene then inr (split_on ","%char gene)
       else inl gene)
      <$> genes in
  concat ((fun x => match x with
                    | inl gene => [gene]
                    | inr pieces => pieces
                    end) <$> temp_list).

(** [pd.DataFrame({ct: pd.Series(genes), ...})]: one column per key, in
    the order of the dict, each padded with NaN to the longest. *)
Definition frame_of_series (dict_marker : dict string (list string))
    : ref_frame :=
  let n := max_list (length <$> values dict_marker) in
  (fun '(ct, genes) =>
     (ct, (Some <$> genes) ++ replicate (n - length genes) None))
    <$> dict_marker.

(** Lines 191-226, from the frame read from the file of the species
    on: the reference frame and the lines printed.  The dict
    comprehension and the loop that rewrites each of its values are
    maps over the distinct cell types. *)
Definition _parse_ref (specie_df : list ref_row) (organ : string)
    (context : option string) (comments : bool)
    : ref_frame * list (string * string) :=
  let context := match context with
                 | None => "healthy"%string
                 | Some c => c
                 end in
  let sub_df := filter (fun r => row_organ r = organ) specie_df in
  let sub_df := filter (fun r => row_context r = context) sub_df in
  let list_ct := unique (row_cell_type <$> sub_df) in
  let dict_marker : dict string (list string) :=
    (fun ct =>
       (ct, unique (row_gene_names
                      <$> filter (fun r => row_cell_type r = ct) sub_df)))
      <$> list_ct in
  let dict_marker : dict string (list string) :=
    (fun '(ct, genes) => (ct, split_genes genes)) <$> dict_marker in
  let ref_df := frame_of_series dict_marker in
  (ref_df,
   if comments then (fun r => (row_gene_names r, row_comment r)) <$> sub_df
   else []).

(** ** STATS: [_correct_pval] *)

(** Lines 466-472: every value is multiplied in place by [n_test], the
    number of keys of the outer dict. *)
Definition _correct_pval (dict_scores : dict Z (dict string Q))
    : res (dict Z (dict string Q)) :=
  let n_test := Z.of_nat (length (keys dict_scores)) in
  dict_scores ← for_each (keys dict_scores) (fun clust dict_scores =>
    cluster_scores ← dict_item dict_scores clust;
    for_each (keys cluster_scores) (fun ct dict_scores =>
      cluster_scores ← dict_item dict_scores clust;
      p ← dict_item cluster_scores ct;
      Ok (dict_set clust
            (dict_set ct (p * inject_Z n_test)%Q cluster_scores)
            dict_scores)) dict_scores) dict_scores;
  Ok dict_scores.

(** ** Exceptions beyond those of the scoring core *)

Inductive error : Type :=
| Builtin (e : exn)
| TypeError
| StopIteration.

Inductive outcome (A : Type) : Type :=
| Returned (a : A)
| Raised (e : error).
Arguments Returned {A} a.
Arguments Raised {A} e.

#[export] Instance outcome_ret : MRet outcome := fun A a => Returned a.
#[export] Instance outcome_bind : MBind outcome := fun A B f m =>
  match m with
  | Returned a => f a
  | Raised e => Raised e
  end.

Definition of_res {A : Type} (r : res A) : outcome A :=
  match r with
  | Ok a => Returned a
  | Raise e => Raised (Builtin e)
  end.

Fixpoint for_each' {A S : Type} (l : list A) (body : A → S → outcome S)
    (s : S) : outcome S :=
  match l with
  | [] => Returned s
  | x :: l' => s' ← body x s; for_each' l' body s'
  end.

(** ** WRANGLE & PARSE REF: [_get_genelist] *)

(** Lines 285-293, from the lines of the response on (each decoded
    as it is read): the first line is skipped by [next], which raises
    on a response without a line. *)
Definition _get_genelist (response_lines : list string)
    : outcome (list string) :=
  match response_lines with
  | [] => Raised StopIteration
  | _ :: chunks => Returned chunks
  end.

(** ** SUMMARY: [pval_plot] *)

(** The [clusters] argument: an int, or a list of ints. *)
Inductive clusters_arg : Type :=
| IntArg (cluster : Z)
| ListArg (clusters : list Z).

Definition plot_message : string :=
  "scoreCT results not found. Please perform the scoreCT analysis function first.".

(** Lines 488-512.  What pandas, seaborn and matplotlib do with the
    p-values of a cluster and the threshold (lines 500-512, after the
    lookup of the p-values) is the parameter [render], which gives the
    figure shown or raises; the function returns [None] after the
    loop. *)
Section PvalPlot.
Context {figure : Type}.
Variable render : Z → dict string Q → Q → outcome figure.

Definition pval_plot (anndata : AnnData) (clusters : clusters_arg)
    : outcome (option string * list figure) :=
  clusters ← match clusters with
             | IntArg _ => Raised TypeError
             | ListArg l => Returned l
             end;
  match uns_scoreCT anndata with
  | None => Returned (Some plot_message, [])
  | Some slot =>
      pval_thrsh ← match slot_pval_thrsh slot with
                   | Some t => Returned t
                   | None => Raised (Builtin KeyError)
                   end;
      figures ← for_each' clusters (fun cluster figures =>
        cluster_pvals ← of_res (dict_item (slot_pval_dict slot) cluster);
        fig ← render cluster cluster_pvals pval_thrsh;
        Returned (figures ++ [fig])) [];
      Returned (None, figures)
  end.
End PvalPlot.

(** ** Specification-level definitions *)

Definition Zsum (l : list Z) : Z := foldr Z.add 0 l.

(** The rows of one cluster, in table order, and the marker column of a
    cell type. *)
Definition cluster_rows (ranked_marker : marker_frame) (clust : Z)
    : marker_frame :=
  filter (fun r => cluster_number r = clust) ranked_marker.

Definition markers_of (ref_df : ref_frame) (cell_type : string)
    : list (option string) :=
  default [] (dict_get cell_type ref_df).

(** The score as the specification words it: [num_bins] contiguous
    bins of [bin_size] rank positions, bin [k] weighted
    [num_bins - k], each bin contributing its weight times the number
    of markers found in it. *)
Definition nth_bin (rows : marker_frame) (bin_size k : nat) : marker_frame :=
  take bin_size (drop (k * bin_size) rows).

Definition binned_score (rows : marker_frame) (num_bins bin_size : nat)
    (markers : list (option string)) : Z :=
  Zsum ((fun k => (Z.of_nat num_bins - Z.of_nat k)
                  * overlap markers (nth_bin rows bin_size k))
          <$> seq 0 num_bins).

(** The number of bins of a run, the cell types that receive a score
    (all of them as soon as there is one bin, none otherwise), and the
    score of a (cluster, cell type) pair. *)
Definition num_bins (nb_marker bin_size : Z) : nat :=
  Z.to_nat (nb_marker `quot` bin_size).

Definition scored_types (nb_marker bin_size : Z) (ref_df : ref_frame)
    : list string :=
  if decide (num_bins nb_marker bin_size = 0%nat) then [] else keys ref_df.

Definition observed_score (ranked_marker : marker_frame)
    (nb_marker bin_size : Z) (ref_df : ref_frame) (clust : Z) (ct : string)
    : Z :=
  binned_score (cluster_rows ranked_marker clust)
    (num_bins nb_marker bin_size) (Z.to_nat bin_size) (markers_of ref_df ct).

(** The position of row [p] of the table among the rows of its own
    cluster: its rank when the table is ranked cluster by cluster. *)
Definition position_in_cluster (t : marker_frame) (p : nat) (clust : Z) : nat :=
  length (cluster_rows (take p t) clust).

(** Whether a row's gene is a marker, and the bin-weighted sum of a
    list of numbers (of the 0/1 marks of the rows, for a table of
    distinct genes). *)
Definition matched (markers : list (option string)) (r : ranked_row) : Z :=
  if decide (Some (gene r) ∈ markers) then 1 else 0.

Definition weighted (L : list Z) (n bin_size : nat) : Z :=
  Zsum ((fun k => (Z.of_nat n - Z.of_nat k)
                  * Zsum (take bin_size (drop (k * bin_size) L)))
          <$> seq 0 n).

(** The rows [rows'] are the rows [rows] with the genes at the
    positions [i] and [j] exchanged, every other field in place. *)
Definition genes_exchanged (rows rows' : marker_frame) (i j : nat) : Prop :=
  ∃ ri rj,
    rows !! i = Some ri ∧ rows !! j = Some rj
    ∧ rows' = <[i := set_gene ri (gene rj)]>
                (<[j := set_gene rj (gene ri)]> rows).

(** Every field of a row but its gene. *)
Definition same_but_gene (r r' : ranked_row) : Prop :=
  cluster_number r' = cluster_number r
  ∧ rank r' = rank r
  ∧ z_score r' = z_score r
  ∧ adj_pvals r' = adj_pvals r.

(** The frame [randomize_genes] returns when it returns, the scores of
    permutation round [i] (line 364), and the score of a pair in that
    round. *)
Definition shuffle (marker_df : marker_frame) (gene_list : list string)
    (draw : nat → nat) : marker_frame :=
  zip_with set_gene marker_df (draw_genes gene_list (length marker_df) draw).

Definition permuted_scores (ranked_marker : marker_frame) (nb_marker : Z)
    (ref_marker : ref_frame) (bin_size : Z) (gene_list : list string)
    (draw : nat → nat → nat) (i : nat) : res score_dict :=
  random_df ← randomize_genes ranked_marker gene_list (draw i);
  _score_iter random_df nb_marker ref_marker bin_size.

Definition permuted_score (ranked_marker : marker_frame)
    (nb_marker bin_size : Z) (ref_marker : ref_frame)
    (gene_list : list string) (draw : nat → nat → nat) (i : nat)
    (clust : Z) (ct : string) : Z :=
  observed_score (shuffle ranked_marker gene_list (draw i))
    nb_marker bin_size ref_marker clust ct.

(** Whether a permuted score reaches the observed one, the number of
    permuted scores that do, and the empirical p-value made of it. *)
Definition reaches (observed permuted : Z) : Z :=
  if observed <=? permuted then 1 else 0.

Definition count_reaching (observed : Z) (permuted : list Z) : Z :=
  Z.of_nat (length (filter (fun s => observed ≤ s) permuted)).

Definition empirical_pvalue (observed : Z) (permuted : list Z) (K : Z) : Q :=
  (inject_Z (count_reaching observed permuted) / inject_Z K)%Q.

(** The cell types tied at the minimum p-value, and the tie-break as
    the specification words it: among those, the one with the maximum
    raw score. *)
Definition tied_set (cluster_pvals : dict string Q) (min_value : Q)
    : list string :=
  keys (filter (fun kv => Qeqb kv.2 min_value = true) cluster_pvals).

Definition tied_best_score (cluster_pvals : dict string Q)
    (cluster_scores : dict string Z) (min_value : Q) : res string :=
  extremal_key (fun v best => best <? v)
    (filter (fun kv => kv.1 ∈ tied_set cluster_pvals min_value)
            cluster_scores).

(** [d[clust][ct]], when both keys are present. *)
Definition entry {V : Type} (d : dict Z (dict string V)) (clust : Z)
    (ct : string) : option V :=
  dict_get clust d ≫= dict_get ct.

(** A dict given by its keys, in order, and a function for the values;
    a two-level dict given likewise. *)
Definition tabulate {K V : Type} (ks : list K) (f : K → V) : dict K V :=
  (fun k => (k, f k)) <$> ks.

Definition table {V : Type} (cs : list Z) (cts : list string)
    (f : Z → string → V) : dict Z (dict string V) :=
  tabulate cs (fun c => tabulate cts (f c)).

(** The record arrays of a ranking of [g] groups over [n] ranks: [n]
    records of [g] fields each; field [i] of a record; and the rows
    [wrangle_ranked_genes] makes for group [i]. *)
Definition well_shaped (rgg : rank_genes_groups) (g n : nat) : Prop :=
  length (names rgg) = n ∧ length (scores rgg) = n
  ∧ length (pvals_adj rgg) = n
  ∧ Forall (fun record => length record = g) (names rgg)
  ∧ Forall (fun record => length record = g) (scores rgg)
  ∧ Forall (fun record => length record = g) (pvals_adj rgg).

Definition field_or {A : Type} (d : A) (i : nat) (record : list A) : A :=
  default d (record !! i).

Definition group_rows (rgg : rank_genes_groups) (i : nat) : marker_frame :=
  imap (fun r '(z, p, g) => RankedRow r z p g (Z.of_nat i))
    (zip (zip (field_or 0%Q i <$> scores rgg)
              (field_or 0%Q i <$> pvals_adj rgg))
         (field_or ""%string i <$> names rgg)).

(** The column after the labels of the clusters [cs] are written in
    turn. *)
Definition labelled (labels : list string) (label_of : Z → string)
    (cs : list Z) (scorect : list string) : list string :=
  foldl (fun scorect c => broadcast labels c (label_of c) scorect) scorect cs.

(** The p-values of a cluster, each multiplied by [n]. *)
Definition scaled (n : Q) (cluster_scores : dict string Q) : dict string Q :=
  (fun '(ct, p) => (ct, (p * n)%Q)) <$> cluster_scores.

(** The rows of the reference file that [_parse_ref] retains: those of
    the organ and of the context, 'healthy' when none is given. *)
Definition selected (specie_df : list ref_row) (organ : string)
    (context : option string) (r : ref_row) : Prop :=
  r ∈ specie_df ∧ row_organ r = organ
  ∧ row_context r = default "healthy"%string context.

(** What the scoring reads of a row of the ranked table. *)
Definition row_key (r : ranked_row) : Z * string :=
  (cluster_number r, gene r).

(** ** Test data *)

(** A table of one cluster, from its genes in rank order; the genes
    [g0, g1, ...]; a small run of the permutation tester. *)
Definition frame_of_genes (clust : Z) (genes : list string) : marker_frame :=
  imap (fun i g => RankedRow i 0%Q 1%Q g clust) genes.

Definition gene_names (n : nat) : list string :=
  (fun i => "g" +:+ pretty i) <$> seq 0 n.

Definition example_table : marker_frame :=
  frame_of_genes 0 ["A"; "B"; "C"; "D"]%string.

Definition example_ref : ref_frame :=
  [("T"%string, [Some "A"; Some "C"]%string); ("U"%string, [None; None])].

Definition example_pool : list string := ["A"; "X"; "Y"; "Z"]%string.

Definition example_draw (i j : nat) : nat := (i + j)%nat.

(** A dataset of three cells in two clusters, with four ranked genes
    per cluster. *)
Definition example_rgg : rank_genes_groups :=
  RankGenesGroups
    [["A"; "P"]; ["B"; "Q"]; ["C"; "R"]; ["D"; "S"]]%string
    [[9; 8]; [7; 6]; [5; 4]; [3; 2]]%Q
    [[1 # 100; 1 # 100]; [2 # 100; 2 # 100]; [3 # 100; 3 # 100];
     [4 # 100; 4 # 100]]%Q
    "louvain".

Definition example_anndata : AnnData :=
  mkAnnData 3 [("louvain"%string, ["0"; "1"; "0"]%string)]
    (Some example_rgg) None.

(** A dataset that has been scored: three cells, two clusters, one
    cell type. *)
Definition example_slot : scoreCT_slot :=
  ScoreCT [(0, [("T"%string, (1 # 10)%Q)]); (1, [("T"%string, (1 # 2)%Q)])]
          [(0, [("T"%string, 3)]); (1, [("T"%string, 0)])]
          "louvain" None.

Definition example_scored : AnnData :=
  mkAnnData 3 [("louvain"%string, ["0"; "1"; "0"]%string)] None
    (Some example_slot).

(** * Properties *)

(** ** The error monad and loops *)

Lemma bind_Ok {A B : Type} (f : A → res B) (a : A) : (Ok a ≫= f) = f a.
Proof. reflexivity. Qed.

Lemma for_each_ext {A S : Type} (l : list A) (body1 body2 : A → S → res S) s :
  (∀ x s, x ∈ l → body1 x s = body2 x s) →
  for_each l body1 s = for_each l body2 s.
Proof.
  revert s. induction l as [|x l IH]; intros s Hb; simpl; [done|].
  rewrite Hb by left. destruct (body2 x s) as [s'|e]; simpl; [|done].
  apply IH. intros y s'' Hy. apply Hb. by right.
Qed.

(** A loop whose body acts on represented states as [astep] does on
    their abstractions. *)
Lemma for_each_sim {A S F : Type} (repr : F → S) (astep : A → F → F)
    (body : A → S → res S) (l : list A) :
  (∀ x a, x ∈ l → body x (repr a) = Ok (repr (astep x a))) →
  ∀ a, for_each l body (repr a)
       = Ok (repr (foldl (fun a x => astep x a) a l)).
Proof.
  induction l as [|x l IH]; intros Hb a; simpl; [done|].
  rewrite Hb by left. simpl. apply IH.
  intros y b Hy. apply Hb. by right.
Qed.

Lemma comprehension_Ok {A B : Type} (f : A → res B) (g : A → B) (l : list A) :
  (∀ x, x ∈ l → f x = Ok (g x)) → comprehension f l = Ok (g <$> l).
Proof.
  induction l as [|x l IH]; intros Hf; simpl; [done|].
  rewrite Hf by left. simpl. rewrite IH; [done|].
  intros y Hy. apply Hf. by right.
Qed.

(** A loop over distinct keys on a state that represents a function of
    the keys, each round rewriting the value at its own key. *)
Lemma for_each_keyed {X W S : Type} `{EqDecision X} (repr : (X → W) → S)
    (xs : list X) (body : X → S → res S) (step : X → W → W) (l : list X) :
  (∀ f g, (∀ x, x ∈ xs → f x = g x) → repr f = repr g) →
  NoDup l →
  (∀ x f, x ∈ l →
     body x (repr f)
     = Ok (repr (fun x' => if decide (x' = x) then step x (f x) else f x'))) →
  ∀ f, for_each l body (repr f)
       = Ok (repr (fun x' => if decide (x' ∈ l) then step x' (f x')
                             else f x')).
Proof.
  intros Hext. induction l as [|x l IH]; intros Hnd Hb f; cbn [for_each].
  - reflexivity.
  - apply NoDup_cons in Hnd as [Hx Hnd].
    rewrite Hb by left. rewrite bind_Ok, IH; [|done|].
    + f_equal. apply Hext. intros x' _.
      destruct (decide (x' = x)) as [->|Hne].
      * rewrite decide_False by done. by rewrite decide_True by left.
      * destruct (decide (x' ∈ l)) as [Hin|Hnin].
        -- by rewrite decide_True by (by right).
        -- rewrite decide_False; [done|].
           intros [?|?]%elem_of_cons; done.
    + intros x' g Hx'. apply Hb. by right.
Qed.

(** ** Dicts *)

Section DictFacts.
Context {K V : Type} `{EqDecision K}.
Implicit Types (ks : list K) (f g : K → V) (d : dict K V).

Lemma keys_tabulate ks f : keys (tabulate ks f) = ks.
Proof.
  unfold keys, tabulate.
  induction ks as [|k ks IH]; simpl; [done | by f_equal].
Qed.

Lemma tabulate_ext ks f g :
  (∀ k, k ∈ ks → f k = g k) → tabulate ks f = tabulate ks g.
Proof.
  intros H. unfold tabulate. apply list_fmap_ext.
  intros i k Hk. rewrite (H k); [done|]. by eapply list_elem_of_lookup_2.
Qed.

Lemma tabulate_app ks1 ks2 f :
  tabulate (ks1 ++ ks2) f = tabulate ks1 f ++ tabulate ks2 f.
Proof. unfold tabulate. apply fmap_app. Qed.

Lemma dict_get_tabulate ks f k :
  dict_get k (tabulate ks f) = if decide (k ∈ ks) then Some (f k) else None.
Proof.
  induction ks as [|k' ks IH]; simpl.
  - destruct (decide (k ∈ [])) as [H|H]; [by apply elem_of_nil in H | done].
  - destruct (decide (k' = k)) as [->|Hne].
    + rewrite decide_True; [done | by left].
    + rewrite IH. destruct (decide (k ∈ ks)) as [Hin|Hnin].
      * rewrite decide_True; [done | by right].
      * rewrite decide_False; [done|].
        intros [?|?]%elem_of_cons; [congruence | done].
Qed.

Lemma dict_get_Some_tabulate ks f k :
  k ∈ ks → dict_get k (tabulate ks f) = Some (f k).
Proof. intros H. rewrite dict_get_tabulate. by rewrite decide_True. Qed.

Lemma dict_item_tabulate ks f k :
  k ∈ ks → dict_item (tabulate ks f) k = Ok (f k).
Proof. intros H. unfold dict_item. by rewrite dict_get_Some_tabulate. Qed.

Lemma dict_set_new ks f k v :
  k ∉ ks → dict_set k v (tabulate ks f) = tabulate ks f ++ [(k, v)].
Proof.
  induction ks as [|k' ks IH]; intros Hk; simpl; [done|].
  apply not_elem_of_cons in Hk as [Hne Hk].
  rewrite decide_False by congruence. by rewrite IH.
Qed.

Lemma dict_set_tabulate ks f k v :
  NoDup ks → k ∈ ks →
  dict_set k v (tabulate ks f)
  = tabulate ks (fun k' => if decide (k' = k) then v else f k').
Proof.
  induction ks as [|k' ks IH]; intros Hnd Hk; simpl.
  - by apply elem_of_nil in Hk.
  - apply NoDup_cons in Hnd as [Hk' Hnd].
    destruct (decide (k' = k)) as [->|Hne].
    + f_equal. apply tabulate_ext. intros k'' Hk''.
      rewrite decide_False; [done|]. intros ->. done.
    + f_equal. apply IH; [done|].
      apply elem_of_cons in Hk as [?|?]; [congruence | done].
Qed.

End DictFacts.

Section DictLoops.
Context {K V : Type} `{EqDecision K}.
Implicit Types (ks : list K) (f : K → V).

Lemma dict_get_is_Some k (d : dict K V) :
  k ∈ keys d → is_Some (dict_get k d).
Proof.
  induction d as [|[k' v] d IH]; simpl; intros Hk.
  - by apply elem_of_nil in Hk.
  - destruct (decide (k' = k)); [by eexists|].
    apply IH. apply elem_of_cons in Hk as [?|?]; [congruence | done].
Qed.

(** A loop whose every round adds its own, new, key. *)
Lemma for_each_fresh_keys (body : K → dict K V → res (dict K V)) f ks1 ks2 :
  NoDup (ks1 ++ ks2) →
  (∀ k ks, k ∈ ks2 → k ∉ ks →
     body k (tabulate ks f) = Ok (tabulate (ks ++ [k]) f)) →
  for_each ks2 body (tabulate ks1 f) = Ok (tabulate (ks1 ++ ks2) f).
Proof.
  revert ks1. induction ks2 as [|k ks2 IH]; intros ks1 Hnd Hb; simpl.
  - by rewrite app_nil_r.
  - assert (k ∉ ks1) as Hk.
    { apply NoDup_app in Hnd as (_ & Hd & _). intros Hin.
      apply (Hd k Hin). by left. }
    rewrite Hb; [|by left|done]. simpl.
    rewrite IH.
    + by rewrite <- app_assoc.
    + by rewrite <- app_assoc.
    + intros k' ks Hk' Hks. apply Hb; [by right | done].
Qed.

(** A loop whose every round rewrites the value of its own key. *)
Lemma for_each_pointwise (body : K → dict K V → res (dict K V))
    (step : K → V → V) ks l :
  NoDup l →
  (∀ k f, k ∈ l →
     body k (tabulate ks f)
     = Ok (tabulate ks (fun k' => if decide (k' = k) then step k (f k)
                                  else f k'))) →
  ∀ f, for_each l body (tabulate ks f)
       = Ok (tabulate ks (fun k' => if decide (k' ∈ l) then step k' (f k')
                                    else f k')).
Proof.
  intros Hnd Hb. apply (for_each_keyed (tabulate ks) ks); [|done|done].
  intros f g Hfg. by apply tabulate_ext.
Qed.
End DictLoops.

(** ** Slices and ranges *)

Lemma slice_nth_bin {A : Type} (l : list A) (bin_size k : nat) :
  slice l (Z.of_nat k * Z.of_nat bin_size)
          (Z.of_nat bin_size + Z.of_nat k * Z.of_nat bin_size)
  = take bin_size (drop (k * bin_size) l).
Proof.
  unfold slice, slice_bound.
  set (n := length l).
  assert (Z.of_nat k * Z.of_nat bin_size = Z.of_nat (k * bin_size)) as -> by lia.
  set (a := (k * bin_size)%nat).
  assert (Z.of_nat bin_size + Z.of_nat a = Z.of_nat (bin_size + a)) as -> by lia.
  rewrite !(proj2 (Z.ltb_ge _ 0)) by lia.
  destruct (decide (n ≤ a)%nat) as [Hle|Hgt].
  - rewrite !Z.min_r by lia. rewrite Z.sub_diag. simpl.
    rewrite take_0. rewrite (drop_ge l a) by done. by rewrite take_nil.
  - rewrite (Z.min_l (Z.of_nat a)) by lia. rewrite Nat2Z.id.
    destruct (decide (bin_size + a ≤ n)%nat) as [Hb|Hb].
    + rewrite Z.min_l by lia. f_equal. lia.
    + rewrite Z.min_r by lia.
      replace (Z.to_nat (Z.of_nat n - Z.of_nat a)) with (n - a)%nat by lia.
      rewrite !take_ge; [done| |]; rewrite length_drop; fold n; lia.
Qed.

Lemma range_item_weight (n k : Z) :
  0 ≤ k < n → range_item 1 (n + 1) (- (1 + k)) = Ok (n - k).
Proof.
  intros Hk. unfold range_item, range_len.
  rewrite (proj2 (Z.ltb_lt _ 0)) by lia.
  rewrite Z.max_r by lia.
  rewrite (proj2 (Z.leb_le 0 _)) by lia.
  rewrite (proj2 (Z.ltb_lt _ _)) by lia.
  simpl. f_equal. lia.
Qed.

Lemma Zsum_cons (x : Z) (l : list Z) : Zsum (x :: l) = x + Zsum l.
Proof. reflexivity. Qed.

Lemma Zsum_app (l1 l2 : list Z) : Zsum (l1 ++ l2) = Zsum l1 + Zsum l2.
Proof. induction l1 as [|x l1 IH]; simpl; [done | rewrite IH; lia]. Qed.

(** ** [_score_iter] computes the binned score *)

Section ScoreIter.
Variable ref_df : ref_frame.
Hypothesis ref_columns : NoDup (keys ref_df).

Lemma dict_item_ref ct :
  ct ∈ keys ref_df → dict_item ref_df ct = Ok (markers_of ref_df ct).
Proof.
  intros [v Hv]%dict_get_is_Some. unfold dict_item, markers_of.
  by rewrite Hv.
Qed.

Lemma score_bin_first (n k : Z) bin_df :
  0 ≤ k < n →
  score_bin ref_df n k bin_df []
  = Ok (tabulate (keys ref_df)
          (fun ct => (n - k) * overlap (markers_of ref_df ct) bin_df)).
Proof.
  intros Hk. unfold score_bin.
  change (@nil (string * Z)) with
    (tabulate [] (fun ct => (n - k) * overlap (markers_of ref_df ct) bin_df)).
  rewrite for_each_fresh_keys; [done|done|].
  intros ct ks Hct Hks. rewrite range_item_weight, bind_Ok by done.
  rewrite dict_item_ref, bind_Ok by done.
  rewrite dict_get_tabulate, decide_False by done.
  rewrite dict_set_new by done. by rewrite tabulate_app.
Qed.

Lemma score_bin_next (n k : Z) bin_df f :
  0 ≤ k < n →
  score_bin ref_df n k bin_df (tabulate (keys ref_df) f)
  = Ok (tabulate (keys ref_df)
          (fun ct => f ct + (n - k) * overlap (markers_of ref_df ct) bin_df)).
Proof.
  intros Hk. unfold score_bin.
  rewrite (for_each_pointwise _
             (fun ct s => s + (n - k) * overlap (markers_of ref_df ct) bin_df));
    [|done|].
  - f_equal. apply tabulate_ext. intros ct Hct. by rewrite decide_True.
  - intros ct g Hct. rewrite range_item_weight, bind_Ok by done.
    rewrite dict_item_ref, bind_Ok by done.
    rewrite dict_get_Some_tabulate by done.
    by rewrite dict_set_tabulate.
Qed.

(** The bins [a, a+1, ..., a+m-1] of a cluster, scored after the bins
    before [a]. *)
Lemma score_bins_from (rows : marker_frame) (n bin_size a m : nat) :
  (0 < a)%nat → (a + m ≤ n)%nat →
  for_each (Z.of_nat <$> seq a m) (fun k scores =>
    let bin_df := slice rows (k * Z.of_nat bin_size)
                    (Z.of_nat bin_size + k * Z.of_nat bin_size) in
    score_bin ref_df (Z.of_nat n) k bin_df scores)
    (tabulate (keys ref_df) (fun ct =>
       Zsum ((fun k => (Z.of_nat n - Z.of_nat k)
                       * overlap (markers_of ref_df ct)
                           (nth_bin rows bin_size k)) <$> seq 0 a)))
  = Ok (tabulate (keys ref_df) (fun ct =>
       Zsum ((fun k => (Z.of_nat n - Z.of_nat k)
                       * overlap (markers_of ref_df ct)
                           (nth_bin rows bin_size k)) <$> seq 0 (a + m)))).
Proof.
  revert a. induction m as [|m IH]; intros a Ha Hn; simpl.
  - by rewrite Nat.add_0_r.
  - rewrite slice_nth_bin, score_bin_next by lia. simpl.
    replace (a + S m)%nat with (S a + m)%nat by lia.
    rewrite <- IH by lia. f_equal. apply tabulate_ext. intros ct _.
    rewrite seq_S, fmap_app, Zsum_app. simpl. unfold nth_bin. lia.
Qed.

Lemma score_cluster_spec ranked_marker nb_marker bin_size clust :
  0 < bin_size → 0 ≤ nb_marker →
  let n := Z.to_nat (nb_marker `quot` bin_size) in
  score_cluster ranked_marker nb_marker ref_df bin_size
    (nb_marker `quot` bin_size) clust
  = Ok (tabulate (if decide (n = 0)%nat then [] else keys ref_df)
          (fun ct => binned_score (cluster_rows ranked_marker clust) n
                       (Z.to_nat bin_size) (markers_of ref_df ct))).
Proof.
  intros Hbs Hnb n. unfold score_cluster, int_div.
  rewrite (proj2 (Z.eqb_neq _ _)) by lia. simpl.
  assert (0 ≤ nb_marker `quot` bin_size) as Hq
    by (apply Z.quot_pos; lia).
  fold (cluster_rows ranked_marker clust). unfold range. fold n.
  replace (nb_marker `quot` bin_size) with (Z.of_nat n) by lia.
  set (bs := Z.to_nat bin_size).
  replace bin_size with (Z.of_nat bs) by lia.
  destruct n as [|n']; [done|].
  rewrite decide_False by done.
  change (seq 0 (S n')) with (0%nat :: seq 1 n').
  rewrite fmap_cons. cbn [for_each].
  rewrite (slice_nth_bin _ bs 0), score_bin_first, bind_Ok by lia.
  unfold binned_score.
  rewrite (tabulate_ext (keys ref_df) _ (fun ct =>
             Zsum ((fun k => (Z.of_nat (S n') - Z.of_nat k)
                             * overlap (markers_of ref_df ct)
                                 (nth_bin (cluster_rows ranked_marker clust)
                                    bs k)) <$> seq 0 1))).
  - apply (score_bins_from (cluster_rows ranked_marker clust)
             (S n') bs 1 n'); lia.
  - intros ct _. change (seq 0 1) with [0%nat].
    cbn [fmap list_fmap Zsum foldr]. unfold nth_bin.
    change (0 * bs)%nat with 0%nat. lia.
Qed.

Lemma score_iter_spec ranked_marker nb_marker bin_size :
  0 < bin_size → 0 ≤ nb_marker →
  let n := Z.to_nat (nb_marker `quot` bin_size) in
  _score_iter ranked_marker nb_marker ref_df bin_size
  = Ok (table (clusters ranked_marker)
          (if decide (n = 0)%nat then [] else keys ref_df)
          (fun clust ct =>
             binned_score (cluster_rows ranked_marker clust) n
               (Z.to_nat bin_size) (markers_of ref_df ct))).
Proof.
  intros Hbs Hnb n. unfold _score_iter, int_div.
  rewrite (proj2 (Z.eqb_neq _ _)) by lia. simpl.
  unfold table.
  change (@nil (Z * dict string Z)) with
    (tabulate (@nil Z) (fun c => tabulate
       (if decide (n = 0)%nat then [] else keys ref_df)
       (fun ct => binned_score (cluster_rows ranked_marker c) n
                    (Z.to_nat bin_size) (markers_of ref_df ct)))).
  rewrite for_each_fresh_keys; [done| |].
  - simpl. apply NoDup_remove_dups.
  - intros c ks Hc Hks. rewrite score_cluster_spec by done. simpl.
    rewrite dict_set_new by done. by rewrite tabulate_app.
Qed.
End ScoreIter.

(** ** Two-level dicts *)

Section Tables.
Context {V : Type}.
Implicit Types (cs : list Z) (cts : list string) (f g : Z → string → V).

Lemma table_ext cs cts f g :
  (∀ c ct, c ∈ cs → ct ∈ cts → f c ct = g c ct) →
  table cs cts f = table cs cts g.
Proof.
  intros H. unfold table. apply tabulate_ext. intros c Hc.
  apply tabulate_ext. intros ct Hct. by apply H.
Qed.

Lemma keys_table cs cts f : keys (table cs cts f) = cs.
Proof. apply keys_tabulate. Qed.

Lemma dict_item_table cs cts f c :
  c ∈ cs → dict_item (table cs cts f) c = Ok (tabulate cts (f c)).
Proof. intros Hc. unfold table. by rewrite dict_item_tabulate. Qed.

Lemma entry_table cs cts f c ct :
  c ∈ cs → ct ∈ cts → entry (table cs cts f) c ct = Some (f c ct).
Proof.
  intros Hc Hct. unfold entry, table.
  rewrite dict_get_Some_tabulate by done. simpl.
  by rewrite dict_get_Some_tabulate.
Qed.

Lemma entry_table_inv cs cts f c ct v :
  entry (table cs cts f) c ct = Some v → c ∈ cs ∧ ct ∈ cts ∧ v = f c ct.
Proof.
  unfold entry, table. rewrite dict_get_tabulate.
  destruct (decide (c ∈ cs)) as [Hc|Hc]; simpl; [|done].
  rewrite dict_get_tabulate.
  destruct (decide (ct ∈ cts)) as [Hct|Hct]; [|done].
  intros [= <-]. done.
Qed.

(** [d[c][ct] = v] on a two-level dict. *)
Lemma dict_set_table cs cts f c ct v :
  NoDup cs → NoDup cts → c ∈ cs → ct ∈ cts →
  dict_set c (dict_set ct v (tabulate cts (f c))) (table cs cts f)
  = table cs cts (fun c' ct' =>
      if decide (c' = c) then if decide (ct' = ct) then v else f c' ct'
      else f c' ct').
Proof.
  intros Hcs Hcts Hc Hct. unfold table.
  rewrite dict_set_tabulate by done. apply tabulate_ext. intros c' Hc'.
  destruct (decide (c' = c)) as [->|Hne]; [|done].
  by rewrite dict_set_tabulate.
Qed.
End Tables.

(** ** One comparison pass *)

Ltac run_dict :=
  repeat first
    [ rewrite bind_Ok
    | rewrite dict_item_table by done
    | rewrite dict_item_tabulate by done ].

Lemma count_better_spec cs cts (S Si C : Z → string → Z) :
  NoDup cs → NoDup cts →
  count_better (table cs cts S) (table cs cts Si) (table cs cts C)
  = Ok (table cs cts (fun c ct => C c ct + reaches (S c ct) (Si c ct))).
Proof.
  intros Hcs Hcts. unfold count_better. rewrite keys_table.
  rewrite (for_each_keyed (table cs cts) cs _
             (fun c row ct => if decide (ct ∈ cts)
                              then row ct + reaches (S c ct) (Si c ct)
                              else row ct)); [| |done|].
  - f_equal. apply table_ext. intros c ct Hc Hct.
    by rewrite !decide_True by done.
  - intros f g H. apply table_ext. intros c ct Hc _. by rewrite H.
  - intros c F Hc. rewrite dict_item_table by done.
    rewrite bind_Ok, keys_tabulate.
    set (repr := fun g : string → Z =>
           table cs cts (fun c' => if decide (c' = c) then g else F c')).
    assert (∀ g g', (∀ ct, ct ∈ cts → g ct = g' ct) → repr g = repr g')
      as Hext.
    { intros g g' H. apply table_ext. intros c' ct _ Hct.
      destruct (decide (c' = c)); [by apply H | done]. }
    assert (table cs cts F = repr (F c)) as ->.
    { apply table_ext. intros c' ct _ _.
      by destruct (decide (c' = c)) as [->|]. }
    rewrite (for_each_keyed repr cts _
               (fun ct v => v + reaches (S c ct) (Si c ct)));
      [|done|done|].
    + reflexivity.
    + intros ct g Hct. run_dict.
      unfold reaches. destruct (S c ct <=? Si c ct).
      * unfold repr. run_dict.
        rewrite (dict_set_table cs cts
                   (fun c' => if decide (c' = c) then g else F c') c ct)
          by done.
        f_equal. apply table_ext. intros c' ct' _ _.
        destruct (decide (c' = c)) as [->|]; [|done].
        destruct (decide (c = c)) as [_|?]; [|done].
        by destruct (decide (ct' = ct)) as [->|].
      * f_equal. apply Hext. intros ct' _.
        destruct (decide (ct' = ct)) as [->|]; [lia | done].
Qed.

(** ** [randomize_genes] *)

Lemma length_draw_genes gene_list n draw :
  length (draw_genes gene_list n draw) = n.
Proof. unfold draw_genes. by rewrite length_fmap, length_seq. Qed.

Lemma draw_genes_from_pool gene_list n draw g :
  gene_list ≠ [] → g ∈ draw_genes gene_list n draw → g ∈ gene_list.
Proof.
  intros Hne (j & -> & _)%list_elem_of_fmap.
  assert (length gene_list ≠ 0)%nat as Hlen by (by destruct gene_list).
  destruct (lookup_lt_is_Some_2 gene_list (draw j `mod` length gene_list)%nat)
    as [x Hx]; [by apply Nat.mod_upper_bound|].
  rewrite Hx. simpl. by eapply list_elem_of_lookup_2.
Qed.

Lemma randomize_genes_Ok marker_df gene_list draw :
  gene_list ≠ [] →
  randomize_genes marker_df gene_list draw
  = Ok (shuffle marker_df gene_list draw).
Proof.
  intros Hne. unfold randomize_genes, random_choice.
  rewrite decide_False by (intros [? _]; done). rewrite bind_Ok.
  unfold assign_gene_column.
  by rewrite decide_True by apply length_draw_genes.
Qed.

Section Columns.
Variables (df : marker_frame) (col : list string).
Hypothesis same_length : length col = length df.

Lemma length_set_column : length (zip_with set_gene df col) = length df.
Proof. rewrite length_zip_with. lia. Qed.

Lemma fmap_set_column {A : Type} (field : ranked_row → A) :
  (∀ r g, field (set_gene r g) = field r) →
  field <$> zip_with set_gene df col = field <$> df.
Proof.
  intros Hfield. revert col same_length.
  induction df as [|r df' IH]; intros [|g col'] Hlen; simpl in *;
    try done.
  rewrite Hfield. f_equal. apply IH. lia.
Qed.

End Columns.

Lemma clusters_shuffle marker_df gene_list draw :
  clusters (shuffle marker_df gene_list draw) = clusters marker_df.
Proof.
  unfold clusters, shuffle.
  by rewrite fmap_set_column by (apply length_draw_genes || done).
Qed.

(** ** The permutation test *)

Lemma score_iter_table ranked_marker nb_marker ref_df bin_size :
  NoDup (keys ref_df) → 0 < bin_size → 0 ≤ nb_marker →
  _score_iter ranked_marker nb_marker ref_df bin_size
  = Ok (table (clusters ranked_marker)
          (scored_types nb_marker bin_size ref_df)
          (observed_score ranked_marker nb_marker bin_size ref_df)).
Proof. intros. by apply score_iter_spec. Qed.

Lemma count_reaching_cons observed s permuted :
  count_reaching observed (s :: permuted)
  = reaches observed s + count_reaching observed permuted.
Proof.
  unfold count_reaching, reaches. rewrite filter_cons.
  destruct (Z.leb_spec observed s).
  - rewrite decide_True by done. simpl length. lia.
  - rewrite decide_False by lia. lia.
Qed.

Lemma count_reaching_bounds observed permuted :
  0 ≤ count_reaching observed permuted ≤ Z.of_nat (length permuted).
Proof.
  unfold count_reaching. split; [lia|].
  apply inj_le, length_filter.
Qed.

Lemma foldl_counts (S : Z → string → Z) (Sp : nat → Z → string → Z)
    (l : list nat) (C : Z → string → Z) c ct :
  foldl (fun C i => fun c ct => C c ct + reaches (S c ct) (Sp i c ct)) C l c ct
  = C c ct + count_reaching (S c ct) ((fun i => Sp i c ct) <$> l).
Proof.
  revert C. induction l as [|i l IH]; intros C.
  - change (count_reaching (S c ct) _) with 0. simpl. lia.
  - rewrite fmap_cons. cbn [foldl]. rewrite IH, count_reaching_cons. lia.
Qed.

Lemma count_dict_init {V : Type} cs cts (S : Z → string → V) :
  (fun '(clust, d) => (clust, (fun ct => (ct, 0)) <$> keys d))
    <$> table cs cts S
  = table cs cts (fun _ _ => 0).
Proof.
  unfold table, tabulate at 1 3. rewrite <- list_fmap_compose.
  apply list_fmap_ext. intros i c Hc. simpl. by rewrite keys_tabulate.
Qed.

Lemma stat_dict_spec cs cts (C : Z → string → Z) (K : Z) :
  K ≠ 0 →
  comprehension (fun '(clust, counts) =>
    stats ← comprehension (fun '(ct, count) =>
      p ← float_div count K; Ok (ct, p)) counts;
    Ok (clust, stats)) (table cs cts C)
  = Ok (table cs cts (fun c ct => (inject_Z (C c ct) / inject_Z K)%Q)).
Proof.
  intros HK. etrans.
  { apply (comprehension_Ok _ (fun '(clust, counts) =>
      (clust, (fun '(ct, count) =>
                 (ct, (inject_Z count / inject_Z K)%Q)) <$> counts))).
    intros [clust counts] _. etrans.
    { apply f_equal2; [reflexivity|].
      apply (comprehension_Ok _ (fun '(ct, count) =>
        (ct, (inject_Z count / inject_Z K)%Q))).
      intros [ct count] _. unfold float_div.
      by rewrite (proj2 (Z.eqb_neq _ _)). }
    done. }
  f_equal. unfold table, tabulate. rewrite <- list_fmap_compose.
  apply list_fmap_ext. intros i c _. simpl. f_equal.
  by rewrite <- list_fmap_compose.
Qed.

Section PermutationTest.
Variables (ranked_marker : marker_frame) (nb_marker : Z)
          (ref_marker : ref_frame) (bin_size : Z)
          (gene_list : list string) (K : Z) (draw : nat → nat → nat).
Hypothesis ref_columns : NoDup (keys ref_marker).
Hypothesis bin_size_pos : 0 < bin_size.
Hypothesis nb_marker_nonneg : 0 ≤ nb_marker.
Hypothesis pool_nonempty : gene_list ≠ [].
Hypothesis K_pos : 0 < K.

Lemma permuted_scores_table i :
  permuted_scores ranked_marker nb_marker ref_marker bin_size gene_list
    draw i
  = Ok (table (clusters ranked_marker)
          (scored_types nb_marker bin_size ref_marker)
          (permuted_score ranked_marker nb_marker bin_size ref_marker
             gene_list draw i)).
Proof.
  unfold permuted_scores. rewrite randomize_genes_Ok by done.
  rewrite bind_Ok, score_iter_table by done.
  by rewrite clusters_shuffle.
Qed.

Lemma permutation_test_table :
  permutation_test ranked_marker nb_marker ref_marker bin_size gene_list
    K draw
    (table (clusters ranked_marker)
       (scored_types nb_marker bin_size ref_marker)
       (observed_score ranked_marker nb_marker bin_size ref_marker))
  = Ok (table (clusters ranked_marker)
          (scored_types nb_marker bin_size ref_marker)
          (fun c ct =>
             empirical_pvalue
               (observed_score ranked_marker nb_marker bin_size ref_marker
                  c ct)
               ((fun i => permuted_score ranked_marker nb_marker bin_size
                            ref_marker gene_list draw i c ct)
                  <$> seq 0 (Z.to_nat K)) K)).
Proof.
  unfold permutation_test. rewrite count_dict_init.
  rewrite (for_each_sim
             (table (clusters ranked_marker)
                (scored_types nb_marker bin_size ref_marker))
             (fun i C => fun c ct =>
                C c ct
                + reaches
                    (observed_score ranked_marker nb_marker bin_size
                       ref_marker c ct)
                    (permuted_score ranked_marker nb_marker bin_size
                       ref_marker gene_list draw i c ct))).
  - rewrite bind_Ok, stat_dict_spec by lia. f_equal.
    apply table_ext. intros c ct _ _. unfold empirical_pvalue.
    by rewrite foldl_counts.
  - intros i C _. rewrite randomize_genes_Ok by done.
    rewrite bind_Ok, score_iter_table by done.
    rewrite bind_Ok, clusters_shuffle.
    apply count_better_spec; [apply NoDup_remove_dups|].
    unfold scored_types. destruct (decide _); [constructor | done].
Qed.
End PermutationTest.

(** ** The binned score (claims C3, C4) *)

Lemma num_bins_floor nb_marker bin_size :
  0 < bin_size → 0 ≤ nb_marker →
  num_bins nb_marker bin_size = Z.to_nat (nb_marker / bin_size).
Proof.
  intros Hbs Hnb. unfold num_bins. by rewrite Z.quot_div_nonneg by lia.
Qed.

Lemma scored_types_all nb_marker bin_size ref_df :
  0 < bin_size → bin_size ≤ nb_marker →
  scored_types nb_marker bin_size ref_df = keys ref_df.
Proof.
  intros Hbs Hnb. unfold scored_types.
  rewrite num_bins_floor by lia.
  assert (1 ≤ nb_marker / bin_size).
  { apply Z.div_le_lower_bound; lia. }
  rewrite decide_False; [done | lia].
Qed.

Lemma cluster_in_clusters (ranked_marker : marker_frame) clust :
  clust ∈ cluster_number <$> ranked_marker → clust ∈ clusters ranked_marker.
Proof. unfold clusters. by rewrite elem_of_remove_dups. Qed.

(** C3: for every cluster and cell type, the score [_score_iter] returns
    is the sum, over the floor(nb_marker / bin_size) contiguous bins of
    bin_size rank positions of the cluster's rows, of the bin's weight
    num_bins - k times the number of the cell type's markers among the
    bin's genes; a score is recorded for every cluster and cell type as
    soon as there is one full bin. *)
Theorem C3_score_is_weighted_bin_overlap
    (ranked_marker : marker_frame) (nb_marker : Z) (ref_df : ref_frame)
    (bin_size : Z) :
  NoDup (keys ref_df) → 0 < bin_size → 0 ≤ nb_marker →
  ∃ dict_scores,
    _score_iter ranked_marker nb_marker ref_df bin_size = Ok dict_scores
    ∧ (∀ clust ct score,
         entry dict_scores clust ct = Some score →
         score = binned_score (cluster_rows ranked_marker clust)
                   (Z.to_nat (nb_marker / bin_size)) (Z.to_nat bin_size)
                   (markers_of ref_df ct))
    ∧ (∀ clust ct,
         clust ∈ cluster_number <$> ranked_marker → ct ∈ keys ref_df →
         bin_size ≤ nb_marker →
         is_Some (entry dict_scores clust ct)).
Proof.
  intros Hnd Hbs Hnb. eexists. split; [by apply score_iter_table|]. split.
  - intros clust ct score (_ & _ & ->)%entry_table_inv.
    unfold observed_score. by rewrite num_bins_floor.
  - intros clust ct Hc Hct Hle.
    rewrite entry_table; [by eexists| |].
    + by apply cluster_in_clusters.
    + by rewrite scored_types_all.
Qed.

Lemma C3_score_is_weighted_bin_overlap_witness :
  let table100 := frame_of_genes 0 (gene_names 100) in
  let ref_df := [("early"%string, [Some "g0"; Some "g7"; Some "g19"]%string);
                 ("late"%string, [Some "g80"; Some "g85"; Some "g99"]%string)] in
  ∃ dict_scores,
    _score_iter table100 100 ref_df 20 = Ok dict_scores
    ∧ (∀ clust ct score,
         entry dict_scores clust ct = Some score →
         score = binned_score (cluster_rows table100 clust)
                   (Z.to_nat (100 / 20)) (Z.to_nat 20)
                   (markers_of ref_df ct))
    ∧ (∀ clust ct,
         clust ∈ cluster_number <$> table100 → ct ∈ keys ref_df →
         20 ≤ 100 →
         is_Some (entry dict_scores clust ct)).
Proof.
  intros table100 ref_df.
  apply (C3_score_is_weighted_bin_overlap table100 100 ref_df 20).
  - apply (bool_decide_unpack _). vm_compute. reflexivity.
  - lia.
  - lia.
Defined.

(** The end-to-end scenario: 100 ranked genes in bins of 20 (weights
    5, 4, 3, 2, 1); three markers all in bin 0 score 15, three markers
    all in bin 4 score 3. *)
Example score_iter_end_to_end :
  _score_iter (frame_of_genes 0 (gene_names 100)) 100
    [("early"%string, [Some "g0"; Some "g7"; Some "g19"]%string);
     ("late"%string, [Some "g80"; Some "g85"; Some "g99"]%string)] 20
  = Ok [(0, [("early"%string, 15); ("late"%string, 3)])].
Proof. vm_compute. reflexivity. Qed.

(** The scores read only the first [num_bins * bin_size] rows of each
    cluster. *)
Lemma take_bin_prefix {A : Type} (l : list A) (bin_size k m : nat) :
  (k * bin_size + bin_size ≤ m)%nat →
  take bin_size (drop (k * bin_size) (take m l))
  = take bin_size (drop (k * bin_size) l).
Proof.
  intros Hle. rewrite !take_drop_commute, take_take. f_equal. f_equal. lia.
Qed.

Lemma score_cluster_prefix t t' nb_marker ref_df bin_size clust :
  0 < bin_size → 0 ≤ nb_marker →
  take (num_bins nb_marker bin_size * Z.to_nat bin_size) (cluster_rows t clust)
  = take (num_bins nb_marker bin_size * Z.to_nat bin_size)
      (cluster_rows t' clust) →
  score_cluster t nb_marker ref_df bin_size (nb_marker `quot` bin_size) clust
  = score_cluster t' nb_marker ref_df bin_size (nb_marker `quot` bin_size)
      clust.
Proof.
  intros Hbs Hnb Htake. unfold score_cluster, int_div.
  rewrite (proj2 (Z.eqb_neq _ _)) by lia. rewrite !bind_Ok.
  fold (cluster_rows t clust) (cluster_rows t' clust).
  apply for_each_ext. intros k scores Hk.
  unfold range in Hk. apply list_elem_of_fmap in Hk as (k' & -> & Hk').
  apply elem_of_seq in Hk'. fold (num_bins nb_marker bin_size) in Hk'.
  set (bs := Z.to_nat bin_size) in *.
  assert (bin_size = Z.of_nat bs) as Hb by lia. clearbody bs. subst bin_size.
  rewrite !slice_nth_bin.
  rewrite <- (take_bin_prefix (cluster_rows t clust) _ _
                (num_bins nb_marker (Z.of_nat bs) * bs)) by nia.
  rewrite <- (take_bin_prefix (cluster_rows t' clust) _ _
                (num_bins nb_marker (Z.of_nat bs) * bs)) by nia.
  by rewrite Htake.
Qed.

Lemma score_iter_prefix t t' nb_marker ref_df bin_size :
  0 < bin_size → 0 ≤ nb_marker →
  cluster_number <$> t = cluster_number <$> t' →
  (∀ clust,
     take (num_bins nb_marker bin_size * Z.to_nat bin_size)
       (cluster_rows t clust)
     = take (num_bins nb_marker bin_size * Z.to_nat bin_size)
         (cluster_rows t' clust)) →
  _score_iter t nb_marker ref_df bin_size
  = _score_iter t' nb_marker ref_df bin_size.
Proof.
  intros Hbs Hnb Hcl Htake. unfold _score_iter, clusters, int_div.
  rewrite Hcl. rewrite (proj2 (Z.eqb_neq _ _)) by lia. rewrite !bind_Ok.
  apply for_each_ext. intros clust d _.
  by rewrite (score_cluster_prefix t t').
Qed.

Lemma cluster_rows_insert (t : marker_frame) (p : nat) r r' clust :
  t !! p = Some r → cluster_number r' = cluster_number r →
  cluster_rows (<[p := r']> t) clust
  = if decide (cluster_number r = clust)
    then cluster_rows (take p t) clust ++ r' :: cluster_rows (drop (S p) t) clust
    else cluster_rows t clust.
Proof.
  intros Hp Hc. unfold cluster_rows.
  rewrite insert_take_drop by (by eapply lookup_lt_Some).
  rewrite filter_app, filter_cons, Hc.
  destruct (decide (cluster_number r = clust)) as [Heq|Hne]; [done|].
  rewrite <- (take_drop_middle t p r) at 3 by done.
  rewrite filter_app, filter_cons. by rewrite decide_False.
Qed.

Lemma cluster_rows_middle (t : marker_frame) (p : nat) r :
  t !! p = Some r →
  cluster_rows t (cluster_number r)
  = cluster_rows (take p t) (cluster_number r)
      ++ r :: cluster_rows (drop (S p) t) (cluster_number r).
Proof.
  intros Hp. unfold cluster_rows.
  rewrite <- (take_drop_middle t p r) at 1 by done.
  rewrite filter_app, filter_cons. by rewrite decide_True.
Qed.

Lemma cluster_column_insert (t : marker_frame) (p : nat) r g :
  t !! p = Some r →
  cluster_number <$> <[p := set_gene r g]> t = cluster_number <$> t.
Proof.
  intros Hp. rewrite list_fmap_insert. apply list_insert_id.
  by rewrite list_lookup_fmap, Hp.
Qed.

(** C4: the rank positions past the last full bin are excluded from
    scoring: whatever gene, marker or not, stands at a position at or
    beyond floor(nb_marker / bin_size) * bin_size of its cluster, every
    score of every cluster and cell type is as without it. *)
Theorem C4_remainder_positions_excluded
    (t : marker_frame) (nb_marker : Z) (ref_df : ref_frame) (bin_size : Z)
    (p : nat) (r : ranked_row) (g : string) :
  0 < bin_size → 0 ≤ nb_marker →
  t !! p = Some r →
  (Z.to_nat (nb_marker / bin_size) * Z.to_nat bin_size
   ≤ position_in_cluster t p (cluster_number r))%nat →
  _score_iter (<[p := set_gene r g]> t) nb_marker ref_df bin_size
  = _score_iter t nb_marker ref_df bin_size.
Proof.
  intros Hbs Hnb Hp Hpos. rewrite <- num_bins_floor in Hpos by done.
  apply score_iter_prefix; [done|done|by apply cluster_column_insert|].
  intros clust. rewrite (cluster_rows_insert t p r) by done.
  destruct (decide (cluster_number r = clust)) as [<-|Hne]; [|done].
  rewrite (cluster_rows_middle t p r) by done.
  unfold position_in_cluster in Hpos. by rewrite !take_app_le.
Qed.

(** The remainder scenario: 105 ranked genes in bins of 20 give five
    bins over the ranks 0-99; a marker put at rank 102 changes no
    score, and a cell type whose only marker is there scores 0. *)
Lemma C4_remainder_positions_excluded_witness :
  let table105 := frame_of_genes 0 (gene_names 105) in
  let ref_df := [("T"%string, [Some "MARKER"; Some "g3"]%string)] in
  _score_iter (<[102%nat := set_gene (RankedRow 102 0 1 "g102" 0) "MARKER"]>
                 table105) 105 ref_df 20
  = _score_iter table105 105 ref_df 20.
Proof.
  intros table105 ref_df.
  apply (C4_remainder_positions_excluded table105 105 ref_df 20 102).
  - lia.
  - lia.
  - vm_compute. reflexivity.
  - vm_compute. lia.
Defined.

Example score_iter_remainder :
  _score_iter (frame_of_genes 0 (<[102%nat := "MARKER"%string]> (gene_names 105)))
    105 [("T"%string, [Some "MARKER"%string])] 20
  = Ok [(0, [("T"%string, 0)])]
  ∧ _score_iter (frame_of_genes 0 (<[99%nat := "MARKER"%string]> (gene_names 105)))
      105 [("T"%string, [Some "MARKER"%string])] 20
    = Ok [(0, [("T"%string, 1)])].
Proof. split; vm_compute; reflexivity. Qed.

(** ** Weight monotonicity (claim C7) *)

Lemma matched_set_gene markers r r' :
  matched markers (set_gene r (gene r')) = matched markers r'.
Proof. reflexivity. Qed.

Lemma matched_range markers r : 0 ≤ matched markers r ≤ 1.
Proof. unfold matched. destruct (decide _); lia. Qed.

Lemma size_intersection_add (A B : gset (option string)) (x : option string) :
  x ∉ B →
  size (A ∩ ({[x]} ∪ B))
  = ((if decide (x ∈ A) then 1 else 0) + size (A ∩ B))%nat.
Proof.
  intros Hx. destruct (decide (x ∈ A)) as [Hin|Hnin].
  - assert (A ∩ ({[x]} ∪ B) = {[x]} ∪ A ∩ B) as ->.
    { apply set_eq. intros y.
      rewrite !elem_of_union, !elem_of_intersection, elem_of_union,
        elem_of_singleton.
      split; [intros [? [->|?]]; auto | intros [->|[? ?]]; auto]. }
    rewrite size_union, size_singleton; [done|].
    intros y ->%elem_of_singleton [_ ?]%elem_of_intersection. done.
  - assert (A ∩ ({[x]} ∪ B) = A ∩ B) as ->; [|done].
    apply set_eq. intros y.
    rewrite !elem_of_intersection, elem_of_union, elem_of_singleton.
    split; [intros [? [->|?]]; done | intros [? ?]; auto].
Qed.

(** On distinct genes the overlap of a bin counts its matched rows. *)
Lemma overlap_distinct markers (bin_df : marker_frame) :
  NoDup (gene <$> bin_df) →
  overlap markers bin_df = Zsum (matched markers <$> bin_df).
Proof.
  unfold overlap. induction bin_df as [|r bin_df IH]; intros Hnd.
  - simpl. rewrite intersection_empty_r_L, size_empty. done.
  - rewrite !fmap_cons in *. apply NoDup_cons in Hnd as [Hr Hnd].
    rewrite list_to_set_cons, Zsum_cons, <- IH by done.
    rewrite size_intersection_add.
    + unfold matched.
      destruct (decide (Some (gene r) ∈ markers)) as [Hin|Hnin].
      * rewrite decide_True by (by apply elem_of_list_to_set). lia.
      * rewrite decide_False by (by rewrite elem_of_list_to_set). lia.
    + rewrite elem_of_list_to_set.
      intros (g & [= <-] & Hg)%list_elem_of_fmap. done.
Qed.

Lemma NoDup_take_drop {A : Type} (l : list A) (a b : nat) :
  NoDup l → NoDup (take b (drop a l)).
Proof.
  intros Hnd. eapply sublist_NoDup; [exact Hnd|].
  etrans; [apply sublist_take | apply sublist_drop].
Qed.

Lemma Zsum_fmap_ext {A : Type} (f g : A → Z) (l : list A) :
  (∀ x, x ∈ l → f x = g x) → Zsum (f <$> l) = Zsum (g <$> l).
Proof.
  intros H. f_equal. apply list_fmap_ext. intros i x Hx.
  apply H. by eapply list_elem_of_lookup_2.
Qed.

Lemma Zsum_fmap_le {A : Type} (f g : A → Z) (l : list A) :
  (∀ x, x ∈ l → f x ≤ g x) → Zsum (f <$> l) ≤ Zsum (g <$> l).
Proof.
  induction l as [|x l IH]; intros H; [done|].
  assert (f x ≤ g x) by (apply H; by left).
  assert (Zsum (f <$> l) ≤ Zsum (g <$> l)).
  { apply IH. intros y Hy. apply H. by right. }
  rewrite !fmap_cons, !Zsum_cons. lia.
Qed.

Lemma Zsum_fmap_add {A : Type} (f g : A → Z) (l : list A) :
  Zsum ((fun x => f x + g x) <$> l) = Zsum (f <$> l) + Zsum (g <$> l).
Proof.
  induction l as [|x l IH]; [done|].
  rewrite !fmap_cons, !Zsum_cons. lia.
Qed.

Lemma Zsum_nonneg (l : list Z) : (∀ x, x ∈ l → 0 ≤ x) → 0 ≤ Zsum l.
Proof.
  induction l as [|x l IH]; intros H; [done|].
  assert (0 ≤ x) by (apply H; by left).
  assert (0 ≤ Zsum l) by (apply IH; intros y Hy; apply H; by right).
  rewrite Zsum_cons. lia.
Qed.

Lemma blocks_sum (L : list Z) (bin_size q : nat) :
  Zsum ((fun k => Zsum (take bin_size (drop (k * bin_size) L))) <$> seq 0 q)
  = Zsum (take (q * bin_size) L).
Proof.
  induction q as [|q IH].
  - done.
  - rewrite seq_S, fmap_app, Zsum_app, IH. simpl.
    replace (bin_size + q * bin_size)%nat with (q * bin_size + bin_size)%nat
      by lia.
    rewrite <- take_take_drop, Zsum_app. lia.
Qed.

Lemma weighted_sum_step (B : nat → Z) (n : nat) :
  Zsum ((fun k => (Z.of_nat (S n) - Z.of_nat k) * B k) <$> seq 0 (S n))
  = Zsum ((fun k => (Z.of_nat n - Z.of_nat k) * B k) <$> seq 0 n)
    + Zsum (B <$> seq 0 (S n)).
Proof.
  rewrite !seq_S, !fmap_app, !Zsum_app, !fmap_cons, !fmap_nil, !Zsum_cons.
  change (Zsum []) with 0. change (0 + n)%nat with n.
  rewrite (Zsum_fmap_ext _ (fun k => (Z.of_nat n - Z.of_nat k) * B k + B k))
    by (intros k _; lia).
  rewrite Zsum_fmap_add. lia.
Qed.

Lemma weighted_prefix_sums (L : list Z) (n bin_size : nat) :
  weighted L n bin_size
  = Zsum ((fun m => Zsum (take (S m * bin_size) L)) <$> seq 0 n).
Proof.
  unfold weighted. induction n as [|n IH]; [done|].
  rewrite (weighted_sum_step
             (fun k => Zsum (take bin_size (drop (k * bin_size) L)))).
  rewrite IH, blocks_sum.
  rewrite (seq_S n 0), fmap_app, Zsum_app, fmap_cons, fmap_nil, Zsum_cons.
  change (Zsum []) with 0. change (0 + n)%nat with n. lia.
Qed.

Lemma binned_score_weighted rows n bin_size markers :
  NoDup (gene <$> rows) →
  binned_score rows n bin_size markers
  = weighted (matched markers <$> rows) n bin_size.
Proof.
  intros Hnd. unfold binned_score, weighted. apply Zsum_fmap_ext.
  intros k _. unfold nth_bin. rewrite overlap_distinct.
  - by rewrite fmap_take, fmap_drop.
  - rewrite fmap_take, fmap_drop. by apply NoDup_take_drop.
Qed.

Lemma Zsum_insert (l : list Z) (i : nat) (x v : Z) :
  l !! i = Some v → Zsum (<[i := x]> l) = Zsum l + x - v.
Proof.
  revert i. induction l as [|y l IH]; intros [|i] Hi; simpl in *; try done.
  - injection Hi as ->. lia.
  - rewrite (IH i) by done. lia.
Qed.

Lemma Zsum_take_insert (l : list Z) (q i : nat) (x v : Z) :
  l !! i = Some v →
  Zsum (take q (<[i := x]> l))
  = Zsum (take q l) + (if decide (i < q)%nat then x - v else 0).
Proof.
  intros Hi. destruct (decide (i < q)%nat) as [Hlt|Hge].
  - rewrite take_insert_lt by done.
    rewrite (Zsum_insert _ _ _ v); [lia|].
    by rewrite lookup_take_lt.
  - rewrite take_insert_ge by lia. lia.
Qed.

(** Exchanging two entries, the larger one coming forward, never
    lowers a prefix sum. *)
Lemma prefix_sum_exchange (L : list Z) (i j q : nat) (vi vj : Z) :
  L !! i = Some vi → L !! j = Some vj → (i < j)%nat → vi ≤ vj →
  Zsum (take q L) ≤ Zsum (take q (<[i := vj]> (<[j := vi]> L))).
Proof.
  intros Hi Hj Hij Hle.
  rewrite (Zsum_take_insert _ q i vj vi)
    by (rewrite list_lookup_insert_ne by lia; done).
  rewrite (Zsum_take_insert _ q j vi vj) by done.
  repeat case_decide; lia.
Qed.

Lemma weighted_exchange (L : list Z) (n bin_size i j : nat) (vi vj : Z) :
  L !! i = Some vi → L !! j = Some vj → (i < j)%nat → vi ≤ vj →
  weighted L n bin_size
  ≤ weighted (<[i := vj]> (<[j := vi]> L)) n bin_size.
Proof.
  intros Hi Hj Hij Hle. rewrite !weighted_prefix_sums.
  apply Zsum_fmap_le. intros m _. by apply prefix_sum_exchange.
Qed.

Lemma lookup_exchange {A : Type} (l : list A) (i j a : nat) (x y z : A) :
  l !! i = Some x → l !! j = Some y →
  <[i := y]> (<[j := x]> l) !! a = Some z →
  l !! (if decide (a = i) then j else if decide (a = j) then i else a)
  = Some z.
Proof.
  intros Hi Hj Ha.
  apply list_lookup_insert_Some in Ha as [(<- & <- & _)|[Hai Ha]].
  - by rewrite decide_True.
  - rewrite decide_False by done.
    apply list_lookup_insert_Some in Ha as [(<- & <- & _)|[Haj Ha]].
    + by rewrite decide_True.
    + by rewrite decide_False.
Qed.

Lemma NoDup_exchange {A : Type} (l : list A) (i j : nat) (x y : A) :
  NoDup l → l !! i = Some x → l !! j = Some y →
  NoDup (<[i := y]> (<[j := x]> l)).
Proof.
  intros Hnd Hi Hj. apply NoDup_alt. intros a b z Ha Hb.
  apply (lookup_exchange l i j a x y z Hi Hj) in Ha.
  apply (lookup_exchange l i j b x y z Hi Hj) in Hb.
  pose proof (proj1 (NoDup_alt l) Hnd _ _ _ Ha Hb) as Heq.
  repeat case_decide; congruence.
Qed.

Lemma dict_get_Some_keys {K V : Type} `{EqDecision K} (k : K) (d : dict K V) v :
  dict_get k d = Some v → k ∈ keys d.
Proof.
  induction d as [|[k' v'] d IH]; simpl; [done|].
  destruct (decide (k' = k)) as [->|Hne]; intros H.
  - by left.
  - right. by apply IH.
Qed.

Lemma marker_cell_type ref_df ct (m : option string) :
  m ∈ markers_of ref_df ct → ct ∈ keys ref_df.
Proof.
  unfold markers_of. destruct (dict_get ct ref_df) as [col|] eqn:Hget.
  - intros _. by eapply dict_get_Some_keys.
  - simpl. by intros ?%elem_of_nil.
Qed.

Lemma cluster_rows_cluster (t : marker_frame) clust (i : nat) r :
  cluster_rows t clust !! i = Some r → clust ∈ cluster_number <$> t.
Proof.
  intros Hr%list_elem_of_lookup_2. unfold cluster_rows in Hr.
  apply list_elem_of_filter in Hr as [<- Hr].
  apply list_elem_of_fmap. eauto.
Qed.

Lemma binned_score_exchange rows rows' n bin_size markers i j rj :
  NoDup (gene <$> rows) →
  genes_exchanged rows rows' i j → (i < j)%nat →
  rows !! j = Some rj → Some (gene rj) ∈ markers →
  binned_score rows n bin_size markers
  ≤ binned_score rows' n bin_size markers.
Proof.
  intros Hnd (ri & rj' & Hi & Hj & ->) Hij Hj' Hm.
  assert (rj' = rj) as -> by congruence.
  rewrite !binned_score_weighted; [| |done].
  - rewrite !list_fmap_insert, !matched_set_gene.
    apply weighted_exchange; [by rewrite list_lookup_fmap, Hi
                             |by rewrite list_lookup_fmap, Hj|done|].
    pose proof (matched_range markers ri).
    unfold matched at 2. rewrite decide_True by done. lia.
  - rewrite !list_fmap_insert. simpl.
    apply NoDup_exchange; [done| |]; by rewrite list_lookup_fmap, ?Hi, ?Hj.
Qed.

(** C7, as the code has it: on a table whose genes are distinct within
    the cluster, exchanging a matched marker gene with the gene at an
    earlier position (so moving the marker to an earlier or the same
    bin, and holding every other row and field fixed) never decreases
    the cell type's score for the cluster. *)
Theorem C7_moving_marker_up_distinct_genes
    (t t' : marker_frame) (nb_marker : Z) (ref_df : ref_frame) (bin_size : Z)
    (clust : Z) (ct : string) (i j : nat) (rj : ranked_row) :
  NoDup (keys ref_df) → 0 < bin_size → 0 ≤ nb_marker →
  NoDup (gene <$> cluster_rows t clust) →
  cluster_number <$> t' = cluster_number <$> t →
  genes_exchanged (cluster_rows t clust) (cluster_rows t' clust) i j →
  (i < j)%nat →
  (j < Z.to_nat (nb_marker / bin_size) * Z.to_nat bin_size)%nat →
  cluster_rows t clust !! j = Some rj →
  Some (gene rj) ∈ markers_of ref_df ct →
  ∃ dict_scores dict_scores' score score',
    _score_iter t nb_marker ref_df bin_size = Ok dict_scores
    ∧ _score_iter t' nb_marker ref_df bin_size = Ok dict_scores'
    ∧ entry dict_scores clust ct = Some score
    ∧ entry dict_scores' clust ct = Some score'
    ∧ score ≤ score'.
Proof.
  intros Hcols Hbs Hnb Hnd Hcl Hex Hij Hj Hrj Hm.
  rewrite <- num_bins_floor in Hj by done.
  assert (clust ∈ clusters t) as Hc.
  { apply cluster_in_clusters. by eapply cluster_rows_cluster. }
  assert (ct ∈ scored_types nb_marker bin_size ref_df) as Hct.
  { unfold scored_types. rewrite decide_False by lia.
    by eapply marker_cell_type. }
  do 4 eexists. split; [by apply score_iter_table|].
  split; [by apply score_iter_table|].
  split; [by apply entry_table|].
  split.
  - apply entry_table; [|done]. unfold clusters. by rewrite Hcl.
  - unfold observed_score. by eapply binned_score_exchange.
Qed.

Lemma C7_moving_marker_up_distinct_genes_witness :
  let t := frame_of_genes 0 ["B"; "X"; "A"; "Y"]%string in
  let t' := frame_of_genes 0 ["B"; "A"; "X"; "Y"]%string in
  let ref_df := [("T"%string, [Some "A"; Some "B"]%string)] in
  ∃ dict_scores dict_scores' score score',
    _score_iter t 4 ref_df 2 = Ok dict_scores
    ∧ _score_iter t' 4 ref_df 2 = Ok dict_scores'
    ∧ entry dict_scores 0 "T"%string = Some score
    ∧ entry dict_scores' 0 "T"%string = Some score'
    ∧ score ≤ score'.
Proof.
  intros t t' ref_df.
  apply (C7_moving_marker_up_distinct_genes t t' 4 ref_df 2 0 "T"%string
           1 2 (RankedRow 2 0 1 "A" 0)).
  - apply (bool_decide_unpack _). vm_compute. reflexivity.
  - lia.
  - lia.
  - apply (bool_decide_unpack _). vm_compute. reflexivity.
  - reflexivity.
  - exists (RankedRow 1 0 1 "X" 0), (RankedRow 2 0 1 "A" 0).
    repeat split; reflexivity.
  - lia.
  - vm_compute. lia.
  - reflexivity.
  - apply (bool_decide_unpack _). vm_compute. reflexivity.
Defined.

(** C7 as stated fails on a table that repeats a gene: with bins of 2
    over the ranks 0-3 and the marker "A" at the ranks 0 and 2,
    moving the "A" of rank 2 (bin 1) to rank 1 (bin 0) in exchange for
    the non-marker "X" lowers the score from 3 to 2, because bin 0 held
    "A" already. *)
Lemma C7_repeated_gene_counterexample :
  let t := frame_of_genes 0 ["A"; "X"; "A"; "Y"]%string in
  let t' := frame_of_genes 0 ["A"; "A"; "X"; "Y"]%string in
  let ref_df := [("T"%string, [Some "A"%string])] in
  cluster_number <$> t' = cluster_number <$> t
  ∧ genes_exchanged (cluster_rows t 0) (cluster_rows t' 0) 1 2
  ∧ gene <$> cluster_rows t 0 !! 2%nat = Some "A"%string
  ∧ Some "A"%string ∈ markers_of ref_df "T"%string
  ∧ _score_iter t 4 ref_df 2 = Ok [(0, [("T"%string, 3)])]
  ∧ _score_iter t' 4 ref_df 2 = Ok [(0, [("T"%string, 2)])]
  ∧ ¬ (∃ dict_scores dict_scores' score score',
         _score_iter t 4 ref_df 2 = Ok dict_scores
         ∧ _score_iter t' 4 ref_df 2 = Ok dict_scores'
         ∧ entry dict_scores 0 "T"%string = Some score
         ∧ entry dict_scores' 0 "T"%string = Some score'
         ∧ score ≤ score').
Proof.
  intros t t' ref_df.
  assert (_score_iter t 4 ref_df 2 = Ok [(0, [("T"%string, 3)])]) as Ht
    by (vm_compute; reflexivity).
  assert (_score_iter t' 4 ref_df 2 = Ok [(0, [("T"%string, 2)])]) as Ht'
    by (vm_compute; reflexivity).
  repeat split; try done.
  - exists (RankedRow 1 0 1 "X" 0), (RankedRow 2 0 1 "A" 0).
    repeat split; reflexivity.
  - apply (bool_decide_unpack _). vm_compute. reflexivity.
  - intros (d & d' & s & s' & Hd & Hd' & Hs & Hs' & Hle).
    rewrite Ht in Hd. rewrite Ht' in Hd'.
    injection Hd as <-. injection Hd' as <-.
    vm_compute in Hs. vm_compute in Hs'.
    injection Hs as <-. injection Hs' as <-. lia.
Qed.

(** ** The permutation step leaves all but the genes (claim C8) *)

Lemma set_gene_same_but_gene r g : same_but_gene r (set_gene r g).
Proof. done. Qed.

(** C8: the permutation step returns a new table in which only the
    gene field differs from the input: every record keeps its cluster,
    rank position, z-score and adjusted p-value, and takes a gene of the
    pool; the input table, and every other object of the store, is as
    before (the column is assigned on a copy). *)
Theorem C8_randomize_genes_frame
    (h : Store.store) (marker_df : Store.ref) (gene_list : list string)
    (draw : nat → nat) (df : marker_frame) :
  h !! marker_df = Some df → gene_list ≠ [] →
  ∃ copy_df h' df',
    Store.randomize_genes marker_df gene_list draw h = Ok (copy_df, h')
    ∧ randomize_genes df gene_list draw = Ok df'
    ∧ h' !! copy_df = Some df'
    ∧ (copy_df ∉ dom h)
    ∧ h' !! marker_df = Some df
    ∧ (∀ l, l ≠ copy_df → h' !! l = h !! l)
    ∧ length df' = length df
    ∧ (∀ i r', df' !! i = Some r' →
         ∃ r, df !! i = Some r ∧ same_but_gene r r' ∧ gene r' ∈ gene_list).
Proof.
  intros Hdf Hpool.
  set (copy_df := fresh (dom h)).
  assert (copy_df ∉ dom h) as Hfresh by apply is_fresh.
  assert (copy_df ≠ marker_df) as Hne.
  { intros ->. apply Hfresh. apply elem_of_dom. by eexists. }
  exists copy_df, (<[copy_df := shuffle df gene_list draw]> (<[copy_df := df]> h)),
    (shuffle df gene_list draw).
  split; [|split; [|split; [|split; [|split; [|split; [|split]]]]]].
  - unfold Store.randomize_genes, Store.copy, Store.deref.
    rewrite Hdf, !bind_Ok. fold copy_df.
    rewrite lookup_insert_eq, !bind_Ok.
    unfold random_choice. rewrite decide_False by (intros [? _]; done).
    rewrite bind_Ok. unfold Store.set_gene_column, Store.deref.
    rewrite lookup_insert_eq, bind_Ok. unfold assign_gene_column.
    by rewrite decide_True by apply length_draw_genes.
  - by apply randomize_genes_Ok.
  - by rewrite lookup_insert_eq.
  - done.
  - by rewrite !lookup_insert_ne.
  - intros l Hl. by rewrite !lookup_insert_ne.
  - unfold shuffle. apply length_set_column, length_draw_genes.
  - intros i r' Hr'. unfold shuffle in Hr'.
    apply lookup_zip_with_Some in Hr' as (r & g & -> & Hr & Hg).
    exists r. split; [done|]. split; [apply set_gene_same_but_gene|].
    simpl. eapply draw_genes_from_pool; [done|].
    by eapply list_elem_of_lookup_2.
Qed.

Lemma C8_randomize_genes_frame_witness :
  let df := frame_of_genes 0 ["A"; "B"; "C"]%string in
  let h : Store.store := {[ 0%nat := df ]} in
  let gene_list := ["P"; "Q"]%string in
  ∃ copy_df h' df',
    Store.randomize_genes 0%nat gene_list (fun j => j) h = Ok (copy_df, h')
    ∧ randomize_genes df gene_list (fun j => j) = Ok df'
    ∧ h' !! copy_df = Some df'
    ∧ (copy_df ∉ dom h)
    ∧ h' !! 0%nat = Some df
    ∧ (∀ l, l ≠ copy_df → h' !! l = h !! l)
    ∧ length df' = length df
    ∧ (∀ i r', df' !! i = Some r' →
         ∃ r, df !! i = Some r ∧ same_but_gene r r' ∧ gene r' ∈ gene_list).
Proof.
  intros df h gene_list.
  apply (C8_randomize_genes_frame h 0%nat gene_list (fun j => j) df).
  - reflexivity.
  - discriminate.
Defined.

Example randomize_genes_run :
  randomize_genes (frame_of_genes 7 ["A"; "B"; "C"]%string) ["P"; "Q"]%string
    (fun j => j)
  = Ok (frame_of_genes 7 ["P"; "Q"; "P"]%string).
Proof. vm_compute. reflexivity. Qed.

(** ** The prerequisite check (claim C9) *)

(** C9, as the code has it: when the dataset has no clustering column
    (neither [louvain] nor [leiden] in [obs]) or no gene ranking
    ([rank_genes_groups] in [uns]), [score_clusters] does not fail: it
    returns, at its first statement, the missing-prerequisite message
    as its value, with the dataset as it was, whatever the reference,
    the gene list, the bin size, the number of permutations and the
    random draws; no exception is raised, and nothing is wrangled,
    scored or permuted. *)
Theorem C9_missing_prerequisite
    (user_ref : option ref_frame) (parse_ref : res ref_frame)
    (get_genelist : res (list string)) (anndata : AnnData)
    (bin_size random_sampling : Z) (draw : nat → nat → nat) :
  (dict_get "louvain"%string (obs anndata) = None
   ∧ dict_get "leiden"%string (obs anndata) = None)
  ∨ uns_rank_genes_groups anndata = None →
  score_clusters user_ref parse_ref get_genelist anndata bin_size
    random_sampling draw
  = Ok (error_message, anndata)
  ∧ ∀ e, score_clusters user_ref parse_ref get_genelist anndata bin_size
           random_sampling draw
         ≠ Raise e.
Proof.
  intros H.
  assert (score_clusters user_ref parse_ref get_genelist anndata bin_size
            random_sampling draw
          = Ok (error_message, anndata)) as Hret.
  { unfold score_clusters.
    assert (prerequisites_missing anndata = true) as ->; [|done].
    unfold prerequisites_missing, dict_mem.
    destruct H as [[Hl Hd]|Hr].
    - rewrite Hl, Hd.
      rewrite !bool_decide_eq_false_2 by (by intros [? ?]). done.
    - rewrite Hr.
      rewrite (bool_decide_eq_false_2 (is_Some None)) by (by intros [? ?]).
      simpl. by rewrite orb_true_r. }
  split; [done|]. intros e. by rewrite Hret.
Qed.

Lemma C9_missing_prerequisite_witness :
  let anndata := mkAnnData 2 [("n_genes"%string, ["10"; "20"]%string)]
                   (Some (RankGenesGroups [["A"%string]] [[1%Q]] [[0%Q]]
                            "louvain")) None in
  score_clusters None (Raise KeyError) (Raise ValueError) anndata 0 1000
    (fun _ j => j)
  = Ok (error_message, anndata)
  ∧ ∀ e, score_clusters None (Raise KeyError) (Raise ValueError) anndata 0
           1000 (fun _ j => j)
         ≠ Raise e.
Proof.
  intros anndata. apply C9_missing_prerequisite.
  left. split; reflexivity.
Defined.

(** C9 as stated fails: on a dataset with a gene ranking and no
    clustering column, [score_clusters] raises nothing; the call
    returns, and what it returns is the message. *)
Lemma C9_missing_prerequisite_counterexample :
  let anndata := mkAnnData 2 [("n_genes"%string, ["10"; "20"]%string)]
                   (Some (RankGenesGroups [["A"%string]] [[1%Q]] [[0%Q]]
                            "louvain")) None in
  dict_get "louvain"%string (obs anndata) = None
  ∧ dict_get "leiden"%string (obs anndata) = None
  ∧ score_clusters (Some example_ref) (Raise KeyError) (Ok example_pool)
      anndata 20 1000 example_draw
    = Ok (error_message, anndata)
  ∧ ¬ ∃ e, score_clusters (Some example_ref) (Raise KeyError)
             (Ok example_pool) anndata 20 1000 example_draw
           = Raise e.
Proof.
  intros anndata. split; [reflexivity|]. split; [reflexivity|].
  split; [reflexivity|]. intros [e He]. discriminate He.
Qed.

(** ** The assignment resolver (claims C1, C2) *)

(** C1, where the code departs from it: with the p-values
    A: 0.02, B: 0.02, C: 0.5 and the scores A: 10, B: 15, C: 20, the
    minimum 0.02 passes the threshold 0.1 and is tied between A and B;
    the tie-break of the specification gives B, the best score of the
    tied set, and [assign_celltypes] gives C, the best score of all
    cell types, which is not in the tied set. *)
Theorem C1_tie_break_ignores_tied_set :
  let cluster_pvals :=
    [("A"%string, (2 # 100)%Q); ("B"%string, (2 # 100)%Q);
     ("C"%string, (1 # 2)%Q)] in
  let cluster_scores := [("A"%string, 10); ("B"%string, 15); ("C"%string, 20)] in
  min_float (values cluster_pvals) = Ok (2 # 100)%Q
  ∧ tied_set cluster_pvals (2 # 100)%Q = ["A"; "B"]%string
  ∧ tied_best_score cluster_pvals cluster_scores (2 # 100)%Q = Ok "B"%string
  ∧ assign_type [(0, cluster_pvals)] [(0, cluster_scores)] 0 (1 # 10)%Q
    = Ok "C"%string.
Proof. repeat split; vm_compute; reflexivity. Qed.

(** The tie of the specification's scenario, two cell types at
    p-value 0.02 with the scores 10 and 15: the one with score 15 is
    assigned, whichever comes first. *)
Example assign_type_two_tied :
  assign_type [(0, [("A"%string, (2 # 100)%Q); ("B"%string, (2 # 100)%Q)])]
    [(0, [("A"%string, 10); ("B"%string, 15)])] 0 (1 # 10)%Q
  = Ok "B"%string
  ∧ assign_type [(0, [("B"%string, (2 # 100)%Q); ("A"%string, (2 # 100)%Q)])]
      [(0, [("B"%string, 15); ("A"%string, 10)])] 0 (1 # 10)%Q
    = Ok "B"%string.
Proof. split; vm_compute; reflexivity. Qed.

Lemma first_best_cases {K V : Type} (better : V → V → bool) (best : K * V)
    (d : dict K V) :
  first_best better best d = best ∨ first_best better best d ∈ d.
Proof.
  revert best. induction d as [|[k v] d IH]; intros best; simpl; [by left|].
  destruct (IH (if better v best.2 then (k, v) else best)) as [H|H].
  - rewrite H. destruct (better v best.2); [right; by left | by left].
  - right. by right.
Qed.

Lemma extremal_key_in_keys {K V : Type} (better : V → V → bool)
    (d : dict K V) (k : K) :
  extremal_key better d = Ok k → k ∈ keys d.
Proof.
  destruct d as [|kv d]; simpl; [done|]. intros [= <-].
  change ((first_best better kv d).1 ∈ fst <$> (kv :: d)).
  apply list_elem_of_fmap_2.
  destruct (first_best_cases better kv d) as [->|H]; [by left | by right].
Qed.

Lemma extremal_key_Ok {K V : Type} (better : V → V → bool) (d : dict K V) :
  d ≠ [] → ∃ k, extremal_key better d = Ok k.
Proof. destruct d; [done|]. intros _. by eexists. Qed.

Lemma min_float_nonempty (l : list Q) (m : Q) : min_float l = Ok m → l ≠ [].
Proof. by destruct l. Qed.

(** C2, as the code has it: a cluster whose minimum p-value equals the
    threshold exactly is not sent to "NA": the strict comparison
    [min_value > pval_thrsh] fails there, and the cluster is given the
    cell type of the tie-break or unique-minimum rule, one of its cell
    types; "NA" comes from the threshold only when the minimum p-value
    is strictly above it. *)
Theorem C2_threshold_boundary_assigns_cell_type
    (pvals : pval_dict) (score : score_dict) (cluster : Z) (pval_thrsh : Q)
    (cluster_pvals : dict string Q) (cluster_scores : dict string Z)
    (min_value : Q) :
  dict_get cluster pvals = Some cluster_pvals →
  dict_get cluster score = Some cluster_scores →
  cluster_scores ≠ [] →
  min_float (values cluster_pvals) = Ok min_value →
  (min_value == pval_thrsh)%Q →
  (∃ ct,
     assign_type pvals score cluster pval_thrsh = Ok ct
     ∧ best_type cluster_pvals score cluster min_value = Ok ct
     ∧ (ct ∈ keys cluster_pvals ∨ ct ∈ keys cluster_scores)
     ∧ ("NA"%string ∉ keys cluster_pvals →
        "NA"%string ∉ keys cluster_scores → ct ≠ "NA"%string))
  ∧ (∀ thrsh, (thrsh < min_value)%Q →
       assign_type pvals score cluster thrsh = Ok "NA"%string).
Proof.
  intros Hp Hs Hne Hmin Heq. split.
  - assert (∃ ct, best_type cluster_pvals score cluster min_value = Ok ct
                  ∧ (ct ∈ keys cluster_pvals ∨ ct ∈ keys cluster_scores))
      as (ct & Hct & Hin).
    { unfold best_type. destruct (bool_decide _).
      - unfold dict_item. rewrite Hs, bind_Ok.
        destruct (extremal_key_Ok (fun v best => best <? v) cluster_scores Hne)
          as [ct Hct].
        exists ct. split; [done|]. right. by eapply extremal_key_in_keys.
      - assert (cluster_pvals ≠ []) as Hne'.
        { apply min_float_nonempty in Hmin. by destruct cluster_pvals. }
        destruct (extremal_key_Ok (fun v best => Qltb v best) cluster_pvals
                    Hne') as [ct Hct].
        exists ct. split; [done|]. left. by eapply extremal_key_in_keys. }
    exists ct. split; [|split; [done|split; [done|]]].
    + unfold assign_type, dict_item. rewrite Hp, bind_Ok, Hmin, bind_Ok.
      assert (Qltb pval_thrsh min_value = false) as ->; [|done].
      unfold Qltb. apply negb_false_iff, Qle_bool_iff.
      rewrite Heq. apply Qle_refl.
    + intros Hna1 Hna2 ->. by destruct Hin.
  - intros thrsh Hlt. unfold assign_type, dict_item.
    rewrite Hp, bind_Ok, Hmin, bind_Ok.
    assert (Qltb thrsh min_value = true) as ->; [|done].
    unfold Qltb. apply negb_true_iff, not_true_is_false.
    rewrite Qle_bool_iff. by apply Qlt_not_le.
Qed.

Lemma C2_threshold_boundary_assigns_cell_type_witness :
  let cluster_pvals := [("A"%string, (1 # 10)%Q); ("B"%string, (3 # 10)%Q)] in
  let cluster_scores := [("A"%string, 4); ("B"%string, 9)] in
  (∃ ct,
     assign_type [(0, cluster_pvals)] [(0, cluster_scores)] 0 (1 # 10)%Q = Ok ct
     ∧ best_type cluster_pvals [(0, cluster_scores)] 0 (1 # 10)%Q = Ok ct
     ∧ (ct ∈ keys cluster_pvals ∨ ct ∈ keys cluster_scores)
     ∧ ("NA"%string ∉ keys cluster_pvals →
        "NA"%string ∉ keys cluster_scores → ct ≠ "NA"%string))
  ∧ (∀ thrsh, (thrsh < 1 # 10)%Q →
       assign_type [(0, cluster_pvals)] [(0, cluster_scores)] 0 thrsh
       = Ok "NA"%string).
Proof.
  intros cluster_pvals cluster_scores.
  apply (C2_threshold_boundary_assigns_cell_type
           [(0, cluster_pvals)] [(0, cluster_scores)] 0 (1 # 10)%Q
           cluster_pvals cluster_scores (1 # 10)%Q).
  - reflexivity.
  - reflexivity.
  - discriminate.
  - reflexivity.
  - reflexivity.
Defined.

(** C2 as stated fails: with the p-values A: 0.1, B: 0.3 and the
    threshold 0.1, the minimum p-value equals the threshold and the
    cluster is assigned A, not "NA". *)
Lemma C2_threshold_boundary_counterexample :
  let cluster_pvals := [("A"%string, (1 # 10)%Q); ("B"%string, (3 # 10)%Q)] in
  let cluster_scores := [("A"%string, 4); ("B"%string, 9)] in
  min_float (values cluster_pvals) = Ok (1 # 10)%Q
  ∧ assign_type [(0, cluster_pvals)] [(0, cluster_scores)] 0 (1 # 10)%Q
    = Ok "A"%string
  ∧ assign_type [(0, cluster_pvals)] [(0, cluster_scores)] 0 (1 # 10)%Q
    ≠ Ok "NA"%string.
Proof. repeat split; try (vm_compute; reflexivity). discriminate. Qed.

(** ** The empirical p-value (claims C5, C6, C10) *)

Lemma overlap_nonneg markers bin_df : 0 ≤ overlap markers bin_df.
Proof. unfold overlap. lia. Qed.

Lemma binned_score_nonneg rows n bin_size markers :
  0 ≤ binned_score rows n bin_size markers.
Proof.
  unfold binned_score. apply Zsum_nonneg.
  intros x (k & -> & Hk%elem_of_seq)%list_elem_of_fmap.
  pose proof (overlap_nonneg markers (nth_bin rows bin_size k)). nia.
Qed.

(** A cell type without a marker (an empty column, or one of padding
    only) overlaps no bin. *)
Lemma overlap_no_marker markers bin_df :
  (∀ m, m ∈ markers → m = None) → overlap markers bin_df = 0.
Proof.
  intros Hm. unfold overlap.
  assert ((list_to_set markers : gset (option string))
            ∩ list_to_set (Some <$> (gene <$> bin_df)) = ∅) as ->.
  { apply set_eq. intros x. rewrite elem_of_intersection.
    rewrite !elem_of_list_to_set. split; [|by intros ?%elem_of_empty].
    intros [->%Hm (g & Hg & _)%list_elem_of_fmap]. done. }
  by rewrite size_empty.
Qed.

Lemma binned_score_no_marker rows n bin_size markers :
  (∀ m, m ∈ markers → m = None) → binned_score rows n bin_size markers = 0.
Proof.
  intros Hm. unfold binned_score.
  rewrite (Zsum_fmap_ext _ (fun _ => 0)).
  - induction (seq 0 n) as [|k l IH]; [done|].
    by rewrite fmap_cons, Zsum_cons, IH.
  - intros k _. rewrite overlap_no_marker by done. lia.
Qed.

Lemma count_reaching_all observed permuted :
  Forall (fun s => observed ≤ s) permuted →
  count_reaching observed permuted = Z.of_nat (length permuted).
Proof.
  induction 1 as [|s l Hs Hl IH].
  - done.
  - rewrite count_reaching_cons, IH. unfold reaches.
    rewrite (proj2 (Z.leb_le _ _)) by done. simpl length. lia.
Qed.

Lemma count_reaching_none observed permuted :
  count_reaching observed permuted = 0 →
  Forall (fun s => s < observed) permuted.
Proof.
  induction permuted as [|s l IH]; intros H; [constructor|].
  rewrite count_reaching_cons in H.
  pose proof (count_reaching_bounds observed l).
  unfold reaches in H. destruct (Z.leb_spec observed s); [lia|].
  constructor; [done|]. apply IH. lia.
Qed.

(** The quotient [float(count) / K] as a fraction. *)
Lemma float_quotient (count K : Z) :
  0 < K → (inject_Z count / inject_Z K == count # Z.to_pos K)%Q.
Proof.
  intros HK. destruct K as [|K'|K']; try lia.
  unfold Qdiv, Qmult, Qinv, inject_Z, Qeq. simpl. lia.
Qed.

Lemma empirical_pvalue_facts observed permuted (K : Z) :
  K = Z.of_nat (length permuted) → 0 < K →
  let p := empirical_pvalue observed permuted K in
  (0 <= p)%Q ∧ (p <= 1)%Q
  ∧ (∃ m : Z, 0 ≤ m ≤ K ∧ (p == inject_Z m * (1 / inject_Z K))%Q)
  ∧ ((p == 0)%Q → Forall (fun s => s < observed) permuted)
  ∧ (Forall (fun s => observed ≤ s) permuted → (p == 1)%Q).
Proof.
  intros HK Hpos p. subst p. unfold empirical_pvalue.
  pose proof (count_reaching_bounds observed permuted) as Hc.
  set (c := count_reaching observed permuted) in *.
  assert (Z.pos (Z.to_pos K) = K) as HKp by lia.
  split; [|split; [|split; [|split]]].
  - rewrite float_quotient by done. unfold Qle. simpl. lia.
  - rewrite float_quotient by done. unfold Qle. simpl. lia.
  - exists c. split; [lia|]. unfold Qdiv. ring.
  - rewrite float_quotient by done. unfold Qeq. simpl. intros H.
    apply count_reaching_none. fold c. lia.
  - intros Hall. rewrite float_quotient by done.
    unfold c. rewrite count_reaching_all by done.
    unfold Qeq. simpl. lia.
Qed.

Lemma Forall2_tabulated {A B : Type} (P : A → B → Prop) (f : A → B)
    (l : list A) :
  (∀ x, x ∈ l → P x (f x)) → Forall2 P l (f <$> l).
Proof.
  induction l as [|x l IH]; intros H; [constructor|].
  rewrite fmap_cons. constructor; [apply H; by left|].
  apply IH. intros y Hy. apply H. by right.
Qed.

Lemma length_permuted {A : Type} (f : nat → A) (K : Z) :
  0 < K → K = Z.of_nat (length (f <$> seq 0 (Z.to_nat K))).
Proof. intros HK. rewrite length_fmap, length_seq. lia. Qed.

Section PValues.
Variables (ranked_marker : marker_frame) (nb_marker : Z)
          (ref_marker : ref_frame) (bin_size : Z)
          (gene_list : list string) (K : Z) (draw : nat → nat → nat).
Hypothesis ref_columns : NoDup (keys ref_marker).
Hypothesis bin_size_pos : 0 < bin_size.
Hypothesis nb_marker_nonneg : 0 ≤ nb_marker.
Hypothesis pool_nonempty : gene_list ≠ [].
Hypothesis K_pos : 0 < K.

(** One run of lines 349-376: the observed scores, the scores of
    each permutation round and the p-values, entry by entry. *)
Lemma permutation_run :
  ∃ (S : Z → string → Z) (Sp : nat → Z → string → Z),
    let cs := clusters ranked_marker in
    let cts := scored_types nb_marker bin_size ref_marker in
    _score_iter ranked_marker nb_marker ref_marker bin_size
    = Ok (table cs cts S)
    ∧ (∀ i, permuted_scores ranked_marker nb_marker ref_marker bin_size
              gene_list draw i
            = Ok (table cs cts (Sp i)))
    ∧ permutation_test ranked_marker nb_marker ref_marker bin_size
        gene_list K draw (table cs cts S)
      = Ok (table cs cts (fun c ct =>
              empirical_pvalue (S c ct)
                ((fun i => Sp i c ct) <$> seq 0 (Z.to_nat K)) K))
    ∧ (∀ i c ct, 0 ≤ Sp i c ct)
    ∧ (∀ c ct, S c ct = observed_score ranked_marker nb_marker bin_size
                          ref_marker c ct).
Proof.
  exists (observed_score ranked_marker nb_marker bin_size ref_marker),
    (permuted_score ranked_marker nb_marker bin_size ref_marker gene_list
       draw).
  split; [by apply score_iter_table|].
  split; [intros i; by apply permuted_scores_table|].
  split; [by apply permutation_test_table|].
  split; [|done]. intros i c ct. apply binned_score_nonneg.
Qed.
End PValues.

(** C5: for every (cluster, cell type) pair, the p-value of the
    permutation tester is the number of permutation rounds, among the
    K, whose permuted score is greater than or equal to the observed
    score (a tie counts), divided by K. *)
Theorem C5_pvalue_is_fraction_of_rounds_reaching_observed
    (ranked_marker : marker_frame) (nb_marker : Z) (ref_marker : ref_frame)
    (bin_size : Z) (gene_list : list string) (K : Z)
    (draw : nat → nat → nat) :
  NoDup (keys ref_marker) → 0 < bin_size → 0 ≤ nb_marker →
  gene_list ≠ [] → 0 < K →
  ∃ (ref_score : score_dict) (i_dict : nat → score_dict)
    (stat_dict : pval_dict),
    _score_iter ranked_marker nb_marker ref_marker bin_size = Ok ref_score
    ∧ (∀ i, permuted_scores ranked_marker nb_marker ref_marker bin_size
              gene_list draw i = Ok (i_dict i))
    ∧ permutation_test ranked_marker nb_marker ref_marker bin_size gene_list
        K draw ref_score = Ok stat_dict
    ∧ ∀ clust ct observed,
        entry ref_score clust ct = Some observed →
        ∃ permuted : list Z,
          Forall2 (fun i s => entry (i_dict i) clust ct = Some s)
            (seq 0 (Z.to_nat K)) permuted
          ∧ entry stat_dict clust ct
            = Some (empirical_pvalue observed permuted K).
Proof.
  intros Hcols Hbs Hnb Hpool HK.
  destruct (permutation_run ranked_marker nb_marker ref_marker bin_size
              gene_list K draw Hcols Hbs Hnb Hpool HK)
    as (S & Sp & Hs & Hp & Ht & _ & _).
  do 3 eexists. split; [exact Hs|]. split; [exact Hp|]. split; [exact Ht|].
  intros clust ct observed (Hc & Hct & ->)%entry_table_inv.
  exists ((fun i => Sp i clust ct) <$> seq 0 (Z.to_nat K)). split.
  - apply Forall2_tabulated. intros i _. by rewrite entry_table.
  - by rewrite entry_table.
Qed.

Lemma C5_pvalue_is_fraction_of_rounds_reaching_observed_witness :
  ∃ (ref_score : score_dict) (i_dict : nat → score_dict)
    (stat_dict : pval_dict),
    _score_iter example_table 4 example_ref 2 = Ok ref_score
    ∧ (∀ i, permuted_scores example_table 4 example_ref 2 example_pool
              example_draw i = Ok (i_dict i))
    ∧ permutation_test example_table 4 example_ref 2 example_pool 50
        example_draw ref_score = Ok stat_dict
    ∧ ∀ clust ct observed,
        entry ref_score clust ct = Some observed →
        ∃ permuted : list Z,
          Forall2 (fun i s => entry (i_dict i) clust ct = Some s)
            (seq 0 (Z.to_nat 50)) permuted
          ∧ entry stat_dict clust ct
            = Some (empirical_pvalue observed permuted 50).
Proof.
  apply (C5_pvalue_is_fraction_of_rounds_reaching_observed
           example_table 4 example_ref 2 example_pool 50 example_draw).
  - apply (bool_decide_unpack _). vm_compute. reflexivity.
  - lia.
  - lia.
  - discriminate.
  - lia.
Defined.

(** A run of the tester with K = 4: the scores 3 (T) and 0 (U) are
    observed; the permuted scores of T are 2, 0, 0, 1, none reaching 3,
    so its p-value is 0/4; those of U are 0 each round, all reaching 0,
    so its p-value is 4/4. *)
Example permutation_test_run :
  _score_iter example_table 4 example_ref 2
  = Ok [(0, [("T"%string, 3); ("U"%string, 0)])]
  ∧ permutation_test example_table 4 example_ref 2 example_pool 4
      example_draw [(0, [("T"%string, 3); ("U"%string, 0)])]
    = Ok [(0, [("T"%string, (0 / 4)%Q); ("U"%string, (4 / 4)%Q)])].
Proof. split; vm_compute; reflexivity. Qed.

(** C6: for K >= 1, every p-value the tester returns lies in [0, 1],
    is an integer multiple of 1/K, and is 0 only if in no permutation
    round the permuted score met or exceeded the observed one. *)
Theorem C6_pvalue_bounds_and_resolution
    (ranked_marker : marker_frame) (nb_marker : Z) (ref_marker : ref_frame)
    (bin_size : Z) (gene_list : list string) (K : Z)
    (draw : nat → nat → nat) :
  NoDup (keys ref_marker) → 0 < bin_size → 0 ≤ nb_marker →
  gene_list ≠ [] → 0 < K →
  ∃ (ref_score : score_dict) (i_dict : nat → score_dict)
    (stat_dict : pval_dict),
    _score_iter ranked_marker nb_marker ref_marker bin_size = Ok ref_score
    ∧ (∀ i, permuted_scores ranked_marker nb_marker ref_marker bin_size
              gene_list draw i = Ok (i_dict i))
    ∧ permutation_test ranked_marker nb_marker ref_marker bin_size gene_list
        K draw ref_score = Ok stat_dict
    ∧ (∀ clust ct,
         is_Some (entry stat_dict clust ct)
         ↔ is_Some (entry ref_score clust ct))
    ∧ ∀ clust ct p,
        entry stat_dict clust ct = Some p →
        (0 <= p)%Q ∧ (p <= 1)%Q
        ∧ (∃ m : Z, 0 ≤ m ≤ K ∧ (p == inject_Z m * (1 / inject_Z K))%Q)
        ∧ ((p == 0)%Q →
           ∀ i, (i < Z.to_nat K)%nat →
             ∃ observed permuted,
               entry ref_score clust ct = Some observed
               ∧ entry (i_dict i) clust ct = Some permuted
               ∧ permuted < observed).
Proof.
  intros Hcols Hbs Hnb Hpool HK.
  destruct (permutation_run ranked_marker nb_marker ref_marker bin_size
              gene_list K draw Hcols Hbs Hnb Hpool HK)
    as (S & Sp & Hs & Hp & Ht & _ & _).
  do 3 eexists. split; [exact Hs|]. split; [exact Hp|]. split; [exact Ht|].
  split.
  - intros clust ct. split; intros [v (Hc & Hct & _)%entry_table_inv];
      rewrite entry_table by done; by eexists.
  - intros clust ct p (Hc & Hct & ->)%entry_table_inv.
    destruct (empirical_pvalue_facts (S clust ct)
                ((fun i => Sp i clust ct) <$> seq 0 (Z.to_nat K)) K)
      as (H0 & H1 & Hm & Hz & _); [by apply length_permuted|done|].
    split; [done|]. split; [done|]. split; [done|].
    intros Hzero i Hi. exists (S clust ct), (Sp i clust ct).
    split; [by rewrite entry_table|]. split; [by rewrite entry_table|].
    specialize (Hz Hzero). rewrite Forall_fmap, Forall_forall in Hz.
    apply (Hz i). apply elem_of_seq. lia.
Qed.

Lemma C6_pvalue_bounds_and_resolution_witness :
  ∃ (ref_score : score_dict) (i_dict : nat → score_dict)
    (stat_dict : pval_dict),
    _score_iter example_table 4 example_ref 2 = Ok ref_score
    ∧ (∀ i, permuted_scores example_table 4 example_ref 2 example_pool
              example_draw i = Ok (i_dict i))
    ∧ permutation_test example_table 4 example_ref 2 example_pool 50
        example_draw ref_score = Ok stat_dict
    ∧ (∀ clust ct,
         is_Some (entry stat_dict clust ct)
         ↔ is_Some (entry ref_score clust ct))
    ∧ ∀ clust ct p,
        entry stat_dict clust ct = Some p →
        (0 <= p)%Q ∧ (p <= 1)%Q
        ∧ (∃ m : Z, 0 ≤ m ≤ 50 ∧ (p == inject_Z m * (1 / inject_Z 50))%Q)
        ∧ ((p == 0)%Q →
           ∀ i, (i < Z.to_nat 50)%nat →
             ∃ observed permuted,
               entry ref_score clust ct = Some observed
               ∧ entry (i_dict i) clust ct = Some permuted
               ∧ permuted < observed).
Proof.
  apply (C6_pvalue_bounds_and_resolution
           example_table 4 example_ref 2 example_pool 50 example_draw).
  - apply (bool_decide_unpack _). vm_compute. reflexivity.
  - lia.
  - lia.
  - discriminate.
  - lia.
Defined.

(** With K = 50 the step 1/K of the p-values is 0.02. *)
Example resolution_50 : (1 / inject_Z 50 == 2 # 100)%Q.
Proof. reflexivity. Qed.

(** C10: a (cluster, cell type) pair whose observed score is 0, as is
    that of every cell type without a marker, has the p-value 1 for
    every K >= 1: the permuted scores are never negative, so every
    round reaches the observed score; the pair is above every
    threshold below 1. *)
Theorem C10_zero_score_has_pvalue_one
    (ranked_marker : marker_frame) (nb_marker : Z) (ref_marker : ref_frame)
    (bin_size : Z) (gene_list : list string) (K : Z)
    (draw : nat → nat → nat) :
  NoDup (keys ref_marker) → 0 < bin_size → 0 ≤ nb_marker →
  gene_list ≠ [] → 0 < K →
  ∃ (ref_score : score_dict) (stat_dict : pval_dict),
    _score_iter ranked_marker nb_marker ref_marker bin_size = Ok ref_score
    ∧ permutation_test ranked_marker nb_marker ref_marker bin_size gene_list
        K draw ref_score = Ok stat_dict
    ∧ (∀ clust ct,
         entry ref_score clust ct = Some 0 →
         ∃ p, entry stat_dict clust ct = Some p
              ∧ (p == 1)%Q
              ∧ ∀ pval_thrsh, (pval_thrsh < 1)%Q → Qltb pval_thrsh p = true)
    ∧ (∀ clust ct,
         clust ∈ cluster_number <$> ranked_marker → ct ∈ keys ref_marker →
         bin_size ≤ nb_marker →
         (∀ m, m ∈ markers_of ref_marker ct → m = None) →
         entry ref_score clust ct = Some 0).
Proof.
  intros Hcols Hbs Hnb Hpool HK.
  destruct (permutation_run ranked_marker nb_marker ref_marker bin_size
              gene_list K draw Hcols Hbs Hnb Hpool HK)
    as (S & Sp & Hs & Hp & Ht & Hpos & HS).
  do 2 eexists. split; [exact Hs|]. split; [exact Ht|]. split.
  - intros clust ct (Hc & Hct & Hzero)%entry_table_inv.
    eexists. split; [by rewrite entry_table|].
    destruct (empirical_pvalue_facts (S clust ct)
                ((fun i => Sp i clust ct) <$> seq 0 (Z.to_nat K)) K)
      as (_ & _ & _ & _ & Hone); [by apply length_permuted|done|].
    assert (empirical_pvalue (S clust ct)
              ((fun i => Sp i clust ct) <$> seq 0 (Z.to_nat K)) K == 1)%Q
      as Hp1.
    { apply Hone. rewrite Forall_fmap, Forall_forall. intros i _.
      simpl. rewrite <- Hzero. apply Hpos. }
    split; [done|]. intros thr Hthr. unfold Qltb.
    apply negb_true_iff, not_true_is_false. rewrite Qle_bool_iff, Hp1.
    by apply Qlt_not_le.
  - intros clust ct Hc Hct Hle Hm.
    rewrite entry_table.
    + f_equal. rewrite HS. unfold observed_score.
      by apply binned_score_no_marker.
    + by apply cluster_in_clusters.
    + by rewrite scored_types_all.
Qed.

Lemma C10_zero_score_has_pvalue_one_witness :
  ∃ (ref_score : score_dict) (stat_dict : pval_dict),
    _score_iter example_table 4 example_ref 2 = Ok ref_score
    ∧ permutation_test example_table 4 example_ref 2 example_pool 3
        example_draw ref_score = Ok stat_dict
    ∧ (∀ clust ct,
         entry ref_score clust ct = Some 0 →
         ∃ p, entry stat_dict clust ct = Some p
              ∧ (p == 1)%Q
              ∧ ∀ pval_thrsh, (pval_thrsh < 1)%Q → Qltb pval_thrsh p = true)
    ∧ (∀ clust ct,
         clust ∈ cluster_number <$> example_table → ct ∈ keys example_ref →
         2 ≤ 4 →
         (∀ m, m ∈ markers_of example_ref ct → m = None) →
         entry ref_score clust ct = Some 0).
Proof.
  apply (C10_zero_score_has_pvalue_one
           example_table 4 example_ref 2 example_pool 3 example_draw).
  - apply (bool_decide_unpack _). vm_compute. reflexivity.
  - lia.
  - lia.
  - discriminate.
  - lia.
Defined.

(** ** [score_clusters] stores the result of the permutation test *)

Lemma score_clusters_done
    (user_ref : option ref_frame) (parse_ref : res ref_frame)
    (get_genelist : res (list string)) (anndata : AnnData)
    (bin_size random_sampling : Z) (draw : nat → nat → nat)
    rgg ranked_marker ref_marker gene_list ref_score stat_dict :
  prerequisites_missing anndata = false →
  uns_rank_genes_groups anndata = Some rgg →
  wrangle_ranked_genes rgg = Ok ranked_marker →
  match user_ref with Some r => Ok r | None => parse_ref end = Ok ref_marker →
  get_genelist = Ok gene_list →
  _score_iter ranked_marker (Z.of_nat (length (names rgg))) ref_marker bin_size
  = Ok ref_score →
  permutation_test ranked_marker (Z.of_nat (length (names rgg))) ref_marker
    bin_size gene_list random_sampling draw ref_score = Ok stat_dict →
  score_clusters user_ref parse_ref get_genelist anndata bin_size
    random_sampling draw
  = Ok ("DONE"%string,
        {| n_obs := n_obs anndata;
           obs := obs anndata;
           uns_rank_genes_groups := Some rgg;
           uns_scoreCT := Some (ScoreCT stat_dict ref_score (groupby rgg) None) |}).
Proof.
  intros Hpre Hrgg Hw Href Hgl Hs Hp. unfold score_clusters.
  rewrite Hpre, Hrgg, Hw, bind_Ok, Href, bind_Ok, Hs, bind_Ok, Hgl, bind_Ok.
  by rewrite Hp.
Qed.

(** A whole run: two clusters scored against two cell types, four
    permutation rounds, and the assignment at the threshold 0.6. *)
Example pipeline_run :
  let ref_df := [("T"%string, [Some "A"; Some "C"]%string);
                 ("U"%string, [Some "Q"%string; None])] in
  ∃ anndata anndata' message,
    score_clusters (Some ref_df) (Raise KeyError)
      (Ok ["A"; "Q"; "X"; "Y"]%string) example_anndata 2 4
      (fun i j => (i + 2 * j)%nat)
    = Ok ("DONE"%string, anndata)
    ∧ uns_scoreCT anndata
      = Some (ScoreCT
                [(0, [("T"%string, (2 / 4)%Q); ("U"%string, (4 / 4)%Q)]);
                 (1, [("T"%string, (4 / 4)%Q); ("U"%string, (2 / 4)%Q)])]
                [(0, [("T"%string, 3); ("U"%string, 0)]);
                 (1, [("T"%string, 0); ("U"%string, 2)])]
                "louvain" None)
    ∧ assign_celltypes anndata (6 # 10)%Q = Ok (message, anndata')
    ∧ dict_get "scorect"%string (obs anndata') = Some ["T"; "U"; "T"]%string.
Proof. intros ref_df. do 3 eexists. repeat split; vm_compute; reflexivity. Qed.

(** * Further properties of the module *)

(** ** The scoring engine: bounds and what a score depends on *)

Lemma size_list_to_set_le {A : Type} `{Countable A} (l : list A) :
  (size (list_to_set l : gset A) ≤ length l)%nat.
Proof.
  induction l as [|x l IH].
  { by rewrite list_to_set_nil, size_empty. }
  rewrite list_to_set_cons, size_union_alt, size_singleton. simpl.
  pose proof (subseteq_size (list_to_set l ∖ {[x]}) (list_to_set l : gset A)
                ltac:(apply subseteq_difference_l; done)).
  lia.
Qed.

Lemma overlap_le_bin markers (bin_df : marker_frame) :
  overlap markers bin_df ≤ Z.of_nat (length bin_df).
Proof.
  unfold overlap. apply inj_le.
  etrans; [apply subseteq_size, intersection_subseteq_r|].
  etrans; [apply size_list_to_set_le|]. by rewrite !length_fmap.
Qed.

Lemma overlap_le_markers markers (bin_df : marker_frame) :
  overlap markers bin_df ≤ Z.of_nat (length markers).
Proof.
  unfold overlap. apply inj_le.
  etrans; [apply subseteq_size, intersection_subseteq_l|].
  apply size_list_to_set_le.
Qed.

(** The overlap reads the markers as a set of genes: padding and
    repetitions do not count. *)
Lemma overlap_subset markers markers' bin_df :
  (∀ g, Some g ∈ markers → Some g ∈ markers') →
  overlap markers bin_df ≤ overlap markers' bin_df.
Proof.
  intros Hsub. unfold overlap. apply inj_le, subseteq_size.
  intros x [Hx Hb]%elem_of_intersection. apply elem_of_intersection.
  split; [|done]. apply elem_of_list_to_set in Hx, Hb.
  apply list_elem_of_fmap in Hb as (g & -> & _).
  apply elem_of_list_to_set. by apply Hsub.
Qed.

Lemma overlap_same_genes markers markers' bin_df :
  (∀ g, Some g ∈ markers ↔ Some g ∈ markers') →
  overlap markers bin_df = overlap markers' bin_df.
Proof.
  intros Hiff. apply Z.le_antisymm; apply overlap_subset; intros g; apply Hiff.
Qed.

Lemma overlap_permutation markers (bin_df bin_df' : marker_frame) :
  gene <$> bin_df' ≡ₚ gene <$> bin_df →
  overlap markers bin_df' = overlap markers bin_df.
Proof.
  intros Hperm. unfold overlap. do 3 f_equal.
  apply list_to_set_perm_L. by rewrite Hperm.
Qed.

Lemma Zsum_weights (n : nat) (N m : Z) :
  2 * Zsum ((fun k => (N - Z.of_nat k) * m) <$> seq 0 n)
  = m * (2 * N * Z.of_nat n - Z.of_nat n * (Z.of_nat n - 1)).
Proof.
  induction n as [|n IH]; [simpl; lia|].
  rewrite seq_S, fmap_app, Zsum_app, fmap_cons, fmap_nil, Zsum_cons.
  change (Zsum []) with 0. change (0 + n)%nat with n. nia.
Qed.

Lemma binned_score_le rows n bin_size markers (m : Z) :
  (∀ k, overlap markers (nth_bin rows bin_size k) ≤ m) →
  2 * binned_score rows n bin_size markers
  ≤ m * (Z.of_nat n * (Z.of_nat n + 1)).
Proof.
  intros Hm. unfold binned_score.
  assert (Zsum ((fun k => (Z.of_nat n - Z.of_nat k)
                          * overlap markers (nth_bin rows bin_size k))
                  <$> seq 0 n)
          ≤ Zsum ((fun k => (Z.of_nat n - Z.of_nat k) * m) <$> seq 0 n)) as H.
  { apply Zsum_fmap_le. intros k Hk%elem_of_seq.
    apply Z.mul_le_mono_nonneg_l; [lia | apply Hm]. }
  pose proof (Zsum_weights n (Z.of_nat n) m). nia.
Qed.

(** X1: Every score lies between 0 and the score of a cell type found in
    full in every bin: with n = floor(nb_marker / bin_size) bins, twice
    the score is at most n (n + 1) times the smaller of the bin size
    and the length of the cell type's column. *)
Theorem score_bounds
    (ranked_marker : marker_frame) (nb_marker : Z) (ref_df : ref_frame)
    (bin_size : Z) :
  NoDup (keys ref_df) → 0 < bin_size → 0 ≤ nb_marker →
  ∃ dict_scores,
    _score_iter ranked_marker nb_marker ref_df bin_size = Ok dict_scores
    ∧ ∀ clust ct score,
        entry dict_scores clust ct = Some score →
        0 ≤ score
        ∧ 2 * score
          ≤ Z.min bin_size (Z.of_nat (length (markers_of ref_df ct)))
            * ((nb_marker / bin_size) * (nb_marker / bin_size + 1)).
Proof.
  intros Hnd Hbs Hnb. eexists. split; [by apply score_iter_table|].
  intros clust ct score (_ & _ & ->)%entry_table_inv.
  split; [apply binned_score_nonneg|]. unfold observed_score.
  rewrite num_bins_floor by done.
  assert (0 ≤ nb_marker / bin_size) by (apply Z.div_pos; lia).
  replace (nb_marker / bin_size)
    with (Z.of_nat (Z.to_nat (nb_marker / bin_size))) at 2 3 by lia.
  apply binned_score_le. intros k. apply Z.min_glb.
  - etrans; [apply overlap_le_bin|]. unfold nth_bin.
    rewrite length_take. lia.
  - apply overlap_le_markers.
Qed.

Lemma score_bounds_witness :
  ∃ dict_scores,
    _score_iter example_table 4 example_ref 2 = Ok dict_scores
    ∧ ∀ clust ct score,
        entry dict_scores clust ct = Some score →
        0 ≤ score
        ∧ 2 * score
          ≤ Z.min 2 (Z.of_nat (length (markers_of example_ref ct)))
            * ((4 / 2) * (4 / 2 + 1)).
Proof.
  apply (score_bounds example_table 4 example_ref 2).
  - apply (bool_decide_unpack _). vm_compute. reflexivity.
  - lia.
  - lia.
Defined.

(** X2: A cell type whose markers include those of another scores at least
    as much as the other, in every cluster. *)
Theorem score_monotone_in_markers
    (ranked_marker : marker_frame) (nb_marker : Z) (ref_df : ref_frame)
    (bin_size : Z) (ct ct' : string) :
  NoDup (keys ref_df) → 0 < bin_size → 0 ≤ nb_marker →
  (∀ g, Some g ∈ markers_of ref_df ct → Some g ∈ markers_of ref_df ct') →
  ∃ dict_scores,
    _score_iter ranked_marker nb_marker ref_df bin_size = Ok dict_scores
    ∧ ∀ clust score score',
        entry dict_scores clust ct = Some score →
        entry dict_scores clust ct' = Some score' →
        score ≤ score'.
Proof.
  intros Hnd Hbs Hnb Hsub. eexists. split; [by apply score_iter_table|].
  intros clust score score' (_ & _ & ->)%entry_table_inv
    (_ & _ & ->)%entry_table_inv.
  unfold observed_score, binned_score. apply Zsum_fmap_le.
  intros k Hk%elem_of_seq.
  apply Z.mul_le_mono_nonneg_l; [lia | by apply overlap_subset].
Qed.

Lemma score_monotone_in_markers_witness :
  let ref_df := [("T"%string, [Some "A"; Some "C"]%string);
                 ("V"%string, [Some "C"; Some "D"; Some "A"]%string)] in
  ∃ dict_scores,
    _score_iter example_table 4 ref_df 2 = Ok dict_scores
    ∧ ∀ clust score score',
        entry dict_scores clust "T"%string = Some score →
        entry dict_scores clust "V"%string = Some score' →
        score ≤ score'.
Proof.
  intros ref_df.
  apply (score_monotone_in_markers example_table 4 ref_df 2).
  - apply (bool_decide_unpack _). vm_compute. reflexivity.
  - lia.
  - lia.
  - intros g Hg. apply (bool_decide_unpack _).
    apply (bool_decide_pack _) in Hg. revert Hg.
    unfold ref_df, markers_of. simpl.
    rewrite !bool_decide_spec, !elem_of_cons, !elem_of_nil.
    intros [->|[->|[]]]; auto.
Defined.

(** X3: The scores read a reference column as a set of genes: two
    references with the same cell types and, for each, the same genes
    (up to order, repetition and padding) give the same result. *)
Theorem score_reads_markers_as_sets
    (ranked_marker : marker_frame) (nb_marker : Z) (ref_df ref_df' : ref_frame)
    (bin_size : Z) :
  NoDup (keys ref_df) → 0 < bin_size → 0 ≤ nb_marker →
  keys ref_df' = keys ref_df →
  (∀ ct g, Some g ∈ markers_of ref_df' ct ↔ Some g ∈ markers_of ref_df ct) →
  _score_iter ranked_marker nb_marker ref_df' bin_size
  = _score_iter ranked_marker nb_marker ref_df bin_size.
Proof.
  intros Hnd Hbs Hnb Hkeys Hsame.
  rewrite !score_iter_table by (rewrite ?Hkeys; done).
  unfold scored_types. rewrite Hkeys. f_equal. apply table_ext.
  intros clust ct _ _. unfold observed_score, binned_score.
  apply Zsum_fmap_ext. intros k _. f_equal.
  apply overlap_same_genes. intros g. apply Hsame.
Qed.

Lemma score_reads_markers_as_sets_witness :
  _score_iter example_table 4
    [("T"%string, [Some "C"; None; Some "A"; Some "C"]%string);
     ("U"%string, [])] 2
  = _score_iter example_table 4 example_ref 2.
Proof.
  apply score_reads_markers_as_sets.
  - apply (bool_decide_unpack _). vm_compute. reflexivity.
  - lia.
  - lia.
  - reflexivity.
  - intros ct g.
    destruct (decide (ct = "T"%string)) as [->|HT];
      [|destruct (decide (ct = "U"%string)) as [->|HU]].
    + unfold markers_of, example_ref. simpl.
      rewrite !elem_of_cons, !elem_of_nil. intuition congruence.
    + unfold markers_of, example_ref. simpl.
      rewrite !elem_of_cons, !elem_of_nil. intuition congruence.
    + unfold markers_of, example_ref. simpl.
      rewrite !decide_False by done. done.
Defined.

Lemma score_bin_permutation ref_df (n k : Z) (bin_df bin_df' : marker_frame)
    scores :
  gene <$> bin_df' ≡ₚ gene <$> bin_df →
  score_bin ref_df n k bin_df' scores = score_bin ref_df n k bin_df scores.
Proof.
  intros Hperm. unfold score_bin. apply for_each_ext.
  intros ct d _. destruct (range_item 1 (n + 1) (- (1 + k))) as [w|e]; [|done].
  rewrite !bind_Ok. destruct (dict_item ref_df ct) as [markers|e]; [|done].
  rewrite !bind_Ok. by rewrite (overlap_permutation markers bin_df bin_df').
Qed.

(** X4: Within a bin the order of the genes is of no account: two tables
    with the same cluster column whose bins hold, cluster by cluster
    and bin by bin, the same genes in any order get the same scores. *)
Theorem score_ignores_order_within_bins
    (t t' : marker_frame) (nb_marker : Z) (ref_df : ref_frame)
    (bin_size : Z) :
  0 < bin_size → 0 ≤ nb_marker →
  cluster_number <$> t' = cluster_number <$> t →
  (∀ clust k, (k < Z.to_nat (nb_marker / bin_size))%nat →
     gene <$> nth_bin (cluster_rows t' clust) (Z.to_nat bin_size) k
     ≡ₚ gene <$> nth_bin (cluster_rows t clust) (Z.to_nat bin_size) k) →
  _score_iter t' nb_marker ref_df bin_size
  = _score_iter t nb_marker ref_df bin_size.
Proof.
  intros Hbs Hnb Hcl Hbins. unfold _score_iter, clusters, int_div.
  rewrite Hcl. rewrite (proj2 (Z.eqb_neq _ _)) by lia. rewrite !bind_Ok.
  apply for_each_ext. intros clust d _. f_equal.
  unfold score_cluster, int_div.
  rewrite (proj2 (Z.eqb_neq _ _)) by lia. rewrite !bind_Ok.
  fold (cluster_rows t clust) (cluster_rows t' clust).
  apply for_each_ext. intros k scores Hk.
  unfold range in Hk. apply list_elem_of_fmap in Hk as (k' & -> & Hk').
  apply elem_of_seq in Hk'.
  rewrite Z.quot_div_nonneg in Hk' by lia.
  specialize (Hbins clust k' ltac:(lia)).
  set (bs := Z.to_nat bin_size) in *.
  assert (bin_size = Z.of_nat bs) as Hb by lia. clearbody bs. subst bin_size.
  rewrite !slice_nth_bin. by apply score_bin_permutation.
Qed.

Lemma score_ignores_order_within_bins_witness :
  _score_iter (frame_of_genes 0 ["B"; "A"; "C"; "D"]%string) 4 example_ref 2
  = _score_iter example_table 4 example_ref 2.
Proof.
  apply score_ignores_order_within_bins.
  - lia.
  - lia.
  - reflexivity.
  - intros clust k Hk.
    destruct (decide (clust = 0)) as [->|Hne].
    + destruct k as [|[|k]]; [| |vm_compute in Hk; lia].
      * apply Permutation_swap.
      * reflexivity.
    + unfold cluster_rows, example_table, frame_of_genes. simpl.
      rewrite !filter_cons_False by (simpl; congruence). reflexivity.
Defined.

(** X5: Without a full bin (the bin size above the number of markers, or
    negative) no cell type is scored: every cluster gets an empty
    dict. *)
Theorem score_iter_without_full_bin
    (ranked_marker : marker_frame) (nb_marker : Z) (ref_df : ref_frame)
    (bin_size : Z) :
  0 ≤ nb_marker → nb_marker < bin_size ∨ bin_size < 0 →
  _score_iter ranked_marker nb_marker ref_df bin_size
  = Ok ((fun clust => (clust, [])) <$> clusters ranked_marker).
Proof.
  intros Hnb Hbs.
  assert (bin_size ≠ 0) as Hne by lia.
  assert (nb_marker `quot` bin_size ≤ 0) as Hq.
  { destruct Hbs as [Hlt|Hneg].
    - rewrite Z.quot_small; lia.
    - replace bin_size with (- (- bin_size)) by lia.
      rewrite Z.quot_opp_r by lia.
      pose proof (Z.quot_pos nb_marker (- bin_size) Hnb ltac:(lia)). lia. }
  unfold _score_iter, int_div.
  rewrite (proj2 (Z.eqb_neq _ _)) by done. rewrite bind_Ok.
  etrans;
    [apply (for_each_fresh_keys _ (fun _ : Z => @nil (string * Z)) []
              (clusters ranked_marker))|done].
  - simpl. apply NoDup_remove_dups.
  - intros c ks Hc Hks. unfold score_cluster, int_div, range.
    rewrite (proj2 (Z.eqb_neq _ _)) by done. rewrite bind_Ok.
    replace (Z.to_nat (nb_marker `quot` bin_size)) with 0%nat by lia.
    simpl. rewrite dict_set_new by done. by rewrite tabulate_app.
Qed.

Lemma score_iter_without_full_bin_witness :
  _score_iter example_table 4 example_ref 5
  = Ok ((fun clust => (clust, [])) <$> clusters example_table).
Proof. apply score_iter_without_full_bin; lia. Defined.

(** ** [wrangle_ranked_genes] *)

Lemma column_field {A : Type} (d : A) (frame : list (list A)) (g i : nat) :
  Forall (fun record => length record = g) frame → (i < g)%nat →
  column frame i = Ok (field_or d i <$> frame).
Proof.
  intros Hshape Hi. unfold column.
  apply comprehension_Ok. intros record Hrec.
  rewrite Forall_forall in Hshape. specialize (Hshape record Hrec).
  unfold field_or.
  destruct (lookup_lt_is_Some_2 record i ltac:(lia)) as [x ->]. done.
Qed.

Lemma for_each_append {A B : Type} (l : list A) (body : A → list B → res (list B))
    (block : A → list B) :
  (∀ x s, x ∈ l → body x s = Ok (s ++ block x)) →
  ∀ s, for_each l body s = Ok (s ++ concat (block <$> l)).
Proof.
  induction l as [|x l IH]; intros Hb s; cbn [for_each].
  - simpl. by rewrite app_nil_r.
  - rewrite Hb by left. rewrite bind_Ok, IH.
    + rewrite fmap_cons. simpl. by rewrite app_assoc.
    + intros y s' Hy. apply Hb. by right.
Qed.

Lemma elem_of_concat {A : Type} (x : A) (ls : list (list A)) :
  x ∈ concat ls ↔ ∃ l, x ∈ l ∧ l ∈ ls.
Proof.
  induction ls as [|l ls IH]; simpl.
  - split; [by intros ?%elem_of_nil | by intros (l & _ & ?%elem_of_nil)].
  - rewrite elem_of_app, IH. split.
    + intros [Hx|(l' & Hx & Hl')].
      * exists l. split; [done | by left].
      * exists l'. split; [done | by right].
    + intros (l' & Hx & [->|Hl']%elem_of_cons); [by left|].
      right. by exists l'.
Qed.

Lemma wrangle_ranked_genes_blocks rgg (g n : nat) :
  well_shaped rgg g n → (0 < n)%nat →
  wrangle_ranked_genes rgg = Ok (concat (group_rows rgg <$> seq 0 g)).
Proof.
  intros (Hn & Hs & Hp & Hfn & Hfs & Hfp) Hpos. unfold wrangle_ranked_genes.
  assert (nb_columns (scores rgg) = g) as ->.
  { destruct (scores rgg) as [|record frame]; [simpl in Hs; lia|].
    simpl. by apply Forall_cons in Hfs as [? _]. }
  rewrite (for_each_append _ _ (group_rows rgg)); [done|].
  intros i s Hi%elem_of_seq.
  rewrite (column_field 0%Q (scores rgg) g) by (done || lia).
  rewrite (column_field 0%Q (pvals_adj rgg) g) by (done || lia).
  rewrite (column_field ""%string (names rgg) g) by (done || lia).
  by rewrite !bind_Ok.
Qed.

Lemma filter_all {A : Type} (P : A → Prop) `{∀ x, Decision (P x)} (l : list A) :
  Forall P l → filter P l = l.
Proof.
  induction 1 as [|x l Hx Hl IH]; [done|].
  by rewrite filter_cons_True, IH.
Qed.

Lemma filter_none {A : Type} (P : A → Prop) `{∀ x, Decision (P x)} (l : list A) :
  Forall (fun x => ¬ P x) l → filter P l = [].
Proof.
  induction 1 as [|x l Hx Hl IH]; [done|].
  by rewrite filter_cons_False, IH.
Qed.

Lemma group_rows_cluster rgg (i : nat) :
  Forall (fun r => cluster_number r = Z.of_nat i) (group_rows rgg i).
Proof.
  apply Forall_forall. intros r Hr. unfold group_rows in Hr.
  apply list_elem_of_lookup in Hr as [k Hk].
  rewrite list_lookup_imap in Hk.
  destruct (_ !! k) as [[[z p] gn]|]; [|done]. by injection Hk as <-.
Qed.

Lemma cluster_rows_blocks rgg (a m i : nat) :
  cluster_rows (concat (group_rows rgg <$> seq a m)) (Z.of_nat i)
  = if decide (a ≤ i < a + m)%nat then group_rows rgg i else [].
Proof.
  revert a. induction m as [|m IH]; intros a.
  - simpl. rewrite decide_False by lia. done.
  - cbn [seq fmap list_fmap concat]. unfold cluster_rows in *.
    rewrite filter_app, IH.
    destruct (decide (i = a)) as [->|Hne].
    + rewrite filter_all by apply group_rows_cluster.
      rewrite decide_False by lia. rewrite decide_True by lia.
      by rewrite app_nil_r.
    + rewrite filter_none.
      * simpl. destruct (decide (S a ≤ i < S (a + m))%nat);
          [rewrite decide_True by lia | rewrite decide_False by lia]; done.
      * eapply Forall_impl; [apply group_rows_cluster|].
        intros r Hr. simpl in *. lia.
Qed.

Lemma length_group_rows rgg (g n i : nat) :
  well_shaped rgg g n → length (group_rows rgg i) = n.
Proof.
  intros (Hn & Hs & Hp & _). unfold group_rows.
  rewrite length_imap, !length_zip_with, !length_fmap. lia.
Qed.

Lemma lookup_group_rows rgg (g n i r : nat) :
  well_shaped rgg g n → (i < g)%nat → (r < n)%nat →
  ∃ z p name,
    scores rgg !! r ≫= (.!! i) = Some z
    ∧ pvals_adj rgg !! r ≫= (.!! i) = Some p
    ∧ names rgg !! r ≫= (.!! i) = Some name
    ∧ group_rows rgg i !! r = Some (RankedRow r z p name (Z.of_nat i)).
Proof.
  intros (Hn & Hs & Hp & Hfn & Hfs & Hfp) Hi Hr.
  destruct (lookup_lt_is_Some_2 (scores rgg) r ltac:(lia)) as [zs Hzs].
  destruct (lookup_lt_is_Some_2 (pvals_adj rgg) r ltac:(lia)) as [ps Hps].
  destruct (lookup_lt_is_Some_2 (names rgg) r ltac:(lia)) as [ns Hns].
  rewrite Forall_lookup in Hfn. rewrite Forall_lookup in Hfs.
  rewrite Forall_lookup in Hfp.
  destruct (lookup_lt_is_Some_2 zs i) as [z Hz];
    [by rewrite (Hfs r zs Hzs)|].
  destruct (lookup_lt_is_Some_2 ps i) as [p Hp'];
    [by rewrite (Hfp r ps Hps)|].
  destruct (lookup_lt_is_Some_2 ns i) as [name Hname];
    [by rewrite (Hfn r ns Hns)|].
  exists z, p, name. rewrite Hzs, Hps, Hns. simpl.
  split; [done|]. split; [done|]. split; [done|].
  unfold group_rows. rewrite list_lookup_imap.
  rewrite (lookup_zip_with pair), (lookup_zip_with pair).
  rewrite !list_lookup_fmap, Hzs, Hps, Hns. simpl. unfold field_or.
  by rewrite Hz, Hp', Hname.
Qed.

(** X6: For record arrays of [g] groups over [n >= 1] ranks,
    [wrangle_ranked_genes] returns a table of [g * n] rows in which the
    rows of cluster [i] are, in rank order, the [n] rows
    (r, scores[r][i], pvals_adj[r][i], names[r][i], i): the index
    label of a row is its position in its cluster, and the clusters
    are the groups 0 .. g-1. *)
Theorem wrangle_ranked_genes_table (rgg : rank_genes_groups) (g n : nat) :
  well_shaped rgg g n → (0 < n)%nat →
  ∃ marker_df,
    wrangle_ranked_genes rgg = Ok marker_df
    ∧ length marker_df = (g * n)%nat
    ∧ (∀ clust, clust ∈ clusters marker_df
                ↔ ∃ i, (i < g)%nat ∧ clust = Z.of_nat i)
    ∧ ∀ i, (i < g)%nat →
        length (cluster_rows marker_df (Z.of_nat i)) = n
        ∧ ∀ r, (r < n)%nat →
            ∃ z p name,
              scores rgg !! r ≫= (.!! i) = Some z
              ∧ pvals_adj rgg !! r ≫= (.!! i) = Some p
              ∧ names rgg !! r ≫= (.!! i) = Some name
              ∧ cluster_rows marker_df (Z.of_nat i) !! r
                = Some (RankedRow r z p name (Z.of_nat i)).
Proof.
  intros Hshape Hn. eexists.
  split; [by eapply wrangle_ranked_genes_blocks|].
  split; [|split].
  - rewrite length_concat, <- list_fmap_compose.
    rewrite (list_fmap_ext _ (fun _ => n) (seq 0 g)).
    + clear. generalize 0%nat. induction g as [|g IH]; intros a; [done|].
      simpl. rewrite IH. lia.
    + intros k i _. simpl. by eapply length_group_rows.
  - intros clust. unfold clusters. rewrite elem_of_remove_dups.
    rewrite list_elem_of_fmap. split.
    + intros (r & -> & Hr). apply elem_of_concat in Hr as (block & Hr & Hb).
      apply list_elem_of_fmap in Hb as (i & -> & Hi%elem_of_seq).
      exists i. split; [lia|].
      pose proof (group_rows_cluster rgg i) as Hall.
      rewrite Forall_forall in Hall. by apply Hall.
    + intros (i & Hi & ->).
      destruct (lookup_group_rows rgg g n i 0 Hshape Hi Hn)
        as (z & p & name & _ & _ & _ & Hrow).
      eexists. split; [|apply elem_of_concat; eexists; split;
        [by eapply list_elem_of_lookup_2
        |apply list_elem_of_fmap; exists i; split;
           [done | apply elem_of_seq; lia]]].
      done.
  - intros i Hi. rewrite cluster_rows_blocks, decide_True by lia.
    split; [by eapply length_group_rows|].
    intros r Hr. by eapply lookup_group_rows.
Qed.

Lemma wrangle_ranked_genes_table_witness :
  ∃ marker_df,
    wrangle_ranked_genes example_rgg = Ok marker_df
    ∧ length marker_df = (2 * 4)%nat
    ∧ (∀ clust, clust ∈ clusters marker_df
                ↔ ∃ i, (i < 2)%nat ∧ clust = Z.of_nat i)
    ∧ ∀ i, (i < 2)%nat →
        length (cluster_rows marker_df (Z.of_nat i)) = 4%nat
        ∧ ∀ r, (r < 4)%nat →
            ∃ z p name,
              scores example_rgg !! r ≫= (.!! i) = Some z
              ∧ pvals_adj example_rgg !! r ≫= (.!! i) = Some p
              ∧ names example_rgg !! r ≫= (.!! i) = Some name
              ∧ cluster_rows marker_df (Z.of_nat i) !! r
                = Some (RankedRow r z p name (Z.of_nat i)).
Proof.
  apply (wrangle_ranked_genes_table example_rgg 2 4).
  - repeat split; try reflexivity; repeat constructor.
  - lia.
Defined.

(** A record with too few fields stops the wrangling with a
    [KeyError]: here the second record lacks the field of group 1. *)
Example wrangle_ranked_genes_ragged :
  wrangle_ranked_genes
    (RankGenesGroups [["A"; "P"]; ["B"]]%string [[9; 8]; [7; 6]]%Q
       [[1 # 100; 1 # 100]; [2 # 100; 2 # 100]]%Q "louvain")
  = Raise KeyError.
Proof. vm_compute. reflexivity. Qed.

(** ** [score_clusters] as a whole *)

Lemma prerequisites_present anndata rgg :
  is_Some (dict_get "louvain"%string (obs anndata))
  ∨ is_Some (dict_get "leiden"%string (obs anndata)) →
  uns_rank_genes_groups anndata = Some rgg →
  prerequisites_missing anndata = false.
Proof.
  intros Hcl Hrgg. unfold prerequisites_missing, dict_mem. rewrite Hrgg.
  rewrite (bool_decide_eq_true_2 (is_Some (Some rgg))) by (by eexists).
  destruct Hcl as [H|H]; rewrite (bool_decide_eq_true_2 _ H); simpl;
    by rewrite ?orb_true_r.
Qed.

Lemma elem_of_clusters_blocks rgg (g n : nat) clust :
  well_shaped rgg g n → (0 < n)%nat →
  clust ∈ clusters (concat (group_rows rgg <$> seq 0 g))
  ↔ ∃ i, (i < g)%nat ∧ clust = Z.of_nat i.
Proof.
  intros Hshape Hn. unfold clusters. rewrite elem_of_remove_dups.
  rewrite list_elem_of_fmap. split.
  - intros (r & -> & Hr). apply elem_of_concat in Hr as (block & Hr & Hb).
    apply list_elem_of_fmap in Hb as (i & -> & Hi%elem_of_seq).
    exists i. split; [lia|].
    pose proof (group_rows_cluster rgg i) as Hall.
    rewrite Forall_forall in Hall. by apply Hall.
  - intros (i & Hi & ->).
    destruct (lookup_group_rows rgg g n i 0 Hshape Hi Hn)
      as (z & p & name & _ & _ & _ & Hrow).
    eexists. split; [|apply elem_of_concat; eexists; split;
      [by eapply list_elem_of_lookup_2
      |apply list_elem_of_fmap; exists i; split;
         [done | apply elem_of_seq; lia]]].
    done.
Qed.

Section ScoreClustersRuns.
Variables (user_ref : option ref_frame) (parse_ref : res ref_frame)
          (get_genelist : res (list string)) (anndata : AnnData)
          (bin_size random_sampling : Z) (draw : nat → nat → nat)
          (rgg : rank_genes_groups) (g n : nat) (ref_marker : ref_frame).
Hypothesis clustering_present :
  is_Some (dict_get "louvain"%string (obs anndata))
  ∨ is_Some (dict_get "leiden"%string (obs anndata)).
Hypothesis ranking_present : uns_rank_genes_groups anndata = Some rgg.
Hypothesis ranking_shape : well_shaped rgg g n.
Hypothesis ranks : (0 < n)%nat.
Hypothesis reference :
  match user_ref with Some r => Ok r | None => parse_ref end = Ok ref_marker.

(** The run up to the observed scores. *)
Lemma score_clusters_after_scoring :
  score_clusters user_ref parse_ref get_genelist anndata bin_size
    random_sampling draw
  = (ref_score ← _score_iter (concat (group_rows rgg <$> seq 0 g))
                   (Z.of_nat n) ref_marker bin_size;
     gene_list ← get_genelist;
     stat_dict ← permutation_test (concat (group_rows rgg <$> seq 0 g))
                   (Z.of_nat n) ref_marker bin_size gene_list
                   random_sampling draw ref_score;
     Ok ("DONE"%string,
         {| n_obs := n_obs anndata;
            obs := obs anndata;
            uns_rank_genes_groups := uns_rank_genes_groups anndata;
            uns_scoreCT :=
              Some (ScoreCT stat_dict ref_score (groupby rgg) None) |})).
Proof.
  unfold score_clusters.
  rewrite (prerequisites_present anndata rgg) by done.
  rewrite ranking_present.
  rewrite (wrangle_ranked_genes_blocks rgg g n), bind_Ok by done.
  rewrite reference, bind_Ok.
  destruct ranking_shape as (-> & _). done.
Qed.
End ScoreClustersRuns.

(** X7: With a clustering column, a ranking of [g] groups over [n >= 1]
    ranks, a reference with distinct column labels, a non-empty gene
    list, a positive bin size and K >= 1, [score_clusters] returns
    'DONE': it leaves [obs] and the ranking as they were and stores the
    two dicts and the [groupby] key, without a threshold; as soon as
    there is a full bin, every group and cell type has a score, never
    negative, and a p-value in [0, 1]. *)
Theorem score_clusters_succeeds
    (user_ref : option ref_frame) (parse_ref : res ref_frame)
    (get_genelist : res (list string)) (anndata : AnnData)
    (bin_size random_sampling : Z) (draw : nat → nat → nat)
    (rgg : rank_genes_groups) (g n : nat) (ref_marker : ref_frame)
    (gene_list : list string) :
  is_Some (dict_get "louvain"%string (obs anndata))
  ∨ is_Some (dict_get "leiden"%string (obs anndata)) →
  uns_rank_genes_groups anndata = Some rgg →
  well_shaped rgg g n → (0 < n)%nat →
  match user_ref with Some r => Ok r | None => parse_ref end = Ok ref_marker →
  NoDup (keys ref_marker) →
  get_genelist = Ok gene_list → gene_list ≠ [] →
  0 < bin_size → 0 < random_sampling →
  ∃ stat_dict ref_score,
    score_clusters user_ref parse_ref get_genelist anndata bin_size
      random_sampling draw
    = Ok ("DONE"%string,
          {| n_obs := n_obs anndata;
             obs := obs anndata;
             uns_rank_genes_groups := Some rgg;
             uns_scoreCT :=
               Some (ScoreCT stat_dict ref_score (groupby rgg) None) |})
    ∧ keys stat_dict = keys ref_score
    ∧ (∀ clust, clust ∈ keys ref_score
                ↔ ∃ i, (i < g)%nat ∧ clust = Z.of_nat i)
    ∧ ∀ i ct, (i < g)%nat → ct ∈ keys ref_marker →
        bin_size ≤ Z.of_nat n →
        ∃ score p,
          entry ref_score (Z.of_nat i) ct = Some score
          ∧ entry stat_dict (Z.of_nat i) ct = Some p
          ∧ 0 ≤ score ∧ (0 <= p)%Q ∧ (p <= 1)%Q.
Proof.
  intros Hcl Hrgg Hshape Hn Href Hnd Hgl Hpool Hbs HK.
  rewrite (score_clusters_after_scoring user_ref parse_ref get_genelist
             anndata bin_size random_sampling draw rgg g n ref_marker)
    by done.
  rewrite score_iter_table, bind_Ok by (done || lia).
  rewrite Hgl, bind_Ok.
  rewrite permutation_test_table, bind_Ok by (done || lia).
  rewrite Hrgg. do 2 eexists. split; [done|].
  split; [by rewrite !keys_table|]. split.
  - intros clust. rewrite keys_table. by eapply elem_of_clusters_blocks.
  - intros i ct Hi Hct Hle.
    assert (Z.of_nat i ∈ clusters (concat (group_rows rgg <$> seq 0 g)))
      as Hc by (eapply elem_of_clusters_blocks; eauto).
    assert (ct ∈ scored_types (Z.of_nat n) bin_size ref_marker) as Hct'
      by (rewrite scored_types_all; done).
    do 2 eexists. rewrite !entry_table by done.
    split; [done|]. split; [done|].
    split; [apply binned_score_nonneg|].
    match goal with
    | |- (0 <= empirical_pvalue ?o ?l ?K)%Q ∧ _ =>
        destruct (empirical_pvalue_facts o l K) as (H0 & H1 & _)
    end; [by apply length_permuted|done|done].
Qed.

Lemma score_clusters_succeeds_witness :
  ∃ stat_dict ref_score,
    score_clusters (Some example_ref) (Raise KeyError) (Ok example_pool)
      example_anndata 2 3 example_draw
    = Ok ("DONE"%string,
          {| n_obs := n_obs example_anndata;
             obs := obs example_anndata;
             uns_rank_genes_groups := Some example_rgg;
             uns_scoreCT :=
               Some (ScoreCT stat_dict ref_score (groupby example_rgg)
                       None) |})
    ∧ keys stat_dict = keys ref_score
    ∧ (∀ clust, clust ∈ keys ref_score
                ↔ ∃ i, (i < 2)%nat ∧ clust = Z.of_nat i)
    ∧ ∀ i ct, (i < 2)%nat → ct ∈ keys example_ref →
        2 ≤ Z.of_nat 4 →
        ∃ score p,
          entry ref_score (Z.of_nat i) ct = Some score
          ∧ entry stat_dict (Z.of_nat i) ct = Some p
          ∧ 0 ≤ score ∧ (0 <= p)%Q ∧ (p <= 1)%Q.
Proof.
  apply (score_clusters_succeeds (Some example_ref) (Raise KeyError)
           (Ok example_pool) example_anndata 2 3 example_draw example_rgg
           2 4 example_ref example_pool).
  - left. by eexists.
  - reflexivity.
  - repeat split; try reflexivity; repeat constructor.
  - lia.
  - reflexivity.
  - apply (bool_decide_unpack _). vm_compute. reflexivity.
  - reflexivity.
  - discriminate.
  - lia.
  - lia.
Defined.

(** ** Arguments [score_clusters] fails on *)

Lemma length_blocks rgg (g n a m : nat) :
  well_shaped rgg g n →
  length (concat (group_rows rgg <$> seq a m)) = (m * n)%nat.
Proof.
  intros Hshape. revert a.
  induction m as [|m IH]; intros a; [done|].
  cbn [seq fmap list_fmap concat].
  rewrite length_app, IH, (length_group_rows rgg g n) by done.
  lia.
Qed.

Lemma randomize_genes_empty_pool (marker_df : marker_frame) draw :
  marker_df ≠ [] → randomize_genes marker_df [] draw = Raise ValueError.
Proof.
  intros Hne. unfold randomize_genes, random_choice.
  rewrite decide_True; [done|]. split; [done|].
  by destruct marker_df.
Qed.

(** X8: [randomize_genes] fails in one case only: an empty gene list for a
    table that has a row, with the ValueError of [np.random.choice]. *)
Theorem randomize_genes_raises (marker_df : marker_frame)
    (gene_list : list string) (draw : nat → nat) (e : exn) :
  randomize_genes marker_df gene_list draw = Raise e
  ↔ gene_list = [] ∧ marker_df ≠ [] ∧ e = ValueError.
Proof.
  split.
  - destruct gene_list as [|gene0 pool].
    + destruct marker_df as [|r t]; [done|].
      rewrite randomize_genes_empty_pool by done. by intros [= <-].
    + by rewrite randomize_genes_Ok.
  - intros (-> & Hne & ->). by apply randomize_genes_empty_pool.
Qed.

Lemma randomize_genes_raises_witness :
  randomize_genes example_table [] (example_draw 0) = Raise ValueError.
Proof.
  apply (randomize_genes_raises example_table [] (example_draw 0) ValueError).
  split; [reflexivity|]. split; [discriminate | reflexivity].
Defined.

Lemma permutation_test_empty_pool (ranked_marker : marker_frame) nb_marker
    ref_marker bin_size K draw ref_score :
  ranked_marker ≠ [] → 0 < K →
  permutation_test ranked_marker nb_marker ref_marker bin_size [] K draw
    ref_score
  = Raise ValueError.
Proof.
  intros Hne HK. unfold permutation_test.
  destruct (Z.to_nat K) as [|k] eqn:Hk; [lia|].
  cbn [seq for_each]. by rewrite randomize_genes_empty_pool.
Qed.

Lemma permutation_test_no_round (ranked_marker : marker_frame) nb_marker
    ref_marker bin_size gene_list K draw cs cts (S : Z → string → Z) :
  K ≤ 0 →
  permutation_test ranked_marker nb_marker ref_marker bin_size gene_list K
    draw (table cs cts S)
  = comprehension (fun '(clust, counts) =>
      stats ← comprehension (fun '(ct, count) =>
        p ← float_div count K; Ok (ct, p)) counts;
      Ok (clust, stats)) (table cs cts (fun _ _ => 0)).
Proof.
  intros HK. unfold permutation_test. rewrite count_dict_init.
  replace (Z.to_nat K) with 0%nat by lia. done.
Qed.

(** X9: On a dataset that has its prerequisites and a reference:
    a bin size of 0 raises ZeroDivisionError, whatever the gene list
    and K (the gene list is not fetched yet); with a positive bin size
    and a table that has a group, an empty gene list raises ValueError
    for every K >= 1. *)
Theorem score_clusters_bad_arguments
    (user_ref : option ref_frame) (parse_ref : res ref_frame)
    (get_genelist : res (list string)) (anndata : AnnData)
    (bin_size random_sampling : Z) (draw : nat → nat → nat)
    (rgg : rank_genes_groups) (g n : nat) (ref_marker : ref_frame) :
  is_Some (dict_get "louvain"%string (obs anndata))
  ∨ is_Some (dict_get "leiden"%string (obs anndata)) →
  uns_rank_genes_groups anndata = Some rgg →
  well_shaped rgg g n → (0 < n)%nat →
  match user_ref with Some r => Ok r | None => parse_ref end = Ok ref_marker →
  (bin_size = 0 →
   score_clusters user_ref parse_ref get_genelist anndata bin_size
     random_sampling draw
   = Raise ZeroDivisionError)
  ∧ (0 < bin_size → NoDup (keys ref_marker) → (0 < g)%nat →
     get_genelist = Ok [] → 0 < random_sampling →
     score_clusters user_ref parse_ref get_genelist anndata bin_size
       random_sampling draw
     = Raise ValueError).
Proof.
  intros clustering_present ranking_present ranking_shape ranks reference.
  rewrite (score_clusters_after_scoring user_ref parse_ref get_genelist
             anndata bin_size random_sampling draw rgg g n ref_marker)
    by done.
  split.
  - intros ->. done.
  - intros Hbs Hnd Hg -> HK.
    rewrite score_iter_table, !bind_Ok by (done || lia).
    rewrite permutation_test_empty_pool; [done| |done].
    intros Hnil. apply (f_equal length) in Hnil.
    rewrite (length_blocks rgg g n) in Hnil by done. simpl in Hnil. nia.
Qed.

(** X10: Without a permutation round: K = 0 raises ZeroDivisionError as soon
    as there is a group, a cell type and a full bin; a negative K
    returns 'DONE' with every p-value equal to 0, whatever the scores
    and the gene list. *)
Theorem score_clusters_without_rounds
    (user_ref : option ref_frame) (parse_ref : res ref_frame)
    (get_genelist : res (list string)) (anndata : AnnData)
    (bin_size random_sampling : Z) (draw : nat → nat → nat)
    (rgg : rank_genes_groups) (g n : nat) (ref_marker : ref_frame)
    (gene_list : list string) :
  is_Some (dict_get "louvain"%string (obs anndata))
  ∨ is_Some (dict_get "leiden"%string (obs anndata)) →
  uns_rank_genes_groups anndata = Some rgg →
  well_shaped rgg g n → (0 < n)%nat →
  match user_ref with Some r => Ok r | None => parse_ref end = Ok ref_marker →
  0 < bin_size → NoDup (keys ref_marker) → get_genelist = Ok gene_list →
  (random_sampling = 0 → (0 < g)%nat → keys ref_marker ≠ [] →
   bin_size ≤ Z.of_nat n →
   score_clusters user_ref parse_ref get_genelist anndata bin_size
     random_sampling draw
   = Raise ZeroDivisionError)
  ∧ (random_sampling < 0 →
     ∃ stat_dict ref_score,
       score_clusters user_ref parse_ref get_genelist anndata bin_size
         random_sampling draw
       = Ok ("DONE"%string,
             {| n_obs := n_obs anndata;
                obs := obs anndata;
                uns_rank_genes_groups := Some rgg;
                uns_scoreCT :=
                  Some (ScoreCT stat_dict ref_score (groupby rgg) None) |})
       ∧ keys stat_dict = keys ref_score
       ∧ ∀ clust ct,
           (is_Some (entry stat_dict clust ct)
            ↔ is_Some (entry ref_score clust ct))
           ∧ ∀ p, entry stat_dict clust ct = Some p → (p == 0)%Q).
Proof.
  intros clustering_present ranking_present ranking_shape ranks reference.
  intros Hbs Hnd Hgl.
  rewrite (score_clusters_after_scoring user_ref parse_ref get_genelist
             anndata bin_size random_sampling draw rgg g n ref_marker)
    by done.
  rewrite score_iter_table, bind_Ok by (done || lia).
  rewrite Hgl, bind_Ok. split.
  - intros -> Hg Hkeys Hle.
    rewrite permutation_test_no_round by done.
    rewrite scored_types_all by done.
    destruct (clusters (concat (group_rows rgg <$> seq 0 g)))
      as [|c cs] eqn:Hcs.
    { assert (Z.of_nat 0 ∈ clusters (concat (group_rows rgg <$> seq 0 g)))
        as Hin by (eapply elem_of_clusters_blocks; eauto).
      rewrite Hcs in Hin. by apply elem_of_nil in Hin. }
    destruct (keys ref_marker) as [|ct cts]; [done|]. done.
  - intros HK.
    rewrite permutation_test_no_round by lia.
    rewrite stat_dict_spec, bind_Ok by lia.
    rewrite ranking_present. do 2 eexists. split; [done|].
    split; [by rewrite !keys_table|].
    intros clust ct. split.
    + split; intros [v Hv]; apply entry_table_inv in Hv as (Hc & Hct & _);
        rewrite entry_table by done; by eexists.
    + intros p (_ & _ & ->)%entry_table_inv. unfold Qdiv.
      by rewrite Qmult_0_l.
Qed.

Lemma score_clusters_bad_arguments_witness :
  score_clusters (Some example_ref) (Raise KeyError) (Raise KeyError)
    example_anndata 0 3 example_draw
  = Raise ZeroDivisionError
  ∧ score_clusters (Some example_ref) (Raise KeyError) (Ok [])
      example_anndata 2 3 example_draw
    = Raise ValueError.
Proof.
  split.
  - destruct (score_clusters_bad_arguments (Some example_ref)
                (Raise KeyError) (Raise KeyError) example_anndata 0 3
                example_draw example_rgg 2 4 example_ref) as [H _].
    + left. by eexists.
    + reflexivity.
    + repeat split; try reflexivity; repeat constructor.
    + lia.
    + reflexivity.
    + by apply H.
  - destruct (score_clusters_bad_arguments (Some example_ref)
                (Raise KeyError) (Ok []) example_anndata 2 3
                example_draw example_rgg 2 4 example_ref) as [_ H].
    + left. by eexists.
    + reflexivity.
    + repeat split; try reflexivity; repeat constructor.
    + lia.
    + reflexivity.
    + apply H; [lia| |lia|reflexivity|lia].
      apply (bool_decide_unpack _). vm_compute. reflexivity.
Defined.

Lemma score_clusters_without_rounds_witness :
  score_clusters (Some example_ref) (Raise KeyError) (Ok example_pool)
    example_anndata 2 0 example_draw
  = Raise ZeroDivisionError
  ∧ ∃ stat_dict ref_score,
      score_clusters (Some example_ref) (Raise KeyError) (Ok example_pool)
        example_anndata 2 (-1) example_draw
      = Ok ("DONE"%string,
            {| n_obs := n_obs example_anndata;
               obs := obs example_anndata;
               uns_rank_genes_groups := Some example_rgg;
               uns_scoreCT :=
                 Some (ScoreCT stat_dict ref_score (groupby example_rgg)
                         None) |})
      ∧ keys stat_dict = keys ref_score
      ∧ ∀ clust ct,
          (is_Some (entry stat_dict clust ct)
           ↔ is_Some (entry ref_score clust ct))
          ∧ ∀ p, entry stat_dict clust ct = Some p → (p == 0)%Q.
Proof.
  split.
  - destruct (score_clusters_without_rounds (Some example_ref)
                (Raise KeyError) (Ok example_pool) example_anndata 2 0
                example_draw example_rgg 2 4 example_ref example_pool)
      as [H _].
    + left. by eexists.
    + reflexivity.
    + repeat split; try reflexivity; repeat constructor.
    + lia.
    + reflexivity.
    + lia.
    + apply (bool_decide_unpack _). vm_compute. reflexivity.
    + reflexivity.
    + apply H; [reflexivity|lia|discriminate|simpl; lia].
  - destruct (score_clusters_without_rounds (Some example_ref)
                (Raise KeyError) (Ok example_pool) example_anndata 2 (-1)
                example_draw example_rgg 2 4 example_ref example_pool)
      as [_ H].
    + left. by eexists.
    + reflexivity.
    + repeat split; try reflexivity; repeat constructor.
    + lia.
    + reflexivity.
    + lia.
    + apply (bool_decide_unpack _). vm_compute. reflexivity.
    + reflexivity.
    + apply H. lia.
Defined.

(** ** From [score_clusters] to [assign_celltypes] *)

Lemma table_no_type {V : Type} (cs : list Z) (f : Z → string → V) :
  table cs [] f = (fun c => (c, [])) <$> cs.
Proof. reflexivity. Qed.

Lemma assign_celltypes_empty_cluster (anndata : AnnData) slot pval_thrsh
    clust rest :
  uns_scoreCT anndata = Some slot →
  slot_pval_dict slot = (clust, []) :: rest →
  assign_celltypes anndata pval_thrsh = Raise ValueError.
Proof.
  intros Hslot Hp. unfold assign_celltypes. rewrite Hslot, Hp.
  cbn [keys fmap list_fmap fst for_each]. unfold assign_type, dict_item.
  cbn [dict_get]. by rewrite decide_True.
Qed.

(** X11: When no cell type can be scored, because the ranking is shorter
    than one bin or the reference has no column, [score_clusters]
    still returns 'DONE', with an empty dict for every group, and
    [assign_celltypes] on its result raises ValueError for every
    threshold (the minimum of no p-value). *)
Theorem assign_celltypes_after_empty_scoring
    (user_ref : option ref_frame) (parse_ref : res ref_frame)
    (get_genelist : res (list string)) (anndata : AnnData)
    (bin_size random_sampling : Z) (draw : nat → nat → nat)
    (rgg : rank_genes_groups) (g n : nat) (ref_marker : ref_frame)
    (gene_list : list string) :
  is_Some (dict_get "louvain"%string (obs anndata))
  ∨ is_Some (dict_get "leiden"%string (obs anndata)) →
  uns_rank_genes_groups anndata = Some rgg →
  well_shaped rgg g n → (0 < n)%nat → (0 < g)%nat →
  match user_ref with Some r => Ok r | None => parse_ref end = Ok ref_marker →
  NoDup (keys ref_marker) →
  get_genelist = Ok gene_list → gene_list ≠ [] →
  0 < bin_size → 0 < random_sampling →
  Z.of_nat n < bin_size ∨ ref_marker = [] →
  ∃ scored,
    score_clusters user_ref parse_ref get_genelist anndata bin_size
      random_sampling draw
    = Ok ("DONE"%string, scored)
    ∧ (∃ slot, uns_scoreCT scored = Some slot
               ∧ Forall (fun kv => kv.2 = []) (slot_pval_dict slot)
               ∧ Forall (fun kv => kv.2 = []) (slot_score_dict slot))
    ∧ ∀ pval_thrsh, assign_celltypes scored pval_thrsh = Raise ValueError.
Proof.
  intros Hcl Hrgg Hshape Hn Hg Href Hnd Hgl Hpool Hbs HK Hempty.
  rewrite (score_clusters_after_scoring user_ref parse_ref get_genelist
             anndata bin_size random_sampling draw rgg g n ref_marker)
    by done.
  rewrite score_iter_table, bind_Ok by (done || lia).
  rewrite Hgl, bind_Ok.
  rewrite permutation_test_table, bind_Ok by (done || lia).
  assert (scored_types (Z.of_nat n) bin_size ref_marker = []) as ->.
  { unfold scored_types. destruct Hempty as [Hlt| ->].
    - rewrite decide_True; [done|]. unfold num_bins.
      rewrite Z.quot_small by lia. done.
    - by destruct (decide _). }
  rewrite !table_no_type.
  eexists. split; [done|]. split.
  - eexists. split; [done|]. simpl.
    split; apply Forall_fmap, Forall_forall; done.
  - intros pval_thrsh.
    destruct (clusters (concat (group_rows rgg <$> seq 0 g)))
      as [|c cs] eqn:Hcs.
    { assert (Z.of_nat 0 ∈ clusters (concat (group_rows rgg <$> seq 0 g)))
        as Hin by (eapply elem_of_clusters_blocks; eauto).
      rewrite Hcs in Hin. by apply elem_of_nil in Hin. }
    by eapply assign_celltypes_empty_cluster.
Qed.

Lemma assign_celltypes_after_empty_scoring_witness :
  ∃ scored,
    score_clusters (Some example_ref) (Raise KeyError) (Ok example_pool)
      example_anndata 5 3 example_draw
    = Ok ("DONE"%string, scored)
    ∧ (∃ slot, uns_scoreCT scored = Some slot
               ∧ Forall (fun kv => kv.2 = []) (slot_pval_dict slot)
               ∧ Forall (fun kv => kv.2 = []) (slot_score_dict slot))
    ∧ ∀ pval_thrsh, assign_celltypes scored pval_thrsh = Raise ValueError.
Proof.
  apply (assign_celltypes_after_empty_scoring (Some example_ref)
           (Raise KeyError) (Ok example_pool) example_anndata 5 3
           example_draw example_rgg 2 4 example_ref example_pool).
  - left. by eexists.
  - reflexivity.
  - repeat split; try reflexivity; repeat constructor.
  - lia.
  - lia.
  - reflexivity.
  - apply (bool_decide_unpack _). vm_compute. reflexivity.
  - reflexivity.
  - discriminate.
  - lia.
  - lia.
  - left. simpl. lia.
Defined.

(** ** The label of a cluster *)

Lemma Qltb_lt (x y : Q) : Qltb x y = true ↔ (x < y)%Q.
Proof.
  unfold Qltb. rewrite negb_true_iff, <- not_true_iff_false, Qle_bool_iff.
  split; [apply Qnot_le_lt | apply Qlt_not_le].
Qed.

Lemma Qltb_ge (x y : Q) : Qltb x y = false ↔ (y <= x)%Q.
Proof. unfold Qltb. by rewrite negb_false_iff, Qle_bool_iff. Qed.

Lemma foldl_min_spec (l : list Q) (x : Q) :
  let m := foldl (fun m y => if Qltb y m then y else m) x l in
  m ∈ x :: l ∧ (m <= x)%Q ∧ Forall (fun y => (m <= y)%Q) l.
Proof.
  revert x. induction l as [|y l IH]; intros x; cbn [foldl].
  - split; [by left|]. split; [apply Qle_refl | constructor].
  - destruct (IH (if Qltb y x then y else x)) as (Hin & Hle & Hall).
    destruct (Qltb y x) eqn:Hyx.
    + apply Qltb_lt in Hyx. split; [by right|].
      split; [eapply Qle_trans; [done | by apply Qlt_le_weak]|].
      by constructor.
    + apply Qltb_ge in Hyx. split.
      * apply elem_of_cons in Hin as [->|Hin]; [by left | by do 2 right].
      * split; [done|]. constructor; [by eapply Qle_trans | done].
Qed.

Lemma min_float_spec (l : list Q) (m : Q) :
  min_float l = Ok m → m ∈ l ∧ Forall (fun y => (m <= y)%Q) l.
Proof.
  destruct l as [|x l]; [done|]. intros [= <-].
  destruct (foldl_min_spec l x) as (Hin & Hle & Hall).
  split; [done | by constructor].
Qed.

Lemma min_float_Ok (l : list Q) : l ≠ [] → ∃ m, min_float l = Ok m.
Proof. destruct l; [done|]. intros _. by eexists. Qed.

(** The key [max(d, key=d.get)] or [min(d, key=d.get)] returns: an item
    of the dict that no item beats. *)
Section FirstBest.
Context {K V : Type} (better : V → V → bool).
Hypothesis irreflexive : ∀ v, better v v = false.
Hypothesis transitive :
  ∀ a b c, better a b = true → better b c = true → better a c = true.
Hypothesis negatively_transitive :
  ∀ a b c, better a b = false → better b c = false → better a c = false.

Lemma first_best_spec (d : dict K V) (best : K * V) :
  let r := first_best better best d in
  r ∈ best :: d ∧ better best.2 r.2 = false
  ∧ Forall (fun kv => better kv.2 r.2 = false) d.
Proof.
  revert best. induction d as [|[k v] d IH]; intros best; cbn [first_best].
  - split; [by left|]. split; [apply irreflexive | constructor].
  - destruct (IH (if better v best.2 then (k, v) else best))
      as (Hin & Hb & Hall).
    destruct (better v best.2) eqn:Hv.
    + split; [by right|]. cbn [snd] in Hb. split; [|by constructor].
      destruct (better best.2 _) eqn:Hbb; [|done].
      by rewrite (transitive _ _ _ Hv Hbb) in Hb.
    + split; [apply elem_of_cons in Hin as [->|Hin];
                [by left | by do 2 right]|].
      split; [done|]. constructor; [|done].
      by apply (negatively_transitive _ _ _ Hv Hb).
Qed.

Lemma extremal_key_spec (d : dict K V) (k : K) :
  extremal_key better d = Ok k →
  ∃ v, (k, v) ∈ d ∧ Forall (fun kv => better kv.2 v = false) d.
Proof.
  destruct d as [|kv d]; [done|]. cbn [extremal_key]. intros [= <-].
  destruct (first_best_spec d kv) as (Hin & Hb & Hall).
  exists (first_best better kv d).2. split; [by destruct (first_best _ _ _)|].
  by constructor.
Qed.
End FirstBest.

Lemma min_key_spec {K : Type} (d : dict K Q) (k : K) :
  extremal_key (fun v best => Qltb v best) d = Ok k →
  ∃ v, (k, v) ∈ d ∧ Forall (fun kv => (v <= kv.2)%Q) d.
Proof.
  intros H. apply extremal_key_spec in H as (v & Hin & Hall).
  - exists v. split; [done|]. eapply Forall_impl; [done|].
    intros kv Hkv. by apply Qltb_ge.
  - intros v. apply Qltb_ge, Qle_refl.
  - intros a b c Hab%Qltb_lt Hbc%Qltb_lt. apply Qltb_lt.
    by eapply Qlt_trans.
  - intros a b c Hab%Qltb_ge Hbc%Qltb_ge. apply Qltb_ge.
    by eapply Qle_trans.
Qed.

Lemma max_key_spec {K : Type} (d : dict K Z) (k : K) :
  extremal_key (fun v best => best <? v) d = Ok k →
  ∃ v, (k, v) ∈ d ∧ Forall (fun kv => kv.2 ≤ v) d.
Proof.
  intros H. apply extremal_key_spec in H as (v & Hin & Hall).
  - exists v. split; [done|]. eapply Forall_impl; [done|].
    intros kv Hkv. simpl in Hkv. lia.
  - intros v. lia.
  - intros a b c. lia.
  - intros a b c. lia.
Qed.

Lemma NoDup_keys_item {K V : Type} (d : dict K V) k v v' :
  NoDup (keys d) → (k, v) ∈ d → (k, v') ∈ d → v = v'.
Proof.
  unfold keys. induction d as [|[k0 v0] d IH]; intros Hnd H1 H2.
  - by apply elem_of_nil in H1.
  - rewrite fmap_cons in Hnd. apply NoDup_cons in Hnd as [Hk0 Hnd].
    apply elem_of_cons in H1 as [E1|H1];
      apply elem_of_cons in H2 as [E2|H2].
    + congruence.
    + injection E1 as -> ->. destruct Hk0. apply list_elem_of_fmap.
      by exists (k0, v').
    + injection E2 as -> ->. destruct Hk0. apply list_elem_of_fmap.
      by exists (k0, v).
    + by apply IH.
Qed.

Lemma tied_keys_size (cluster_pvals : dict string Q) (m : Q) :
  (1 < size (list_to_set
               (keys (filter (fun kv => Qeqb kv.2 m = true) cluster_pvals))
             : gset string))%nat
  ↔ ∃ ct1 p1 ct2 p2,
      (ct1, p1) ∈ cluster_pvals ∧ (ct2, p2) ∈ cluster_pvals ∧ ct1 ≠ ct2
      ∧ (p1 == m)%Q ∧ (p2 == m)%Q.
Proof.
  set (X := list_to_set _ : gset string).
  assert (∀ ct, ct ∈ X ↔ ∃ p, (ct, p) ∈ cluster_pvals ∧ (p == m)%Q) as HX.
  { intros ct. unfold X, keys. rewrite elem_of_list_to_set, list_elem_of_fmap.
    split.
    - intros ([ct' p] & -> & [Hq Hin]%list_elem_of_filter). exists p.
      split; [done|]. by apply Qeq_bool_iff.
    - intros (p & Hin & Hq). exists (ct, p). split; [done|].
      apply list_elem_of_filter. split; [|done]. by apply Qeq_bool_iff. }
  clearbody X. split.
  - intros Hsize.
    destruct (size_pos_elem_of X) as [ct1 H1]; [lia|].
    destruct (size_pos_elem_of (X ∖ {[ct1]})) as [ct2 H2].
    { rewrite size_difference by (by apply singleton_subseteq_l).
      rewrite size_singleton. lia. }
    apply elem_of_difference in H2 as [H2 Hne%not_elem_of_singleton].
    apply HX in H1 as (p1 & ? & ?). apply HX in H2 as (p2 & ? & ?).
    exists ct1, p1, ct2, p2. done.
  - intros (ct1 & p1 & ct2 & p2 & H1 & H2 & Hne & Hq1 & Hq2).
    assert ({[ct1; ct2]} ⊆ X) as Hsub.
    { intros ct [->%elem_of_singleton| ->%elem_of_singleton]%elem_of_union;
        apply HX; eauto. }
    apply subseteq_size in Hsub.
    rewrite size_union, !size_singleton in Hsub; [lia|].
    by apply disjoint_singleton_l, not_elem_of_singleton.
Qed.

(** X12: A cell type whose p-value is below that of every other cell type of
    the cluster, and within the threshold, is the label of the
    cluster, whatever the scores are (the score dict is not read). *)
Theorem assign_type_unique_minimum
    (pvals : pval_dict) (score : score_dict) (cluster : Z) (pval_thrsh : Q)
    (cluster_pvals : dict string Q) (ct : string) (p : Q) :
  dict_get cluster pvals = Some cluster_pvals →
  NoDup (keys cluster_pvals) →
  (ct, p) ∈ cluster_pvals →
  (∀ ct' p', (ct', p') ∈ cluster_pvals → ct' ≠ ct → (p < p')%Q) →
  (p <= pval_thrsh)%Q →
  assign_type pvals score cluster pval_thrsh = Ok ct.
Proof.
  intros Hp Hnd Hin Hmin Hthr.
  assert (∀ ct' p', (ct', p') ∈ cluster_pvals → (p' <= p)%Q →
                    ct' = ct ∧ p' = p) as Honly.
  { intros ct' p' Hin' Hle. destruct (decide (ct' = ct)) as [->|Hne].
    - split; [done|]. by eapply NoDup_keys_item.
    - apply Qle_not_lt in Hle. destruct Hle. by eapply Hmin. }
  unfold assign_type, dict_item. rewrite Hp, bind_Ok.
  destruct (min_float_Ok (values cluster_pvals)) as [m Hm].
  { intros Hnil. destruct cluster_pvals; [by apply elem_of_nil in Hin|done]. }
  rewrite Hm, bind_Ok.
  destruct (min_float_spec _ _ Hm) as (Hmin_in & Hall).
  assert (m = p) as ->.
  { unfold values in Hmin_in.
    apply list_elem_of_fmap in Hmin_in as ([ct' p'] & -> & Hin').
    apply (Honly ct' p' Hin'). rewrite Forall_forall in Hall. apply Hall.
    unfold values. apply list_elem_of_fmap. by exists (ct, p). }
  rewrite (proj2 (Qltb_ge pval_thrsh p)) by done.
  unfold best_type. rewrite bool_decide_eq_false_2.
  - destruct (extremal_key_Ok (fun v best => Qltb v best) cluster_pvals)
      as [k Hk]; [by intros ->; apply elem_of_nil in Hin|].
    rewrite Hk. f_equal.
    apply min_key_spec in Hk as (v & Hkv & Hkall).
    apply (Honly k v Hkv). rewrite Forall_forall in Hkall.
    by apply (Hkall (ct, p)).
  - rewrite tied_keys_size.
    intros (ct1 & p1 & ct2 & p2 & H1 & H2 & Hne & Hq1 & Hq2).
    apply Hne. etrans; [|symmetry].
    + apply (Honly ct1 p1 H1). rewrite Hq1. apply Qle_refl.
    + apply (Honly ct2 p2 H2). rewrite Hq2. apply Qle_refl.
Qed.

Lemma assign_type_unique_minimum_witness :
  assign_type [(0, [("A"%string, (3 # 10)%Q); ("B"%string, (1 # 10)%Q)])]
    [] 0 (1 # 10)%Q
  = Ok "B"%string.
Proof.
  apply (assign_type_unique_minimum _ _ _ _
           [("A"%string, (3 # 10)%Q); ("B"%string, (1 # 10)%Q)] _
           (1 # 10)%Q).
  - reflexivity.
  - apply (bool_decide_unpack _). vm_compute. reflexivity.
  - right. left.
  - intros ct' p' Hin Hne.
    apply elem_of_cons in Hin as [[= -> ->]|Hin]; [reflexivity|].
    apply elem_of_cons in Hin as [[= -> ->]|Hin]; [done|].
    by apply elem_of_nil in Hin.
  - apply Qle_refl.
Defined.

(** X13: When two cell types share the minimum p-value of the cluster,
    within the threshold, the label is a cell type of greatest raw
    score among all the cell types of the cluster. *)
Theorem assign_type_tie_takes_best_score
    (pvals : pval_dict) (score : score_dict) (cluster : Z) (pval_thrsh : Q)
    (cluster_pvals : dict string Q) (cluster_scores : dict string Z)
    (ct1 ct2 : string) (p1 p2 : Q) :
  dict_get cluster pvals = Some cluster_pvals →
  dict_get cluster score = Some cluster_scores →
  cluster_scores ≠ [] →
  (ct1, p1) ∈ cluster_pvals → (ct2, p2) ∈ cluster_pvals → ct1 ≠ ct2 →
  (p1 == p2)%Q →
  Forall (fun kv => (p1 <= kv.2)%Q) cluster_pvals →
  (p1 <= pval_thrsh)%Q →
  ∃ ct s,
    assign_type pvals score cluster pval_thrsh = Ok ct
    ∧ (ct, s) ∈ cluster_scores
    ∧ Forall (fun kv => kv.2 ≤ s) cluster_scores.
Proof.
  intros Hp Hs Hne H1 H2 Hct Hq Hall Hthr.
  unfold assign_type, dict_item. rewrite Hp, bind_Ok.
  destruct (min_float_Ok (values cluster_pvals)) as [m Hm].
  { intros Hnil. destruct cluster_pvals; [by apply elem_of_nil in H1|done]. }
  rewrite Hm, bind_Ok.
  destruct (min_float_spec _ _ Hm) as (Hmin_in & Hmall).
  assert (m == p1)%Q as Hmp.
  { apply Qle_antisym.
    - rewrite Forall_forall in Hmall. apply Hmall. unfold values.
      apply list_elem_of_fmap. by exists (ct1, p1).
    - unfold values in Hmin_in.
      apply list_elem_of_fmap in Hmin_in as (kv & -> & Hkv).
      rewrite Forall_forall in Hall. by apply Hall. }
  rewrite (proj2 (Qltb_ge pval_thrsh m)) by (by rewrite Hmp).
  unfold best_type. rewrite bool_decide_eq_true_2.
  - unfold dict_item. rewrite Hs, bind_Ok.
    destruct (extremal_key_Ok (fun v best => best <? v) cluster_scores Hne)
      as [ct Hk].
    apply max_key_spec in Hk as Hspec. destruct Hspec as (s & Hin & Hsall).
    by exists ct, s.
  - apply tied_keys_size. exists ct1, p1, ct2, p2.
    split_and!; try done; by rewrite Hmp, ?Hq.
Qed.

Lemma assign_type_tie_takes_best_score_witness :
  ∃ ct s,
    assign_type
      [(0, [("A"%string, (2 # 100)%Q); ("B"%string, (2 # 100)%Q);
            ("C"%string, (1 # 2)%Q)])]
      [(0, [("A"%string, 10); ("B"%string, 15); ("C"%string, 20)])]
      0 (1 # 10)%Q
    = Ok ct
    ∧ (ct, s) ∈ [("A"%string, 10); ("B"%string, 15); ("C"%string, 20)]
    ∧ Forall (fun kv => kv.2 ≤ s)
        [("A"%string, 10); ("B"%string, 15); ("C"%string, 20)].
Proof.
  apply (assign_type_tie_takes_best_score _ _ _ _
           [("A"%string, (2 # 100)%Q); ("B"%string, (2 # 100)%Q);
            ("C"%string, (1 # 2)%Q)] _
           "A"%string "B"%string (2 # 100)%Q (2 # 100)%Q).
  - reflexivity.
  - reflexivity.
  - discriminate.
  - left.
  - right. left.
  - discriminate.
  - reflexivity.
  - repeat constructor; simpl; unfold Qle; simpl; lia.
  - unfold Qle. simpl. lia.
Defined.

(** X14: Raising the threshold changes the label of no cluster but those
    labelled 'NA': for a larger threshold the outcome of a cluster,
    label or exception, is the same unless it was 'NA'. *)
Theorem assign_type_threshold_monotone
    (pvals : pval_dict) (score : score_dict) (cluster : Z)
    (pval_thrsh pval_thrsh' : Q) :
  (pval_thrsh <= pval_thrsh')%Q →
  assign_type pvals score cluster pval_thrsh = Ok "NA"%string
  ∨ assign_type pvals score cluster pval_thrsh'
    = assign_type pvals score cluster pval_thrsh.
Proof.
  intros Hle. unfold assign_type.
  destruct (dict_item pvals cluster) as [cluster_pvals|e]; [|by right].
  rewrite !bind_Ok.
  destruct (min_float (values cluster_pvals)) as [m|e]; [|by right].
  rewrite !bind_Ok.
  destruct (Qltb pval_thrsh m) eqn:Hm; [by left|]. right.
  apply Qltb_ge in Hm.
  by rewrite (proj2 (Qltb_ge pval_thrsh' m)) by (by eapply Qle_trans).
Qed.

Lemma assign_type_threshold_monotone_witness :
  assign_type [(0, [("A"%string, (3 # 10)%Q)])] [] 0 (1 # 10)%Q
  = Ok "NA"%string
  ∨ assign_type [(0, [("A"%string, (3 # 10)%Q)])] [] 0 (1 # 2)%Q
    = assign_type [(0, [("A"%string, (3 # 10)%Q)])] [] 0 (1 # 10)%Q.
Proof.
  apply assign_type_threshold_monotone. unfold Qle. simpl. lia.
Defined.

(** ** [assign_celltypes]: the column of labels *)

Section DictUpdates.
Context {K V : Type} `{EqDecision K}.
Implicit Types (d : dict K V) (k : K) (v : V).

Lemma dict_get_set_eq d k v : dict_get k (dict_set k v d) = Some v.
Proof.
  induction d as [|[k' v'] d IH]; simpl.
  - by rewrite decide_True.
  - destruct (decide (k' = k)) as [->|Hne]; simpl.
    + by rewrite decide_True.
    + by rewrite decide_False.
Qed.

Lemma dict_get_set_ne d k k' v :
  k' ≠ k → dict_get k' (dict_set k v d) = dict_get k' d.
Proof.
  intros Hne. induction d as [|[k0 v0] d IH]; simpl.
  - by rewrite decide_False.
  - destruct (decide (k0 = k)) as [->|Hne0]; simpl.
    + by rewrite !decide_False by done.
    + by rewrite IH.
Qed.

Lemma dict_set_set d k v v' :
  dict_set k v (dict_set k v' d) = dict_set k v d.
Proof.
  induction d as [|[k0 v0] d IH]; simpl.
  - by rewrite decide_True.
  - destruct (decide (k0 = k)) as [->|Hne]; simpl.
    + by rewrite decide_True.
    + rewrite decide_False by done. by rewrite IH.
Qed.
Lemma dict_item_Some d k v : dict_get k d = Some v → dict_item d k = Ok v.
Proof. intros H. unfold dict_item. by rewrite H. Qed.

Lemma dict_item_set_eq d k v : dict_item (dict_set k v d) k = Ok v.
Proof. unfold dict_item. by rewrite dict_get_set_eq. Qed.

Lemma dict_item_set_ne d k k' v :
  k' ≠ k → dict_item (dict_set k v d) k' = dict_item d k'.
Proof. intros Hne. unfold dict_item. by rewrite dict_get_set_ne. Qed.
End DictUpdates.

Lemma length_broadcast labels cluster assign scorect :
  length labels = length scorect →
  length (broadcast labels cluster assign scorect) = length scorect.
Proof. intros H. unfold broadcast. rewrite length_zip_with. lia. Qed.

Lemma lookup_broadcast labels cluster assign scorect (j : nat) l old :
  labels !! j = Some l → scorect !! j = Some old →
  broadcast labels cluster assign scorect !! j
  = Some (if decide (l = pretty cluster) then assign else old).
Proof.
  intros Hl Ho. unfold broadcast. rewrite lookup_zip_with, Hl. simpl.
  by rewrite Ho.
Qed.

Lemma labelled_cons labels label_of c cs scorect :
  labelled labels label_of (c :: cs) scorect
  = labelled labels label_of cs (broadcast labels c (label_of c) scorect).
Proof. reflexivity. Qed.

Lemma length_labelled labels label_of cs scorect :
  length labels = length scorect →
  length (labelled labels label_of cs scorect) = length scorect.
Proof.
  revert scorect. induction cs as [|c cs IH]; intros scorect H; [done|].
  rewrite labelled_cons.
  rewrite IH; rewrite length_broadcast; done.
Qed.

Lemma lookup_labelled_other labels label_of cs scorect (j : nat) l old :
  length labels = length scorect →
  labels !! j = Some l → scorect !! j = Some old →
  (∀ c, c ∈ cs → l ≠ pretty c) →
  labelled labels label_of cs scorect !! j = Some old.
Proof.
  revert scorect. induction cs as [|c cs IH]; intros scorect Hlen Hl Ho Hne;
    [done|].
  rewrite labelled_cons.
  apply IH.
  - by rewrite length_broadcast.
  - done.
  - rewrite (lookup_broadcast _ _ _ _ _ l old) by done.
    rewrite decide_False; [done|]. apply Hne. by left.
  - intros c' Hc'. apply Hne. by right.
Qed.

Lemma lookup_labelled labels label_of cs scorect (j : nat) c old :
  length labels = length scorect → NoDup cs →
  labels !! j = Some (pretty c) → scorect !! j = Some old → c ∈ cs →
  labelled labels label_of cs scorect !! j = Some (label_of c).
Proof.
  revert scorect old.
  induction cs as [|c0 cs IH]; intros scorect old Hlen Hnd Hl Ho Hc.
  - by apply elem_of_nil in Hc.
  - apply NoDup_cons in Hnd as [Hc0 Hnd].
    rewrite labelled_cons.
    destruct (decide (c = c0)) as [->|Hne].
    + apply (lookup_labelled_other _ _ _ _ _ (pretty c0)).
      * by rewrite length_broadcast.
      * done.
      * rewrite (lookup_broadcast _ _ _ _ _ (pretty c0) old) by done.
        by rewrite decide_True.
      * intros c' Hc' Heq. apply (inj pretty) in Heq. by subst.
    + apply elem_of_cons in Hc as [?|Hc]; [done|].
      eapply IH; [by rewrite length_broadcast|done|done| |done].
      by apply (lookup_broadcast _ _ _ _ _ (pretty c) old).
Qed.

(** The loop of lines 536-550 on a state whose [obs] is the original
    one with a 'scorect' column. *)
Lemma assign_loop (pvals : pval_dict) (score : score_dict)
    (clust_method : string) (pval_thrsh : Q) (obs0 : dict string (list string))
    (labels : list string) (label_of : Z → string) (cs : list Z) :
  clust_method ≠ "scorect"%string →
  dict_get clust_method obs0 = Some labels →
  (∀ c, c ∈ cs → assign_type pvals score c pval_thrsh = Ok (label_of c)) →
  ∀ scorect thrsh,
    for_each cs
      (fun cluster '(obs', thrsh) =>
         assign ← assign_type pvals score cluster pval_thrsh;
         labels ← dict_item obs' clust_method;
         scorect ← dict_item obs' "scorect"%string;
         Ok (dict_set "scorect"%string
               (broadcast labels cluster assign scorect) obs',
             Some pval_thrsh))
      (dict_set "scorect"%string scorect obs0, thrsh)
    = Ok (dict_set "scorect"%string
            (labelled labels label_of cs scorect) obs0,
          if cs is [] then thrsh else Some pval_thrsh).
Proof.
  intros Hne Hlabels. induction cs as [|c cs IH]; intros Hassign scorect thrsh.
  - done.
  - cbn [for_each]. rewrite Hassign by left. rewrite bind_Ok.
    rewrite (dict_item_set_ne _ _ clust_method) by done.
    rewrite (dict_item_Some _ _ _ Hlabels), bind_Ok, dict_item_set_eq, !bind_Ok, dict_set_set.
    rewrite IH by (intros c' Hc'; apply Hassign; by right).
    by destruct cs.
Qed.

(** X15: With the clustering column in [obs] and a label for every cluster
    of the p-value dict, [assign_celltypes] sets the column 'scorect'
    and nothing else in [obs]: a cell whose cluster label is [str(c)]
    for a cluster [c] of the dict gets the label of [c], and every
    other cell gets the empty string; the dicts are kept, and the
    threshold is recorded as soon as there is a cluster. *)
Theorem assign_celltypes_labels (anndata : AnnData) (slot : scoreCT_slot)
    (pval_thrsh : Q) (labels : list string) (label_of : Z → string) :
  uns_scoreCT anndata = Some slot →
  slot_clustering slot ≠ "scorect"%string →
  dict_get (slot_clustering slot) (obs anndata) = Some labels →
  length labels = n_obs anndata →
  NoDup (keys (slot_pval_dict slot)) →
  (∀ c, c ∈ keys (slot_pval_dict slot) →
        assign_type (slot_pval_dict slot) (slot_score_dict slot) c pval_thrsh
        = Ok (label_of c)) →
  ∃ scorect,
    assign_celltypes anndata pval_thrsh
    = Ok ("Cell types assigned in Anndata.obs['scorect']"%string,
          {| n_obs := n_obs anndata;
             obs := dict_set "scorect"%string scorect (obs anndata);
             uns_rank_genes_groups := uns_rank_genes_groups anndata;
             uns_scoreCT :=
               Some (ScoreCT (slot_pval_dict slot) (slot_score_dict slot)
                       (slot_clustering slot)
                       (if keys (slot_pval_dict slot) is []
                        then slot_pval_thrsh slot else Some pval_thrsh)) |})
    ∧ length scorect = n_obs anndata
    ∧ ∀ (j : nat) l, labels !! j = Some l →
        (∀ c, c ∈ keys (slot_pval_dict slot) → l = pretty c →
              scorect !! j = Some (label_of c))
        ∧ ((∀ c, c ∈ keys (slot_pval_dict slot) → l ≠ pretty c) →
           scorect !! j = Some ""%string).
Proof.
  intros Hslot Hne Hlabels Hlen Hnd Hassign.
  exists (labelled labels label_of (keys (slot_pval_dict slot))
            (replicate (n_obs anndata) ""%string)).
  assert (length labels = length (replicate (n_obs anndata) ""%string))
    as Hlen' by (by rewrite length_replicate).
  split; [|split].
  - unfold assign_celltypes. rewrite Hslot.
    by rewrite (assign_loop _ _ _ _ _ labels label_of).
  - rewrite length_labelled by done. by rewrite length_replicate.
  - intros j l Hl.
    assert (replicate (n_obs anndata) ""%string !! j = Some ""%string) as Ho.
    { apply lookup_replicate_2. apply lookup_lt_Some in Hl. lia. }
    split.
    + intros c Hc ->. by eapply lookup_labelled.
    + intros Hother. by eapply lookup_labelled_other.
Qed.

Lemma assign_celltypes_labels_witness :
  ∃ scorect,
    assign_celltypes example_scored (1 # 5)%Q
    = Ok ("Cell types assigned in Anndata.obs['scorect']"%string,
          {| n_obs := 3;
             obs := dict_set "scorect"%string scorect
                      [("louvain"%string, ["0"; "1"; "0"]%string)];
             uns_rank_genes_groups := None;
             uns_scoreCT :=
               Some (ScoreCT [(0, [("T"%string, (1 # 10)%Q)]);
                              (1, [("T"%string, (1 # 2)%Q)])]
                             [(0, [("T"%string, 3)]); (1, [("T"%string, 0)])]
                             "louvain" (Some (1 # 5)%Q)) |})
    ∧ length scorect = 3%nat
    ∧ ∀ (j : nat) l, ["0"; "1"; "0"]%string !! j = Some l →
        (∀ c, c ∈ [0; 1] → l = pretty c →
              scorect !! j
              = Some (if decide (c = 0) then "T" else "NA")%string)
        ∧ ((∀ c, c ∈ [0; 1] → l ≠ pretty c) →
           scorect !! j = Some ""%string).
Proof.
  apply (assign_celltypes_labels example_scored example_slot (1 # 5)%Q
           ["0"; "1"; "0"]%string
           (fun c => if decide (c = 0) then "T" else "NA")%string).
  - reflexivity.
  - discriminate.
  - reflexivity.
  - reflexivity.
  - apply (bool_decide_unpack _). vm_compute. reflexivity.
  - intros c Hc. apply elem_of_cons in Hc as [->|Hc]; [reflexivity|].
    apply elem_of_cons in Hc as [->|Hc]; [reflexivity|].
    by apply elem_of_nil in Hc.
Defined.

Lemma assign_loop_obs (pvals : pval_dict) (score : score_dict)
    (clust_method : string) (pval_thrsh : Q) (obs0 : dict string (list string))
    (cs : list Z) :
  ∀ scorect thrsh obs' thrsh',
    for_each cs
      (fun cluster '(obs', thrsh) =>
         assign ← assign_type pvals score cluster pval_thrsh;
         labels ← dict_item obs' clust_method;
         scorect ← dict_item obs' "scorect"%string;
         Ok (dict_set "scorect"%string
               (broadcast labels cluster assign scorect) obs',
             Some pval_thrsh))
      (dict_set "scorect"%string scorect obs0, thrsh)
    = Ok (obs', thrsh') →
    ∃ scorect', obs' = dict_set "scorect"%string scorect' obs0.
Proof.
  induction cs as [|c cs IH]; intros scorect thrsh obs' thrsh'.
  - intros [= <- <-]. by eexists.
  - cbn [for_each].
    destruct (assign_type pvals score c pval_thrsh) as [a|e]; [|done].
    rewrite bind_Ok.
    destruct (dict_item _ clust_method) as [labels|e]; [|done].
    rewrite bind_Ok, dict_item_set_eq, !bind_Ok, dict_set_set.
    apply IH.
Qed.

Lemma assign_loop_threshold (pvals : pval_dict) (score : score_dict)
    (clust_method : string) (pval_thrsh : Q) (cs : list Z)
    (obs0 : dict string (list string)) (thrsh1 thrsh2 : option Q) :
  cs ≠ [] →
  for_each cs
    (fun cluster '(obs', thrsh) =>
       assign ← assign_type pvals score cluster pval_thrsh;
       labels ← dict_item obs' clust_method;
       scorect ← dict_item obs' "scorect"%string;
       Ok (dict_set "scorect"%string
             (broadcast labels cluster assign scorect) obs',
           Some pval_thrsh))
    (obs0, thrsh1)
  = for_each cs
      (fun cluster '(obs', thrsh) =>
         assign ← assign_type pvals score cluster pval_thrsh;
         labels ← dict_item obs' clust_method;
         scorect ← dict_item obs' "scorect"%string;
         Ok (dict_set "scorect"%string
               (broadcast labels cluster assign scorect) obs',
             Some pval_thrsh))
      (obs0, thrsh2).
Proof. destruct cs as [|c cs]; [done|]. intros _. reflexivity. Qed.

(** X16: A second run of [assign_celltypes], with whatever threshold,
    starts from scratch: on the dataset a first run returned it gives
    what it gives on the dataset the first run started from; no label
    of the first run survives. *)
Theorem assign_celltypes_again (anndata : AnnData) (slot : scoreCT_slot)
    (pval_thrsh1 pval_thrsh2 : Q) (message : string) (assigned : AnnData) :
  uns_scoreCT anndata = Some slot →
  slot_pval_dict slot ≠ [] →
  assign_celltypes anndata pval_thrsh1 = Ok (message, assigned) →
  assign_celltypes assigned pval_thrsh2
  = assign_celltypes anndata pval_thrsh2.
Proof.
  intros Hslot Hne Hrun. unfold assign_celltypes in Hrun |- *.
  rewrite Hslot in Hrun |- *.
  destruct (for_each _ _ _) as [[obs1 thrsh1]|e] eqn:Hloop in Hrun; [|done].
  rewrite bind_Ok in Hrun. injection Hrun as _ <-. cbn [uns_scoreCT].
  cbn [slot_pval_dict slot_score_dict slot_clustering slot_pval_thrsh
       n_obs obs uns_rank_genes_groups].
  apply assign_loop_obs in Hloop as [scorect ->].
  rewrite dict_set_set.
  rewrite (assign_loop_threshold _ _ _ _ _ _ thrsh1 (slot_pval_thrsh slot));
    [done|].
  by destruct (slot_pval_dict slot).
Qed.

Lemma assign_celltypes_again_witness :
  ∃ message assigned,
    assign_celltypes example_scored (1 # 5)%Q = Ok (message, assigned)
    ∧ assign_celltypes assigned (3 # 5)%Q
      = assign_celltypes example_scored (3 # 5)%Q.
Proof.
  do 2 eexists. split; [reflexivity|].
  eapply (assign_celltypes_again example_scored example_slot (1 # 5)%Q
            (3 # 5)%Q).
  - reflexivity.
  - discriminate.
  - reflexivity.
Defined.

(** ** [pval_plot] in the order of the calls *)

Lemma score_clusters_returns
    (user_ref : option ref_frame) (parse_ref : res ref_frame)
    (get_genelist : res (list string)) (anndata : AnnData)
    (bin_size random_sampling : Z) (draw : nat → nat → nat)
    (message : string) (scored : AnnData) :
  score_clusters user_ref parse_ref get_genelist anndata bin_size
    random_sampling draw
  = Ok (message, scored) →
  (message = error_message ∧ scored = anndata)
  ∨ (message = "DONE"%string
     ∧ ∃ stat_dict ref_score clustering,
         scored = {| n_obs := n_obs anndata;
                     obs := obs anndata;
                     uns_rank_genes_groups := uns_rank_genes_groups anndata;
                     uns_scoreCT :=
                       Some (ScoreCT stat_dict ref_score clustering None) |}).
Proof.
  unfold score_clusters.
  destruct (prerequisites_missing anndata); [intros [= <- <-]; by left|].
  destruct (uns_rank_genes_groups anndata) as [rgg|]; [|done].
  destruct (wrangle_ranked_genes rgg) as [ranked_marker|]; [|done].
  rewrite bind_Ok.
  destruct (match user_ref with Some r => Ok r | None => parse_ref end)
    as [ref_marker|]; [|done].
  rewrite bind_Ok.
  destruct (_score_iter _ _ _ _) as [ref_score|]; [|done].
  rewrite bind_Ok.
  destruct get_genelist as [gene_list|]; [|done].
  rewrite bind_Ok.
  destruct (permutation_test _ _ _ _ _ _ _ _) as [stat_dict|]; [|done].
  rewrite bind_Ok. intros [= <- <-]. right. split; [done|].
  by do 3 eexists.
Qed.

Lemma assign_loop_thrsh (pvals : pval_dict) (score : score_dict)
    (clust_method : string) (pval_thrsh : Q) (cs : list Z) :
  ∀ obs0 thrsh obs' thrsh',
    for_each cs
      (fun cluster '(obs', thrsh) =>
         assign ← assign_type pvals score cluster pval_thrsh;
         labels ← dict_item obs' clust_method;
         scorect ← dict_item obs' "scorect"%string;
         Ok (dict_set "scorect"%string
               (broadcast labels cluster assign scorect) obs',
             Some pval_thrsh))
      (obs0, thrsh)
    = Ok (obs', thrsh') →
    thrsh' = if cs is [] then thrsh else Some pval_thrsh.
Proof.
  induction cs as [|c cs IH]; intros obs0 thrsh obs' thrsh'.
  - by intros [= <- <-].
  - cbn [for_each].
    destruct (assign_type pvals score c pval_thrsh) as [a|e]; [|done].
    rewrite bind_Ok.
    destruct (dict_item _ clust_method) as [labels|e]; [|done].
    rewrite bind_Ok.
    destruct (dict_item _ "scorect"%string) as [scorect|e]; [|done].
    rewrite !bind_Ok. intros H%IH. by destruct cs.
Qed.

Lemma assign_celltypes_returns (anndata : AnnData) (slot : scoreCT_slot)
    (pval_thrsh : Q) (message : string) (assigned : AnnData) :
  uns_scoreCT anndata = Some slot →
  assign_celltypes anndata pval_thrsh = Ok (message, assigned) →
  uns_scoreCT assigned
  = Some (ScoreCT (slot_pval_dict slot) (slot_score_dict slot)
            (slot_clustering slot)
            (if slot_pval_dict slot is [] then slot_pval_thrsh slot
             else Some pval_thrsh)).
Proof.
  intros Hslot. unfold assign_celltypes. rewrite Hslot.
  destruct (for_each _ _ _) as [[obs1 thrsh1]|e] eqn:Hloop; [|done].
  rewrite bind_Ok. intros [= _ <-]. cbn [uns_scoreCT].
  apply assign_loop_thrsh in Hloop as ->.
  by destruct (slot_pval_dict slot).
Qed.

Lemma bind_Returned {A B : Type} (f : A → outcome B) (a : A) :
  (Returned a ≫= f) = f a.
Proof. reflexivity. Qed.

Lemma for_each'_figures {figure : Type}
    (render : Z → dict string Q → Q → outcome figure)
    (draw : Z → dict string Q → Q → figure)
    (pvals : pval_dict) (pval_thrsh : Q) (clusters : list Z) :
  (∀ c d t, render c d t = Returned (draw c d t)) →
  (∀ c, c ∈ clusters → c ∈ keys pvals) →
  ∀ figures,
    for_each' clusters (fun cluster figures =>
      cluster_pvals ← of_res (dict_item pvals cluster);
      fig ← render cluster cluster_pvals pval_thrsh;
      Returned (figures ++ [fig])) figures
    = Returned
        (figures
         ++ ((fun c => draw c (default [] (dict_get c pvals)) pval_thrsh)
               <$> clusters)).
Proof.
  intros Hrender. induction clusters as [|c cs IH]; intros Hin figures.
  - simpl. by rewrite app_nil_r.
  - cbn [for_each'].
    destruct (dict_get_is_Some c pvals) as [d Hd]; [apply Hin; by left|].
    rewrite (dict_item_Some _ _ _ Hd). cbn [of_res].
    rewrite bind_Returned, Hrender, !bind_Returned.
    rewrite IH by (intros c' Hc'; apply Hin; by right).
    rewrite fmap_cons, Hd. by rewrite <- app_assoc.
Qed.

(** X17: [pval_plot] before the assignment: with an int for [clusters] it
    raises TypeError on every dataset; on a dataset [score_clusters]
    has just scored it raises KeyError for every list of clusters,
    the threshold being recorded by [assign_celltypes] only. *)
Theorem pval_plot_before_assignment {figure : Type}
    (render : Z → dict string Q → Q → outcome figure)
    (user_ref : option ref_frame) (parse_ref : res ref_frame)
    (get_genelist : res (list string)) (anndata : AnnData)
    (bin_size random_sampling : Z) (draw : nat → nat → nat)
    (scored : AnnData) :
  score_clusters user_ref parse_ref get_genelist anndata bin_size
    random_sampling draw
  = Ok ("DONE"%string, scored) →
  (∀ any cluster, pval_plot render any (IntArg cluster) = Raised TypeError)
  ∧ ∀ clusters,
      pval_plot render scored (ListArg clusters) = Raised (Builtin KeyError).
Proof.
  intros Hrun. split; [done|]. intros clusters.
  apply score_clusters_returns in Hrun
    as [[Hmsg _]|(_ & stat_dict & ref_score & clustering & ->)].
  - discriminate Hmsg.
  - reflexivity.
Qed.

(** X18: [pval_plot] after the assignment: once [assign_celltypes] has
    returned on a scored dataset with a cluster, and when the drawing
    itself does not fail, [pval_plot] returns None after one figure
    per requested cluster, in the order of the request, each drawn
    from the p-values of its cluster and the threshold of the
    assignment. *)
Theorem pval_plot_after_assignment {figure : Type}
    (render : Z → dict string Q → Q → outcome figure)
    (anndata : AnnData) (slot : scoreCT_slot) (pval_thrsh : Q)
    (message : string) (assigned : AnnData) (clusters : list Z)
    (draw : Z → dict string Q → Q → figure) :
  uns_scoreCT anndata = Some slot →
  slot_pval_dict slot ≠ [] →
  assign_celltypes anndata pval_thrsh = Ok (message, assigned) →
  (∀ c d t, render c d t = Returned (draw c d t)) →
  (∀ c, c ∈ clusters → c ∈ keys (slot_pval_dict slot)) →
  pval_plot render assigned (ListArg clusters)
  = Returned
      (None,
       (fun c =>
          draw c (default [] (dict_get c (slot_pval_dict slot))) pval_thrsh)
         <$> clusters).
Proof.
  intros Hslot Hne Hrun Hrender Hin. unfold pval_plot.
  rewrite (assign_celltypes_returns _ _ _ _ _ Hslot Hrun).
  destruct (slot_pval_dict slot) as [|kv pvals] eqn:Hp; [done|].
  cbn [slot_pval_thrsh slot_pval_dict]. rewrite !bind_Returned.
  rewrite (for_each'_figures render draw) by done. done.
Qed.

Lemma pval_plot_before_assignment_witness :
  ∃ scored,
    score_clusters (Some example_ref) (Raise KeyError) (Ok example_pool)
      example_anndata 2 3 example_draw
    = Ok ("DONE"%string, scored)
    ∧ (∀ any cluster,
         pval_plot (fun c d t => Returned (c, d, t)) any (IntArg cluster)
         = Raised TypeError)
    ∧ ∀ clusters,
        pval_plot (fun c d t => Returned (c, d, t)) scored (ListArg clusters)
        = Raised (Builtin KeyError).
Proof.
  eexists. split; [vm_compute; reflexivity|].
  eapply (pval_plot_before_assignment (fun c d t => Returned (c, d, t))
            (Some example_ref) (Raise KeyError) (Ok example_pool)
            example_anndata 2 3 example_draw).
  vm_compute. reflexivity.
Defined.

Lemma pval_plot_after_assignment_witness :
  ∃ message assigned,
    assign_celltypes example_scored (1 # 5)%Q = Ok (message, assigned)
    ∧ pval_plot (fun c d t => Returned (c, d, t)) assigned (ListArg [1; 0])
      = Returned
          (None,
           [(1, [("T"%string, (1 # 2)%Q)], (1 # 5)%Q);
            (0, [("T"%string, (1 # 10)%Q)], (1 # 5)%Q)]).
Proof.
  do 2 eexists. split; [reflexivity|].
  eapply (pval_plot_after_assignment (fun c d t => Returned (c, d, t))
           example_scored example_slot (1 # 5)%Q _ _ [1; 0]
           (fun c d t => (c, d, t))).
  - reflexivity.
  - discriminate.
  - reflexivity.
  - reflexivity.
  - intros c Hc. apply elem_of_cons in Hc as [->|Hc]; [by right; left|].
    apply elem_of_cons in Hc as [->|Hc]; [by left|].
    by apply elem_of_nil in Hc.
Defined.

(** ** [_correct_pval] *)

Lemma dict_tabulate {K V : Type} `{EqDecision K} (d : dict K V) (v0 : V) :
  NoDup (keys d) →
  d = tabulate (keys d) (fun k => default v0 (dict_get k d)).
Proof.
  unfold keys, tabulate. induction d as [|[k v] d IH]; intros Hnd; [done|].
  rewrite fmap_cons in Hnd. apply NoDup_cons in Hnd as [Hk Hnd].
  cbn [fmap list_fmap fst dict_get]. rewrite decide_True by done.
  simpl. f_equal. rewrite IH at 1 by done.
  apply list_fmap_ext. intros i k' Hk'. cbn [fst].
  rewrite decide_False; [done|]. intros <-.
  apply Hk. by eapply list_elem_of_lookup_2.
Qed.

Lemma scaled_tabulate (n : Q) cts (h : string → Q) :
  scaled n (tabulate cts h) = tabulate cts (fun ct => (h ct * n)%Q).
Proof. unfold scaled, tabulate. by rewrite <- list_fmap_compose. Qed.

Lemma correct_cluster (n : Q) (cs : list Z) (F : Z → dict string Q) (c : Z) :
  NoDup cs → c ∈ cs → NoDup (keys (F c)) →
  for_each (keys (F c)) (fun ct dict_scores =>
    cluster_scores ← dict_item dict_scores c;
    p ← dict_item cluster_scores ct;
    Ok (dict_set c (dict_set ct (p * n)%Q cluster_scores) dict_scores))
    (tabulate cs F)
  = Ok (tabulate cs (fun c' => if decide (c' = c) then scaled n (F c)
                               else F c')).
Proof.
  intros Hcs Hc Hnd.
  set (cts := keys (F c)).
  set (h0 := fun ct => default 0%Q (dict_get ct (F c))).
  set (repr := fun h : string → Q =>
         tabulate cs (fun c' => if decide (c' = c) then tabulate cts h
                                else F c')).
  assert (tabulate cs F = repr h0) as ->.
  { unfold repr. apply tabulate_ext. intros c' _.
    destruct (decide (c' = c)) as [->|]; [|done].
    by apply dict_tabulate. }
  rewrite (for_each_keyed repr cts _ (fun _ p => (p * n)%Q)).
  - f_equal. unfold repr. apply tabulate_ext. intros c' _.
    destruct (decide (c' = c)) as [->|]; [|done].
    transitivity (tabulate cts (fun ct => (h0 ct * n)%Q)).
    + apply tabulate_ext. intros ct Hct. by rewrite decide_True.
    + rewrite <- scaled_tabulate. f_equal. symmetry.
      by apply dict_tabulate.
  - intros f g Hfg. unfold repr. apply tabulate_ext. intros c' _.
    destruct (decide (c' = c)); [|done]. by apply tabulate_ext.
  - done.
  - intros ct f Hct. unfold repr.
    rewrite dict_item_tabulate by done. rewrite decide_True by done.
    rewrite bind_Ok, dict_item_tabulate, bind_Ok by done.
    rewrite dict_set_tabulate by done. rewrite dict_set_tabulate by done.
    f_equal. apply tabulate_ext. intros c' _.
    by destruct (decide (c' = c)).
Qed.

Lemma correct_clusters (n : Q) (cs : list Z) (l : list Z) :
  NoDup cs → NoDup l → l ⊆ cs →
  ∀ F : Z → dict string Q,
    (∀ c, c ∈ l → NoDup (keys (F c))) →
    for_each l (fun clust dict_scores =>
      cluster_scores ← dict_item dict_scores clust;
      for_each (keys cluster_scores) (fun ct dict_scores =>
        cluster_scores ← dict_item dict_scores clust;
        p ← dict_item cluster_scores ct;
        Ok (dict_set clust (dict_set ct (p * n)%Q cluster_scores)
              dict_scores)) dict_scores) (tabulate cs F)
    = Ok (tabulate cs (fun c => if decide (c ∈ l) then scaled n (F c)
                                else F c)).
Proof.
  intros Hcs. induction l as [|c l IH]; intros Hl Hsub F HF.
  - done.
  - apply NoDup_cons in Hl as [Hc Hl]. cbn [for_each].
    assert (c ∈ cs) as Hin by (apply Hsub; by left).
    rewrite dict_item_tabulate, bind_Ok by done.
    rewrite correct_cluster, bind_Ok by (done || apply HF; by left).
    rewrite IH.
    + f_equal. apply tabulate_ext. intros c' _.
      destruct (decide (c' = c)) as [->|Hne].
      * rewrite decide_False by done. by rewrite decide_True by left.
      * destruct (decide (c' ∈ l)) as [Hc'|Hc'].
        -- by rewrite decide_True by (by right).
        -- rewrite decide_False; [done|].
           intros [?|?]%elem_of_cons; done.
    + done.
    + intros c' Hc'. apply Hsub. by right.
    + intros c' Hc'. rewrite decide_False by (intros ->; done).
      apply HF. by right.
Qed.

Lemma dict_get_item {K V : Type} `{EqDecision K} (d : dict K V) k v :
  dict_get k d = Some v → (k, v) ∈ d.
Proof.
  induction d as [|[k' v'] d IH]; [done|]. simpl.
  destruct (decide (k' = k)) as [->|]; [intros [= ->]; by left|].
  intros H. right. by apply IH.
Qed.

(** X19: [_correct_pval] multiplies every p-value by the number of keys of
    the outer dict, the clusters (not the cell types, which are the
    keys of the inner dicts), and keeps the keys and their order;
    nothing caps the product at 1. *)
Theorem correct_pval_scales_by_clusters (dict_scores : dict Z (dict string Q)) :
  NoDup (keys dict_scores) →
  Forall (fun kv => NoDup (keys kv.2)) dict_scores →
  _correct_pval dict_scores
  = Ok ((fun '(clust, cluster_scores) =>
           (clust, scaled (inject_Z (Z.of_nat (length dict_scores)))
                     cluster_scores))
          <$> dict_scores).
Proof.
  intros Hnd Hinner. unfold _correct_pval.
  set (n := inject_Z (Z.of_nat (length (keys dict_scores)))).
  set (cs := keys dict_scores).
  set (F := fun c => default [] (dict_get c dict_scores)).
  assert (dict_scores = tabulate cs F) as Hd by (by apply dict_tabulate).
  assert (∀ c, c ∈ cs → NoDup (keys (F c))) as HF.
  { intros c Hc. unfold F.
    destruct (dict_get_is_Some c dict_scores Hc) as [inner Hi].
    rewrite Hi. simpl. rewrite Forall_forall in Hinner.
    apply (Hinner (c, inner)). by apply dict_get_item. }
  etrans.
  { apply (f_equal (fun r => r ≫= Ok)).
    etrans; [apply (f_equal (for_each cs _)), Hd|].
    by apply (correct_clusters n cs cs). }
  rewrite bind_Ok. f_equal.
  etrans; [|apply (f_equal (list_fmap _ _ _)); symmetry; exact Hd].
  unfold tabulate. change (list_fmap ?A ?B ?f) with (fmap (M:=list) f).
  rewrite <- list_fmap_compose. apply list_fmap_ext. intros i c Hc.
  simpl. rewrite decide_True by (by eapply list_elem_of_lookup_2).
  do 3 f_equal. unfold n, keys. by rewrite length_fmap.
Qed.

Lemma correct_pval_scales_by_clusters_witness :
  _correct_pval [(0, [("T"%string, (1 # 2)%Q); ("U"%string, 1%Q)]);
                 (1, [("T"%string, (1 # 4)%Q)]);
                 (2, [("T"%string, 1%Q)])]
  = Ok ((fun '(clust, cluster_scores) =>
           (clust, scaled (inject_Z (Z.of_nat 3)) cluster_scores))
          <$> [(0, [("T"%string, (1 # 2)%Q); ("U"%string, 1%Q)]);
               (1, [("T"%string, (1 # 4)%Q)]);
               (2, [("T"%string, 1%Q)])]).
Proof.
  apply (correct_pval_scales_by_clusters
           [(0, [("T"%string, (1 # 2)%Q); ("U"%string, 1%Q)]);
            (1, [("T"%string, (1 # 4)%Q)]);
            (2, [("T"%string, 1%Q)])]).
  - apply (bool_decide_unpack _). vm_compute. reflexivity.
  - repeat (constructor;
              [apply (bool_decide_unpack _); vm_compute; reflexivity|]).
    constructor.
Defined.

(** ** [_parse_ref] *)

Lemma elem_of_unique {A : Type} `{EqDecision A} (l : list A) (x : A) :
  x ∈ unique l ↔ x ∈ l.
Proof.
  induction l as [|y l IH]; [done|]. cbn [unique].
  rewrite !elem_of_cons, list_elem_of_filter, IH.
  destruct (decide (x = y)); intuition.
Qed.

Lemma NoDup_unique {A : Type} `{EqDecision A} (l : list A) : NoDup (unique l).
Proof.
  induction l as [|y l IH]; cbn [unique]; [constructor|].
  apply NoDup_cons. split; [|by apply NoDup_filter].
  rewrite list_elem_of_filter. by intros [? _].
Qed.

Lemma split_on_whole (sep : Ascii.ascii) (s : string) :
  contains_char sep s = false → split_on sep s = [s].
Proof.
  induction s as [|c s IH]; [done|]. cbn [contains_char split_on].
  intros [Hc Hs]%orb_false_iff. apply bool_decide_eq_false in Hc.
  rewrite decide_False by done. by rewrite IH.
Qed.

Lemma split_genes_pieces (genes : list string) :
  split_genes genes = concat (split_on ","%char <$> genes).
Proof.
  unfold split_genes. rewrite <- list_fmap_compose. f_equal.
  apply list_fmap_ext. intros i gene _. simpl.
  destruct (contains_char _ gene) eqn:Hc; [done|].
  by rewrite split_on_whole.
Qed.

Lemma frame_of_series_tabulate (cts : list string)
    (genes : string → list string) :
  frame_of_series (tabulate cts genes)
  = tabulate cts (fun ct =>
      (Some <$> genes ct)
      ++ replicate (max_list (length <$> (genes <$> cts))
                    - length (genes ct)) None).
Proof.
  unfold frame_of_series, tabulate, values.
  rewrite <- !list_fmap_compose. apply list_fmap_ext. intros i ct _.
  done.
Qed.

Lemma parse_ref_tabulate (specie_df : list ref_row) (organ : string)
    (context : option string) (comments : bool) :
  let sub_df :=
    filter (fun r => row_context r = default "healthy"%string context)
           (filter (fun r => row_organ r = organ) specie_df) in
  let genes ct :=
    split_genes
      (unique (row_gene_names
                 <$> filter (fun r => row_cell_type r = ct) sub_df)) in
  let cts := unique (row_cell_type <$> sub_df) in
  (_parse_ref specie_df organ context comments).1
  = tabulate cts (fun ct =>
      (Some <$> genes ct)
      ++ replicate (max_list (length <$> (genes <$> cts))
                    - length (genes ct)) None).
Proof.
  intros sub_df genes cts. unfold _parse_ref. cbn [fst].
  rewrite <- frame_of_series_tabulate. f_equal.
  unfold tabulate. rewrite <- list_fmap_compose.
  destruct context; done.
Qed.

(** X20: The reference frame [_parse_ref] builds from the rows of a species:
    its column labels are distinct, and are the cell types of the rows
    of the organ and context asked for ('healthy' when none is given);
    its columns have one length; and the genes of the column of a cell
    type are the pieces, between commas, of the gene names of the rows
    of that cell type (as written: no blank is stripped). *)
Theorem parse_ref_frame (specie_df : list ref_row) (organ : string)
    (context : option string) (comments : bool) :
  let ref_df := (_parse_ref specie_df organ context comments).1 in
  NoDup (keys ref_df)
  ∧ (∀ ct, ct ∈ keys ref_df
           ↔ ∃ r, selected specie_df organ context r ∧ row_cell_type r = ct)
  ∧ (∃ n, Forall (fun column => length column = n) (values ref_df))
  ∧ (∀ ct gene,
       Some gene ∈ markers_of ref_df ct
       ↔ ∃ r, selected specie_df organ context r ∧ row_cell_type r = ct
              ∧ gene ∈ split_on ","%char (row_gene_names r)).
Proof.
  intros ref_df. unfold ref_df. rewrite parse_ref_tabulate.
  set (sub_df := filter _ (filter _ specie_df)).
  set (cts := unique (row_cell_type <$> sub_df)).
  set (genes := fun ct => split_genes _).
  assert (∀ r, r ∈ sub_df ↔ selected specie_df organ context r) as Hsel.
  { intros r. unfold sub_df, selected. rewrite !list_elem_of_filter.
    intuition. }
  assert (∀ ct, ct ∈ cts
                ↔ ∃ r, selected specie_df organ context r
                       ∧ row_cell_type r = ct) as Hcts.
  { intros ct. unfold cts. rewrite elem_of_unique, list_elem_of_fmap.
    split; intros (r & H1 & H2).
    - exists r. by rewrite <- Hsel.
    - exists r. by rewrite Hsel. }
  rewrite keys_tabulate. split; [apply NoDup_unique|]. split; [done|].
  split.
  - exists (max_list (length <$> (genes <$> cts))).
    apply Forall_forall. intros column Hcol. unfold values in Hcol.
    apply list_elem_of_fmap in Hcol as ([ct' column'] & -> & Hin).
    unfold tabulate in Hin.
    apply list_elem_of_fmap in Hin as (ct & [= -> ->] & Hct). cbn [snd].
    rewrite length_app, length_fmap, length_replicate. fold (genes ct).
    assert (length (genes ct) ≤ max_list (length <$> (genes <$> cts)))%nat;
      [|lia].
    apply max_list_elem_of_le. do 2 apply list_elem_of_fmap_2. done.
  - intros ct gene. unfold markers_of. rewrite dict_get_tabulate.
    destruct (decide (ct ∈ cts)) as [Hct|Hct]; cbn [default from_option id].
    + fold (genes ct). rewrite elem_of_app, list_elem_of_fmap.
      transitivity (gene ∈ genes ct).
      { split.
        - intros [(g' & [= <-] & Hg)|Hrep]; [done|].
          by apply elem_of_replicate in Hrep as [? _].
        - intros Hg. left. by exists gene. }
      unfold genes. rewrite split_genes_pieces, elem_of_concat. split.
      * intros (pieces & Hg & Hp).
        apply list_elem_of_fmap in Hp as (name & -> & Hname).
        apply elem_of_unique, list_elem_of_fmap in Hname
          as (r & -> & [Hr Hsub]%list_elem_of_filter).
        exists r. by rewrite <- Hsel.
      * intros (r & Hr & Hrct & Hg). exists (split_on ","%char (row_gene_names r)).
        split; [done|]. apply list_elem_of_fmap_2, elem_of_unique.
        apply list_elem_of_fmap_2, list_elem_of_filter. by rewrite Hsel.
    + split; [by intros ?%elem_of_nil|].
      intros (r & Hr & Hrct & _). destruct Hct. apply Hcts. by exists r.
Qed.

(** Two rows of the organ and context asked for and one of another
    organ: the pieces keep their blanks, and a gene named by two rows
    comes twice. *)
Example parse_ref_run :
  _parse_ref
    [RefRow "brain" "healthy" "neuron" "A, B" "first";
     RefRow "liver" "healthy" "hepatocyte" "C" "second";
     RefRow "brain" "healthy" "neuron" "A" "third";
     RefRow "brain" "healthy" "glia" "D" "fourth"]%string
    "brain"%string None true
  = ([("neuron", [Some "A"; Some " B"; Some "A"]);
      ("glia", [Some "D"; None; None])]%string,
     [("A, B", "first"); ("A", "third"); ("D", "fourth")]%string).
Proof. vm_compute. reflexivity. Qed.

(** ** A gene list that holds no marker *)

Lemma shuffle_from_pool (marker_df : marker_frame) gene_list draw r :
  gene_list ≠ [] → r ∈ shuffle marker_df gene_list draw →
  gene r ∈ gene_list.
Proof.
  intros Hne Hr. unfold shuffle in Hr.
  apply elem_of_zip_with in Hr as (r0 & g & -> & _ & Hg).
  by eapply draw_genes_from_pool.
Qed.

Lemma overlap_disjoint markers (bin_df : marker_frame) :
  (∀ r, r ∈ bin_df → Some (gene r) ∉ markers) → overlap markers bin_df = 0.
Proof.
  intros Hm. unfold overlap.
  assert ((list_to_set markers : gset (option string))
            ∩ list_to_set (Some <$> (gene <$> bin_df)) = ∅) as ->.
  { apply set_eq. intros x. rewrite elem_of_intersection.
    rewrite !elem_of_list_to_set. split; [|by intros ?%elem_of_empty].
    intros [Hx (g & -> & (r & -> & Hr)%list_elem_of_fmap)%list_elem_of_fmap].
    by destruct (Hm r Hr). }
  by rewrite size_empty.
Qed.

Lemma binned_score_disjoint (rows : marker_frame) n bin_size markers :
  (∀ r, r ∈ rows → Some (gene r) ∉ markers) →
  binned_score rows n bin_size markers = 0.
Proof.
  intros Hm. unfold binned_score.
  rewrite (Zsum_fmap_ext _ (fun _ => 0)).
  - induction (seq 0 n) as [|k l IH]; [done|].
    by rewrite fmap_cons, Zsum_cons, IH.
  - intros k _. rewrite overlap_disjoint; [lia|].
    intros r Hr. apply Hm. unfold nth_bin in Hr.
    apply elem_of_take in Hr as (i & Hr%list_elem_of_lookup_2 & _).
    by eapply subseteq_drop.
Qed.

Lemma count_reaching_below observed permuted :
  Forall (fun s => s < observed) permuted →
  count_reaching observed permuted = 0.
Proof.
  induction 1 as [|s l Hs Hl IH]; [done|].
  rewrite count_reaching_cons, IH. unfold reaches.
  rewrite (proj2 (Z.leb_gt _ _)) by done. done.
Qed.

(** X21: When no gene of the gene list is a marker of a cell type, every
    permutation round scores that cell type 0 in every cluster, so its
    p-value is 0 wherever its observed score is positive (and 1 where
    it is 0), whatever K and the draws. *)
Theorem pvalue_with_marker_free_gene_list
    (ranked_marker : marker_frame) (nb_marker : Z) (ref_marker : ref_frame)
    (bin_size : Z) (gene_list : list string) (K : Z)
    (draw : nat → nat → nat) (ct : string) :
  NoDup (keys ref_marker) → 0 < bin_size → 0 ≤ nb_marker →
  gene_list ≠ [] → 0 < K →
  (∀ g, g ∈ gene_list → Some g ∉ markers_of ref_marker ct) →
  ∃ (ref_score : score_dict) (stat_dict : pval_dict),
    _score_iter ranked_marker nb_marker ref_marker bin_size = Ok ref_score
    ∧ permutation_test ranked_marker nb_marker ref_marker bin_size gene_list
        K draw ref_score = Ok stat_dict
    ∧ (∀ i random_df,
         randomize_genes ranked_marker gene_list (draw i) = Ok random_df →
         ∀ clust score,
           (scores ← _score_iter random_df nb_marker ref_marker bin_size;
            Ok (entry scores clust ct)) = Ok (Some score) →
           score = 0)
    ∧ ∀ clust score,
        entry ref_score clust ct = Some score →
        ∃ p, entry stat_dict clust ct = Some p
             ∧ (p == if decide (0 < score)%Z then 0 else 1)%Q.
Proof.
  intros Hcols Hbs Hnb Hpool HK Hfree.
  assert (∀ i clust,
            permuted_score ranked_marker nb_marker bin_size ref_marker
              gene_list draw i clust ct = 0) as Hzero.
  { intros i clust. unfold permuted_score, observed_score.
    apply binned_score_disjoint. intros r Hr. apply Hfree.
    unfold cluster_rows in Hr. apply list_elem_of_filter in Hr as [_ Hr].
    by eapply shuffle_from_pool. }
  do 2 eexists. split; [by apply score_iter_table|].
  split; [by apply permutation_test_table|]. split.
  - intros i random_df. rewrite randomize_genes_Ok by done.
    intros [= <-] clust score.
    rewrite score_iter_table, bind_Ok by done.
    intros [= (_ & _ & ->)%entry_table_inv]. apply Hzero.
  - intros clust score (Hc & Hct & ->)%entry_table_inv.
    eexists. split; [by rewrite entry_table|].
    set (s := observed_score _ _ _ _ _ _).
    rewrite (list_fmap_ext _ (fun _ : nat => 0) (seq 0 (Z.to_nat K)))
      by (intros; apply Hzero).
    destruct (decide (0 < s)) as [Hs|Hs].
    + unfold empirical_pvalue. rewrite count_reaching_below.
      * unfold Qdiv. by rewrite Qmult_0_l.
      * apply Forall_fmap, Forall_forall. intros i _. done.
    + pose proof (binned_score_nonneg (cluster_rows ranked_marker clust)
                    (num_bins nb_marker bin_size) (Z.to_nat bin_size)
                    (markers_of ref_marker ct)) as Hs0.
      fold (observed_score ranked_marker nb_marker bin_size ref_marker
              clust ct) in Hs0. fold s in Hs0.
      destruct (empirical_pvalue_facts s
                  ((fun _ : nat => 0) <$> seq 0 (Z.to_nat K)) K)
        as (_ & _ & _ & _ & Hone); [by apply length_permuted|done|].
      apply Hone, Forall_fmap, Forall_forall. intros i _. simpl. lia.
Qed.

Lemma pvalue_with_marker_free_gene_list_witness :
  ∃ (ref_score : score_dict) (stat_dict : pval_dict),
    _score_iter example_table 4 example_ref 2 = Ok ref_score
    ∧ permutation_test example_table 4 example_ref 2 ["X"; "Y"]%string
        3 example_draw ref_score = Ok stat_dict
    ∧ (∀ i random_df,
         randomize_genes example_table ["X"; "Y"]%string (example_draw i)
         = Ok random_df →
         ∀ clust score,
           (scores ← _score_iter random_df 4 example_ref 2;
            Ok (entry scores clust "T"%string)) = Ok (Some score) →
           score = 0)
    ∧ ∀ clust score,
        entry ref_score clust "T"%string = Some score →
        ∃ p, entry stat_dict clust "T"%string = Some p
             ∧ (p == if decide (0 < score)%Z then 0 else 1)%Q.
Proof.
  apply (pvalue_with_marker_free_gene_list example_table 4 example_ref 2
           ["X"; "Y"]%string 3 example_draw "T"%string).
  - apply (bool_decide_unpack _). vm_compute. reflexivity.
  - lia.
  - lia.
  - discriminate.
  - lia.
  - intros g Hg Hm.
    apply elem_of_cons in Hg as [->|Hg];
      [|apply elem_of_cons in Hg as [->|Hg];
        [|by apply elem_of_nil in Hg]];
      vm_compute in Hm;
      repeat (apply elem_of_cons in Hm as [Hm|Hm]; [discriminate Hm|]);
      by apply elem_of_nil in Hm.
Defined.

(** ** What the scores read of the ranking *)

Lemma row_key_cluster_rows (t t' : marker_frame) clust :
  row_key <$> t = row_key <$> t' →
  row_key <$> cluster_rows t clust = row_key <$> cluster_rows t' clust.
Proof.
  revert t'. unfold cluster_rows.
  induction t as [|r t IH]; intros [|r' t'] H; try done.
  rewrite !fmap_cons in H. injection H as Hc Hg Ht.
  destruct (decide (cluster_number r = clust)) as [Hd|Hd].
  - rewrite !filter_cons_True by congruence.
    rewrite !fmap_cons. unfold row_key at 1 3. rewrite Hc, Hg.
    f_equal. by apply IH.
  - rewrite !filter_cons_False by congruence. by apply IH.
Qed.

Lemma gene_of_row_key (rows : marker_frame) :
  gene <$> rows = snd <$> (row_key <$> rows).
Proof. rewrite <- list_fmap_compose. by apply list_fmap_ext. Qed.

Lemma cluster_of_row_key (rows : marker_frame) :
  cluster_number <$> rows = fst <$> (row_key <$> rows).
Proof. rewrite <- list_fmap_compose. by apply list_fmap_ext. Qed.

Lemma observed_score_row_key (t t' : marker_frame) nb_marker bin_size ref_df
    clust ct :
  row_key <$> t = row_key <$> t' →
  observed_score t nb_marker bin_size ref_df clust ct
  = observed_score t' nb_marker bin_size ref_df clust ct.
Proof.
  intros H%(row_key_cluster_rows _ _ clust).
  unfold observed_score, binned_score. f_equal.
  apply list_fmap_ext. intros i k _. f_equal.
  unfold overlap, nth_bin. do 4 f_equal.
  by rewrite !gene_of_row_key, !fmap_take, !fmap_drop, H.
Qed.

Lemma clusters_row_key (t t' : marker_frame) :
  row_key <$> t = row_key <$> t' → clusters t = clusters t'.
Proof.
  intros H. unfold clusters. by rewrite !cluster_of_row_key, H.
Qed.

Lemma row_key_shuffle (t t' : marker_frame) gene_list draw :
  row_key <$> t = row_key <$> t' →
  row_key <$> shuffle t gene_list draw
  = row_key <$> shuffle t' gene_list draw.
Proof.
  intros H. unfold shuffle.
  assert (length t = length t') as Hlen.
  { apply (f_equal length) in H. by rewrite !length_fmap in H. }
  rewrite <- Hlen. generalize (draw_genes gene_list (length t) draw).
  clear Hlen. revert t' H.
  induction t as [|r t IH]; intros [|r' t'] H col; try done.
  destruct col as [|g col]; [done|]. cbn [zip_with fmap list_fmap].
  rewrite !fmap_cons in H. injection H as Hc Hg Ht.
  f_equal; [|by apply IH].
  unfold row_key. simpl. by rewrite Hc.
Qed.

Lemma row_key_group_rows rgg rgg' (g n i : nat) :
  well_shaped rgg g n → well_shaped rgg' g n → names rgg' = names rgg →
  row_key <$> group_rows rgg' i = row_key <$> group_rows rgg i.
Proof.
  intros (Hn & Hs & Hp & _) (Hn' & Hs' & Hp' & _) Hnames.
  apply list_eq. intros r. rewrite !list_lookup_fmap.
  unfold group_rows. rewrite !list_lookup_imap.
  rewrite !(lookup_zip_with pair), !list_lookup_fmap, Hnames.
  destruct (decide (r < n)%nat) as [Hr|Hr].
  - destruct (lookup_lt_is_Some_2 (scores rgg) r ltac:(lia)) as [zs ->].
    destruct (lookup_lt_is_Some_2 (pvals_adj rgg) r ltac:(lia)) as [ps ->].
    destruct (lookup_lt_is_Some_2 (scores rgg') r ltac:(lia)) as [zs' ->].
    destruct (lookup_lt_is_Some_2 (pvals_adj rgg') r ltac:(lia)) as [ps' ->].
    destruct (names rgg !! r); done.
  - rewrite !(lookup_ge_None_2 (names rgg)) by lia.
    by destruct (scores rgg !! r), (pvals_adj rgg !! r),
      (scores rgg' !! r), (pvals_adj rgg' !! r).
Qed.

Lemma row_key_blocks rgg rgg' (g n : nat) (l : list nat) :
  well_shaped rgg g n → well_shaped rgg' g n → names rgg' = names rgg →
  row_key <$> concat (group_rows rgg' <$> l)
  = row_key <$> concat (group_rows rgg <$> l).
Proof.
  intros H H' Hnames. induction l as [|i l IH]; [done|].
  cbn [fmap list_fmap concat]. rewrite !fmap_app.
  f_equal; [by eapply row_key_group_rows | apply IH].
Qed.

(** X22: The z-scores and the adjusted p-values of the ranking have no part
    in the result: two datasets whose rankings have the same gene
    names, whatever their other two arrays, get the same score dict and
    the same p-value dict from [score_clusters], for the same draws. *)
Theorem score_clusters_reads_gene_names_only
    (user_ref : option ref_frame) (parse_ref : res ref_frame)
    (get_genelist : res (list string)) (anndata anndata' : AnnData)
    (bin_size random_sampling : Z) (draw : nat → nat → nat)
    (rgg rgg' : rank_genes_groups) (g n : nat) (ref_marker : ref_frame)
    (gene_list : list string) :
  is_Some (dict_get "louvain"%string (obs anndata))
  ∨ is_Some (dict_get "leiden"%string (obs anndata)) →
  is_Some (dict_get "louvain"%string (obs anndata'))
  ∨ is_Some (dict_get "leiden"%string (obs anndata')) →
  uns_rank_genes_groups anndata = Some rgg →
  uns_rank_genes_groups anndata' = Some rgg' →
  well_shaped rgg g n → well_shaped rgg' g n → (0 < n)%nat →
  names rgg' = names rgg →
  match user_ref with Some r => Ok r | None => parse_ref end = Ok ref_marker →
  NoDup (keys ref_marker) →
  get_genelist = Ok gene_list → gene_list ≠ [] →
  0 < bin_size → 0 < random_sampling →
  ∃ scored scored' stat_dict ref_score,
    score_clusters user_ref parse_ref get_genelist anndata bin_size
      random_sampling draw
    = Ok ("DONE"%string, scored)
    ∧ score_clusters user_ref parse_ref get_genelist anndata' bin_size
        random_sampling draw
      = Ok ("DONE"%string, scored')
    ∧ uns_scoreCT scored
      = Some (ScoreCT stat_dict ref_score (groupby rgg) None)
    ∧ uns_scoreCT scored'
      = Some (ScoreCT stat_dict ref_score (groupby rgg') None).
Proof.
  intros Hcl Hcl' Hrgg Hrgg' Hshape Hshape' Hn Hnames Href Hnd Hgl Hpool
    Hbs HK.
  rewrite (score_clusters_after_scoring user_ref parse_ref get_genelist
             anndata bin_size random_sampling draw rgg g n ref_marker)
    by done.
  rewrite (score_clusters_after_scoring user_ref parse_ref get_genelist
             anndata' bin_size random_sampling draw rgg' g n ref_marker)
    by done.
  pose proof (row_key_blocks rgg rgg' g n (seq 0 g) Hshape Hshape' Hnames)
    as Hkey.
  set (t := concat (group_rows rgg <$> seq 0 g)) in *.
  set (t' := concat (group_rows rgg' <$> seq 0 g)) in *.
  rewrite !score_iter_table, !bind_Ok by (done || lia).
  rewrite Hgl, !bind_Ok.
  rewrite !permutation_test_table, !bind_Ok by (done || lia).
  rewrite (clusters_row_key _ _ Hkey).
  rewrite (table_ext (clusters t) _
             (observed_score t' (Z.of_nat n) bin_size ref_marker)
             (observed_score t (Z.of_nat n) bin_size ref_marker))
    by (intros c ct _ _; by apply observed_score_row_key).
  rewrite (table_ext (clusters t) _
             (fun c ct =>
                empirical_pvalue
                  (observed_score t' (Z.of_nat n) bin_size ref_marker c ct)
                  ((fun i => permuted_score t' (Z.of_nat n) bin_size
                               ref_marker gene_list draw i c ct)
                     <$> seq 0 (Z.to_nat random_sampling)) random_sampling)
             (fun c ct =>
                empirical_pvalue
                  (observed_score t (Z.of_nat n) bin_size ref_marker c ct)
                  ((fun i => permuted_score t (Z.of_nat n) bin_size
                               ref_marker gene_list draw i c ct)
                     <$> seq 0 (Z.to_nat random_sampling)) random_sampling)).
  - by do 4 eexists.
  - intros c ct _ _. f_equal.
    + by apply observed_score_row_key.
    + apply list_fmap_ext. intros i k _. unfold permuted_score.
      by apply observed_score_row_key, row_key_shuffle.
Qed.

Lemma score_clusters_reads_gene_names_only_witness :
  ∃ scored scored' stat_dict ref_score,
    score_clusters (Some example_ref) (Raise KeyError) (Ok example_pool)
      example_anndata 2 3 example_draw
    = Ok ("DONE"%string, scored)
    ∧ score_clusters (Some example_ref) (Raise KeyError) (Ok example_pool)
        (mkAnnData 3 [("louvain"%string, ["0"; "1"; "0"]%string)]
           (Some (RankGenesGroups (names example_rgg)
                    (pvals_adj example_rgg) (scores example_rgg)
                    "louvain")) None)
        2 3 example_draw
      = Ok ("DONE"%string, scored')
    ∧ uns_scoreCT scored
      = Some (ScoreCT stat_dict ref_score (groupby example_rgg) None)
    ∧ uns_scoreCT scored'
      = Some (ScoreCT stat_dict ref_score "louvain" None).
Proof.
  apply (score_clusters_reads_gene_names_only (Some example_ref)
           (Raise KeyError) (Ok example_pool) example_anndata
           (mkAnnData 3 [("louvain"%string, ["0"; "1"; "0"]%string)]
              (Some (RankGenesGroups (names example_rgg)
                       (pvals_adj example_rgg) (scores example_rgg)
                       "louvain")) None)
           2 3 example_draw example_rgg
           (RankGenesGroups (names example_rgg) (pvals_adj example_rgg)
              (scores example_rgg) "louvain")
           2 4 example_ref example_pool).
  - left. by eexists.
  - left. by eexists.
  - reflexivity.
  - reflexivity.
  - repeat split; try reflexivity; repeat constructor.
  - repeat split; try reflexivity; repeat constructor.
  - lia.
  - reflexivity.
  - reflexivity.
  - apply (bool_decide_unpack _). vm_compute. reflexivity.
  - reflexivity.
  - discriminate.
  - lia.
  - lia.
Defined.

(** ** The two steps in a row *)

Lemma assign_type_table (cs : list Z) (cts : list string)
    (P : Z → string → Q) (S : Z → string → Z) (c : Z) (pval_thrsh : Q) :
  c ∈ cs → cts ≠ [] →
  ∃ label,
    assign_type (table cs cts P) (table cs cts S) c pval_thrsh = Ok label
    ∧ (label = "NA"%string ∨ label ∈ cts).
Proof.
  intros Hc Hcts. unfold assign_type.
  rewrite dict_item_table, bind_Ok by done.
  assert (tabulate cts (P c) ≠ []) as Hne by (by destruct cts).
  destruct (min_float_Ok (values (tabulate cts (P c)))) as [m ->].
  { unfold values. by destruct (tabulate cts (P c)). }
  rewrite bind_Ok. destruct (Qltb pval_thrsh m); [eexists; by split; [|left]|].
  unfold best_type. destruct (bool_decide _).
  - rewrite dict_item_table, bind_Ok by done.
    destruct (extremal_key_Ok (fun v best => best <? v) (tabulate cts (S c)))
      as [k Hk]; [by destruct cts|].
    exists k. split; [done|]. right.
    apply extremal_key_in_keys in Hk. by rewrite keys_tabulate in Hk.
  - destruct (extremal_key_Ok (fun v best => Qltb v best)
                (tabulate cts (P c)) Hne) as [k Hk].
    exists k. split; [done|]. right.
    apply extremal_key_in_keys in Hk. by rewrite keys_tabulate in Hk.
Qed.

(** X23: On a dataset with its clustering column and a ranking of [g]
    groups over [n] ranks, with a reference of at least one cell type,
    a bin size of at most [n], a non-empty gene list and K >= 1,
    [score_clusters] then [assign_celltypes] both return, for every
    threshold: every cell of a group 0 .. g-1 is labelled 'NA' or with
    a cell type of the reference, and every other cell with the empty
    string. *)
Theorem pipeline_labels_every_cell
    (user_ref : option ref_frame) (parse_ref : res ref_frame)
    (get_genelist : res (list string)) (anndata : AnnData)
    (bin_size random_sampling : Z) (draw : nat → nat → nat)
    (rgg : rank_genes_groups) (g n : nat) (ref_marker : ref_frame)
    (gene_list : list string) (labels : list string) (pval_thrsh : Q) :
  is_Some (dict_get "louvain"%string (obs anndata))
  ∨ is_Some (dict_get "leiden"%string (obs anndata)) →
  uns_rank_genes_groups anndata = Some rgg →
  well_shaped rgg g n → (0 < n)%nat →
  groupby rgg ≠ "scorect"%string →
  dict_get (groupby rgg) (obs anndata) = Some labels →
  length labels = n_obs anndata →
  match user_ref with Some r => Ok r | None => parse_ref end = Ok ref_marker →
  NoDup (keys ref_marker) → ref_marker ≠ [] →
  get_genelist = Ok gene_list → gene_list ≠ [] →
  0 < bin_size ≤ Z.of_nat n → 0 < random_sampling →
  ∃ scored assigned scorect,
    score_clusters user_ref parse_ref get_genelist anndata bin_size
      random_sampling draw
    = Ok ("DONE"%string, scored)
    ∧ assign_celltypes scored pval_thrsh
      = Ok ("Cell types assigned in Anndata.obs['scorect']"%string, assigned)
    ∧ obs assigned = dict_set "scorect"%string scorect (obs anndata)
    ∧ length scorect = n_obs anndata
    ∧ ∀ (j : nat) l, labels !! j = Some l →
        ∃ label,
          scorect !! j = Some label
          ∧ ((∃ i, (i < g)%nat ∧ l = pretty (Z.of_nat i)) →
             label = "NA"%string ∨ label ∈ keys ref_marker)
          ∧ ((∀ i, (i < g)%nat → l ≠ pretty (Z.of_nat i)) →
             label = ""%string).
Proof.
  intros Hcl Hrgg Hshape Hn Hgroup Hlabels Hlen Href Hnd Hne Hgl Hpool Hbs HK.
  rewrite (score_clusters_after_scoring user_ref parse_ref get_genelist
             anndata bin_size random_sampling draw rgg g n ref_marker)
    by done.
  rewrite score_iter_table, bind_Ok by (done || lia).
  rewrite Hgl, bind_Ok.
  rewrite permutation_test_table, bind_Ok by (done || lia).
  rewrite scored_types_all by lia.
  set (t := concat (group_rows rgg <$> seq 0 g)).
  set (cs := clusters t).
  set (S := observed_score t (Z.of_nat n) bin_size ref_marker).
  set (P := fun c ct => empirical_pvalue _ _ _).
  set (label_of := fun c =>
         match assign_type (table cs (keys ref_marker) P)
                 (table cs (keys ref_marker) S) c pval_thrsh with
         | Ok label => label
         | Raise _ => ""%string
         end).
  assert (keys ref_marker ≠ []) as Hkeys by (by destruct ref_marker).
  assert (∀ c, c ∈ cs →
            assign_type (table cs (keys ref_marker) P)
              (table cs (keys ref_marker) S) c pval_thrsh = Ok (label_of c)
            ∧ (label_of c = "NA"%string ∨ label_of c ∈ keys ref_marker))
    as Hassign.
  { intros c Hc. unfold label_of.
    destruct (assign_type_table cs (keys ref_marker) P S c pval_thrsh Hc Hkeys)
      as (label & -> & Hlabel). done. }
  assert (length labels = length (replicate (n_obs anndata) ""%string))
    as Hlen' by (by rewrite length_replicate).
  exists {| n_obs := n_obs anndata;
            obs := obs anndata;
            uns_rank_genes_groups := uns_rank_genes_groups anndata;
            uns_scoreCT :=
              Some (ScoreCT (table cs (keys ref_marker) P)
                      (table cs (keys ref_marker) S) (groupby rgg) None) |}.
  eexists.
  exists (labelled labels label_of cs (replicate (n_obs anndata) ""%string)).
  split; [done|]. split; [|split; [|split]].
  - unfold assign_celltypes.
    cbn [uns_scoreCT slot_pval_dict slot_score_dict slot_clustering
         slot_pval_thrsh n_obs obs].
    rewrite keys_table.
    rewrite (assign_loop _ _ _ _ _ labels label_of) by
      (done || (intros c Hc; by apply Hassign)).
    rewrite bind_Ok. done.
  - done.
  - rewrite length_labelled by done. by rewrite length_replicate.
  - intros j l Hl.
    assert (replicate (n_obs anndata) ""%string !! j = Some ""%string) as Ho.
    { apply lookup_replicate_2. apply lookup_lt_Some in Hl. lia. }
    destruct (decide (Exists (fun c => l = pretty c) cs)) as [Hex|Hno].
    + apply Exists_exists in Hex as (c & Hc & ->).
      exists (label_of c). split.
      * eapply lookup_labelled; [done|apply NoDup_remove_dups|done|done|done].
      * split; [intros _; by apply Hassign|].
        intros Hother. exfalso.
        apply (elem_of_clusters_blocks rgg g n c Hshape Hn) in Hc
          as (i & Hi & ->).
        by apply (Hother i).
    + exists ""%string. split.
      * eapply lookup_labelled_other; [done|done|done|].
        intros c Hc ->. apply Hno, Exists_exists. by exists c.
      * split; [|done]. intros (i & Hi & ->). exfalso.
        apply Hno, Exists_exists. exists (Z.of_nat i). split; [|done].
        apply (elem_of_clusters_blocks rgg g n _ Hshape Hn). by exists i.
Qed.

Lemma pipeline_labels_every_cell_witness :
  ∃ scored assigned scorect,
    score_clusters (Some example_ref) (Raise KeyError) (Ok example_pool)
      example_anndata 2 3 example_draw
    = Ok ("DONE"%string, scored)
    ∧ assign_celltypes scored (1 # 10)%Q
      = Ok ("Cell types assigned in Anndata.obs['scorect']"%string, assigned)
    ∧ obs assigned = dict_set "scorect"%string scorect (obs example_anndata)
    ∧ length scorect = n_obs example_anndata
    ∧ ∀ (j : nat) l, ["0"; "1"; "0"]%string !! j = Some l →
        ∃ label,
          scorect !! j = Some label
          ∧ ((∃ i, (i < 2)%nat ∧ l = pretty (Z.of_nat i)) →
             label = "NA"%string ∨ label ∈ keys example_ref)
          ∧ ((∀ i, (i < 2)%nat → l ≠ pretty (Z.of_nat i)) →
             label = ""%string).
Proof.
  apply (pipeline_labels_every_cell (Some example_ref) (Raise KeyError)
           (Ok example_pool) example_anndata 2 3 example_draw example_rgg
           2 4 example_ref example_pool ["0"; "1"; "0"]%string (1 # 10)%Q).
  - left. by eexists.
  - reflexivity.
  - repeat split; try reflexivity; repeat constructor.
  - lia.
  - discriminate.
  - reflexivity.
  - reflexivity.
  - reflexivity.
  - apply (bool_decide_unpack _). vm_compute. reflexivity.
  - discriminate.
  - reflexivity.
  - discriminate.
  - simpl. lia.
  - lia.
Defined.
